(** * var_cal: feed-to-calendar synchronisation (sync.py)

    A shallow embedding of [sync.py] and the properties of its
    normaliser, recurrence encoder, canonicaliser and reconciler.

    Conventions of the embedding.
    - A Python [str] is a Rocq [string]; characters are code points below 256.
    - [datetime.date] and [datetime.datetime] are records of their fields;
      a [datetime.timedelta] is a number of microseconds.
    - An aware datetime carries a [tzinfo]; as in pytz, a zone object attached
      to a datetime has one fixed UTC offset.
    - The zone database (pytz), the digest (hashlib.md5), the feed parser
      (icalendar) and the remote store are not part of the repository: they
      are parameters of the sections below.
    - An exception is a [Raise] result; effects on the state file and on the
      store are recorded in a trace. *)

From Stdlib Require Import ZArith List ListDec String Ascii Bool Lia DecimalString.
From Stdlib Require Import OrderedTypeEx Permutation Sorted.
Import ListNotations.
Open Scope Z_scope.

(* ------------------------------------------------------------------ *)
(** ** Exceptions *)

Inductive exn :=
| UnknownTimeZoneError
| AttributeError
| ValueError
| TypeError
| HTTPError
| ParseError
| StoreError.

Inductive result (A : Type) :=
| Ok (a : A)
| Raise (e : exn).
Arguments Ok {A} a.
Arguments Raise {A} e.

Definition rbind {A B} (r : result A) (k : A -> result B) : result B :=
  match r with
  | Ok a => k a
  | Raise e => Raise e
  end.

Notation "x <- c ;; k" := (rbind c (fun x => k))
  (at level 61, c at next level, right associativity).
Notation "' p <- c ;; k" := (rbind c (fun x => match x with p => k end))
  (at level 61, p pattern, c at next level, right associativity).

(* ------------------------------------------------------------------ *)
(** ** Text *)

Module Text.

Definition dquote : ascii := ascii_of_nat 34.
Definition backslash : ascii := ascii_of_nat 92.

Definition chr (c : ascii) : string := String c EmptyString.

(** [c.upper()] on the ASCII letters. *)
Definition upper_char (c : ascii) : ascii :=
  let n := nat_of_ascii c in
  if ((97 <=? n) && (n <=? 122))%nat then ascii_of_nat (n - 32) else c.

Fixpoint upper (s : string) : string :=
  match s with
  | EmptyString => EmptyString
  | String c t => String (upper_char c) (upper t)
  end.

(** [sep.join(parts)]. *)
Definition join (sep : string) (parts : list string) : string :=
  String.concat sep parts.

(** Python truthiness of a string. *)
Definition truthy (s : string) : bool :=
  match s with EmptyString => false | _ => true end.

Definition digit (n : Z) : ascii := ascii_of_nat (48 + Z.to_nat n).

(** [%0wd] for a field that fits its width. *)
Fixpoint pad (w : nat) (n : Z) : string :=
  match w with
  | O => EmptyString
  | S w' => (pad w' (n / 10) ++ chr (digit (n mod 10)))%string
  end.

(** [str(n)] for an integer (of at most 4300 digits, as [int] delivers
    them). *)
Definition str_int (n : Z) : string := NilZero.string_of_int (Z.to_int n).


Definition is_digit (c : ascii) : bool :=
  let n := nat_of_ascii c in ((48 <=? n) && (n <=? 57))%nat.

(** The characters that [str.isspace] accepts. *)
Definition is_space (c : ascii) : bool :=
  let n := nat_of_ascii c in
  (((9 <=? n) && (n <=? 13)) || ((28 <=? n) && (n <=? 32))
   || (n =? 133) || (n =? 160))%nat.

Fixpoint lstrip (l : list ascii) : list ascii :=
  match l with
  | c :: r => if is_space c then lstrip r else l
  | [] => []
  end.

Definition strip (l : list ascii) : list ascii := rev (lstrip (rev (lstrip l))).

Definition digit_value (c : ascii) : Z := Z.of_nat (nat_of_ascii c) - 48.

(** The digits of a decimal literal, read from the left: one underscore may
    stand between two digits.  The result is the value and the number of
    digits. *)
Fixpoint decimal_digits (l : list ascii) (acc : Z) (count : nat) (after_digit : bool)
    : option (Z * nat) :=
  match l with
  | [] => if after_digit then Some (acc, count) else None
  | c :: r =>
      if is_digit c then decimal_digits r (acc * 10 + digit_value c) (S count) true
      else if Ascii.eqb c "_" then
        (if after_digit then decimal_digits r acc count false else None)
      else None
  end.

(** The longest decimal text that [int] converts. *)
Definition max_str_digits : nat := 4300.

(** [int(s)]: blanks around the literal are dropped, a sign may precede the
    digits, and a text that is no decimal literal raises [ValueError]. *)
Definition int_str (s : string) : result Z :=
  let l := strip (list_ascii_of_string s) in
  let '(sign, body) :=
    match l with
    | c :: r => if Ascii.eqb c "-" then (-1, r)
                else if Ascii.eqb c "+" then (1, r) else (1, l)
    | [] => (1, l)
    end in
  match decimal_digits body 0 0 false with
  | Some (v, n) => if (n <=? max_str_digits)%nat then Ok (sign * v) else Raise ValueError
  | None => Raise ValueError
  end.

(** [%Y] of [strftime]: the year in decimal, without leading zeros (a year
    is between 1 and 9999). *)
Definition year_width (y : Z) : nat :=
  if y <? 10 then 1 else if y <? 100 then 2 else if y <? 1000 then 3 else 4.

Definition strftime_year (y : Z) : string := pad (year_width y) y.

End Text.
Import Text.

(* ------------------------------------------------------------------ *)
(** ** Calendar arithmetic (proleptic Gregorian, as in [datetime]) *)

Module Cal.

Record date := mkDate { year : Z; month : Z; day : Z }.

(** The fields of a datetime without its [tzinfo]. *)
Record naive := mkNaive {
  n_date : date;
  hour : Z; minute : Z; second : Z; microsecond : Z }.

Definition days_from_civil (d : date) : Z :=
  let y := if month d <=? 2 then year d - 1 else year d in
  let era := y / 400 in
  let yoe := y - era * 400 in
  let mp := (month d + 9) mod 12 in
  let doy := (153 * mp + 2) / 5 + day d - 1 in
  let doe := yoe * 365 + yoe / 4 - yoe / 100 + doy in
  era * 146097 + doe - 719468.

Definition civil_from_days (z : Z) : date :=
  let z := z + 719468 in
  let era := z / 146097 in
  let doe := z - era * 146097 in
  let yoe := (doe - doe / 1460 + doe / 36524 - doe / 146096) / 365 in
  let doy := doe - (365 * yoe + yoe / 4 - yoe / 100) in
  let mp := (5 * doy + 2) / 153 in
  let d := doy - (153 * mp + 2) / 5 + 1 in
  let m := if mp <? 10 then mp + 3 else mp - 9 in
  let y := yoe + era * 400 in
  mkDate (if m <=? 2 then y + 1 else y) m d.

Definition us_per_second : Z := 1000000.
Definition us_per_day : Z := 86400 * us_per_second.

(** Microseconds since 1970-01-01T00:00:00 on the datetime's own clock. *)
Definition to_us (n : naive) : Z :=
  ((days_from_civil (n_date n) * 86400
    + hour n * 3600 + minute n * 60 + second n) * us_per_second)
  + microsecond n.

Definition of_us (t : Z) : naive :=
  let days := t / us_per_day in
  let r := t mod us_per_day in
  let secs := r / us_per_second in
  mkNaive (civil_from_days days)
          (secs / 3600) ((secs / 60) mod 60) (secs mod 60)
          (r mod us_per_second).

(** [datetime.combine(d, time(0, 0))]. *)
Definition midnight (d : date) : naive := mkNaive d 0 0 0 0.

(** [timedelta(days=..)], [timedelta(hours=..)] in microseconds. *)
Definition timedelta_days (n : Z) : Z := n * us_per_day.
Definition timedelta_hours (n : Z) : Z := n * 3600 * us_per_second.

(** Wall-clock addition of a timedelta. *)
Definition naive_add (n : naive) (td : Z) : naive := of_us (to_us n + td).

(** [date.isoformat()]. *)
Definition date_isoformat (d : date) : string :=
  (pad 4 (year d) ++ "-" ++ pad 2 (month d) ++ "-" ++ pad 2 (day d))%string.

(** [strftime("%Y%m%d")]: the year is not padded, month and day are. *)
Definition date_compact (d : date) : string :=
  (strftime_year (year d) ++ pad 2 (month d) ++ pad 2 (day d))%string.

(** [strftime("%Y%m%dT%H%M%S")]. *)
Definition naive_compact (n : naive) : string :=
  (date_compact (n_date n) ++ "T"
   ++ pad 2 (hour n) ++ pad 2 (minute n) ++ pad 2 (second n))%string.

(** The date and time part of [datetime.isoformat(sep)]. *)
Definition naive_isoformat (sep : string) (n : naive) : string :=
  (date_isoformat (n_date n) ++ sep
   ++ pad 2 (hour n) ++ ":" ++ pad 2 (minute n) ++ ":" ++ pad 2 (second n)
   ++ (if Z.eqb (microsecond n) 0 then EmptyString else "." ++ pad 6 (microsecond n)))%string.

(** The [+HH:MM] suffix of an aware datetime's isoformat. *)
Definition offset_isoformat (off : Z) : string :=
  let a := Z.abs off in
  ((if Z.ltb off 0 then "-" else "+")
   ++ pad 2 (Z.div a 3600) ++ ":" ++ pad 2 (Z.modulo (Z.div a 60) 60)
   ++ (if Z.eqb (Z.modulo a 60) 0 then EmptyString else ":" ++ pad 2 (Z.modulo a 60)))%string.

(** The ranges of the fields of a [date] and of a [datetime] object. *)
Definition valid_date (d : date) : Prop :=
  1 <= year d <= 9999 /\ 1 <= month d <= 12 /\ 1 <= day d <= 31.

Definition valid_naive (n : naive) : Prop :=
  valid_date (n_date n)
  /\ 0 <= hour n < 24 /\ 0 <= minute n < 60 /\ 0 <= second n < 60
  /\ 0 <= microsecond n < 1000000.

End Cal.
Import Cal.

(* ------------------------------------------------------------------ *)
(** ** Ordered dictionaries

    A Python [dict] keeps its keys unique and in insertion order. *)

Module Dict.

Definition dict (V : Type) := list (string * V).

Fixpoint get {V} (d : dict V) (k : string) : option V :=
  match d with
  | [] => None
  | (k', v) :: rest => if String.eqb k' k then Some v else get rest k
  end.

(** [d[k] = v]: replaces in place, or appends a new key. *)
Fixpoint set {V} (d : dict V) (k : string) (v : V) : dict V :=
  match d with
  | [] => [(k, v)]
  | (k', v') :: rest =>
      if String.eqb k' k then (k', v) :: rest else (k', v') :: set rest k v
  end.

Definition keys {V} (d : dict V) : list string := map fst d.

Definition mem {V} (d : dict V) (k : string) : bool :=
  match get d k with Some _ => true | None => false end.

(** The invariant of a dictionary: no key twice. *)
Fixpoint unique (ks : list string) : bool :=
  match ks with
  | [] => true
  | k :: rest => negb (existsb (String.eqb k) rest) && unique rest
  end.

Definition unique_keys {V} (d : dict V) : bool := unique (keys d).

(** [sorted(xs, key=f)]: a stable insertion sort on the code points of the key. *)
Fixpoint insert_by {A} (f : A -> string) (x : A) (l : list A) : list A :=
  match l with
  | [] => [x]
  | y :: rest =>
      if String.ltb (f x) (f y) then x :: y :: rest
      else y :: insert_by f x rest
  end.

Definition sorted_by {A} (f : A -> string) (l : list A) : list A :=
  fold_left (fun acc x => insert_by f x acc) l [].

End Dict.
Import Dict.

(* ------------------------------------------------------------------ *)
(** ** Time zones and aware datetimes *)

(** A [tzinfo] object.  [ZoneObj n] is the object that [timezone(n)] returns;
    [ZoneAt n off] is the fixed-offset instance of zone [n] that [localize]
    and [fromutc] attach to a datetime.  (For instants before the first
    transition of a zone pytz attaches the zone object itself; here such a
    datetime carries a [ZoneAt] instance with the offset of that object.) *)
Inductive tzinfo :=
| UTC
| ZoneObj (name : string)
| ZoneAt (name : string) (off : Z).

(** The zone database and the clock of the host; offsets are in seconds. *)
Class Zones := {
  tz_exists : string -> bool;
  tz_default_offset : string -> Z;
  tz_local_offset : string -> Z -> Z;
  tz_utc_offset : string -> Z -> Z;
  system_offset : Z -> Z
}.

(** Configuration read from the environment at import time. *)
Class Settings := {
  TIMEZONE : string;
  PAST_DAYS : Z
}.

(** [hashlib.md5(data).hexdigest()]. *)
Class Hashlib := {
  md5 : string -> string
}.

Record datetime := mkDT { dt_naive : naive; dt_tz : option tzinfo }.

(** The [.dt] of a feed property: a date or a datetime. *)
Inductive dtvalue :=
| VDate (d : date)
| VDateTime (dt : datetime).

(** [a is b]: are the two the same object? *)
Definition tz_is (a b : tzinfo) : bool :=
  match a, b with
  | UTC, UTC => true
  | ZoneObj n, ZoneObj m => String.eqb n m
  | ZoneAt n o, ZoneAt m p => String.eqb n m && (o =? p)
  | _, _ => false
  end.

Definition WINDOWS_TZMAP : dict string :=
  [ ("Romance Standard Time", "Europe/Paris");
    ("W. Europe Standard Time", "Europe/Berlin");
    ("Central European Standard Time", "Europe/Warsaw");
    ("FLE Standard Time", "Europe/Helsinki") ]%string.

Section Normalizer.
Context `{Zones} `{Settings}.

Definition utcoffset (tz : tzinfo) : Z :=
  match tz with
  | UTC => 0
  | ZoneObj n => tz_default_offset n
  | ZoneAt _ o => o
  end.

Definition is_utc_name (name : string) : bool := String.eqb (upper name) "UTC".

Definition tz_object (name : string) : tzinfo :=
  if is_utc_name name then UTC else ZoneObj name.

(** [pytz.timezone(name)]. *)
Definition timezone (name : string) : result tzinfo :=
  if is_utc_name name || tz_exists name then Ok (tz_object name)
  else Raise UnknownTimeZoneError.

(** The module-level [TZ = timezone(TIMEZONE)]; the import fails unless
    [TIMEZONE] names a zone of the database. *)
Definition TZ : tzinfo := tz_object TIMEZONE.

(** [tz.localize(naive)]. *)
Definition localize (tz : tzinfo) (n : naive) : datetime :=
  match tz with
  | UTC => mkDT n (Some UTC)
  | ZoneObj name | ZoneAt name _ =>
      mkDT n (Some (ZoneAt name (tz_local_offset name (to_us n))))
  end.

(** [tz.fromutc(u)] for [u] in microseconds since the epoch. *)
Definition fromutc (tz : tzinfo) (u : Z) : datetime :=
  match tz with
  | UTC => mkDT (of_us u) (Some UTC)
  | ZoneObj name | ZoneAt name _ =>
      let o := tz_utc_offset name u in
      mkDT (of_us (u + o * us_per_second)) (Some (ZoneAt name o))
  end.

(** The UTC instant a datetime denotes, in microseconds since the epoch; a
    naive datetime is read on the clock of the host. *)
Definition instant (dt : datetime) : Z :=
  match dt_tz dt with
  | Some tz => to_us (dt_naive dt) - utcoffset tz * us_per_second
  | None => to_us (dt_naive dt) - system_offset (to_us (dt_naive dt)) * us_per_second
  end.

(** [dt.astimezone(tz)]: the datetime itself when it already carries the
    very object [tz]. *)
Definition astimezone (dt : datetime) (tz : tzinfo) : datetime :=
  match dt_tz dt with
  | Some mine => if tz_is mine tz then dt else fromutc tz (instant dt)
  | None => fromutc tz (instant dt)
  end.

(** [dt + timedelta]. *)
Definition dt_add (dt : datetime) (td : Z) : datetime :=
  mkDT (naive_add (dt_naive dt) td) (dt_tz dt).

(** [a >= b] on aware datetimes. *)
Definition dt_ge (a b : datetime) : bool := instant b <=? instant a.

(** [dt.isoformat()]. *)
Definition isoformat (dt : datetime) : string :=
  (naive_isoformat "T" (dt_naive dt)
   ++ match dt_tz dt with
      | Some tz => offset_isoformat (utcoffset tz)
      | None => EmptyString
      end)%string.

(** [str(dt)] is [dt.isoformat(sep=' ')]. *)
Definition str_datetime (dt : datetime) : string :=
  (naive_isoformat " " (dt_naive dt)
   ++ match dt_tz dt with
      | Some tz => offset_isoformat (utcoffset tz)
      | None => EmptyString
      end)%string.

Definition map_tzid (src_tzid : option string) : string :=
  match src_tzid with
  | None => TIMEZONE
  | Some s =>
      if truthy s then
        match Dict.get WINDOWS_TZMAP s with
        | Some z => z
        | None => s
        end
      else TIMEZONE
  end.

(** The [target_tz] argument of [normalize_dt]: omitted, a name, or a zone
    object. *)
Inductive target_arg :=
| TDefault
| TName (s : string)
| TObj (tz : tzinfo).

(** The [target] of [normalize_dt]: lines 100 to 104. *)
Definition resolve_target (target_tz : target_arg) : result tzinfo :=
  match target_tz with
  | TName s => timezone (map_tzid (Some s))
  | TObj tz => Ok tz
  | TDefault => Ok TZ
  end.

Definition normalize_dt (value : dtvalue) (src_tzid : option string)
    (target_tz : target_arg) : result (bool * datetime) :=
  target <- resolve_target target_tz ;;
  match value with
  | VDate d => Ok (true, mkDT (midnight d) (Some target))
  | VDateTime dt =>
      dt' <- match dt_tz dt with
             | None =>
                 src <- match src_tzid with
                        | Some s =>
                            if truthy s then timezone (map_tzid src_tzid)
                            else Ok target
                        | None => Ok target
                        end ;;
                 Ok (localize src (dt_naive dt))
             | Some _ => Ok dt
             end ;;
      Ok (false, astimezone dt' target)
  end.

(** An aware datetime within the ranges of its type: the fields, and an
    offset strictly between minus and plus one day. *)
Definition valid_aware (dt : datetime) : Prop :=
  valid_naive (dt_naive dt)
  /\ exists tz, dt_tz dt = Some tz /\ -86400 < utcoffset tz < 86400.

(** [.date()] of a datetime. *)
Definition dt_date (dt : datetime) : date := n_date (dt_naive dt).

End Normalizer.

(* ------------------------------------------------------------------ *)
(** ** Recurrence encoder *)

(** A value of a recurrence-rule key. *)
Inductive rvalue :=
| RInt (z : Z)
| RStr (s : string)
| RDate (d : date)
| RDateTime (dt : datetime).

Definition rrule_dict := dict (list rvalue).

(** The elements of an EXDATE or RDATE list after normalisation. *)
Definition dtvalue_date (v : dtvalue) : date :=
  match v with
  | VDate d => d
  | VDateTime dt => n_date (dt_naive dt)
  end.

Definition dtvalue_naive (v : dtvalue) : naive :=
  match v with
  | VDate d => midnight d
  | VDateTime dt => dt_naive dt
  end.

Definition _format_recur_line (kind : string) (is_all_day : bool)
    (dt_list_dt : list dtvalue) (tzid : string) : string :=
  if is_all_day then
    let vals := join "," (map (fun dt => date_compact (dtvalue_date dt)) dt_list_dt) in
    (kind ++ ";VALUE=DATE:" ++ vals)%string
  else
    let vals := join "," (map (fun dt => naive_compact (dtvalue_naive dt)) dt_list_dt) in
    (kind ++ ";TZID=" ++ tzid ++ ":" ++ vals)%string.

Section Encoder.
Context `{Zones} `{Settings}.

(** [strftime("%Y%m%dT%H%M%SZ")]. *)
Definition compact_utc (n : naive) : string := (naive_compact n ++ "Z")%string.


Definition str_rvalue (v : rvalue) : string :=
  match v with
  | RInt z => str_int z
  | RStr s => s
  | RDate d => date_isoformat d
  | RDateTime dt => str_datetime dt
  end.

Definition _fmt_until_value (val : rvalue) : string :=
  match val with
  | RDateTime dt => compact_utc (dt_naive (astimezone dt UTC))
  | RDate d => compact_utc (midnight d)
  | _ => str_rvalue val
  end.

(** [int(v)]: a date or a datetime is no argument of [int]. *)
Definition int_rvalue (v : rvalue) : result Z :=
  match v with
  | RInt z => Ok z
  | RStr s => int_str s
  | RDate _ | RDateTime _ => Raise TypeError
  end.

Definition fmt_value (key : string) (v : rvalue) : result string :=
  if String.eqb key "UNTIL" then Ok (_fmt_until_value v)
  else if String.eqb key "COUNT" then (n <- int_rvalue v ;; Ok (str_int n))
  else Ok (upper (str_rvalue v)).

Fixpoint fmt_values (key : string) (vals : list rvalue) : result (list string) :=
  match vals with
  | [] => Ok []
  | v :: rest =>
      s <- fmt_value key v ;;
      out <- fmt_values key rest ;;
      Ok (s :: out)
  end.

Definition fmt_part (rrule_dict : rrule_dict) (k : string) : result string :=
  let key := upper k in
  let vals := match Dict.get rrule_dict k with Some vs => vs | None => [] end in
  out_vals <- fmt_values key vals ;;
  Ok (key ++ "=" ++ join "," out_vals)%string.

Fixpoint fmt_parts (rrule_dict : rrule_dict) (ks : list string) : result (list string) :=
  match ks with
  | [] => Ok []
  | k :: rest =>
      p <- fmt_part rrule_dict k ;;
      ps <- fmt_parts rrule_dict rest ;;
      Ok (p :: ps)
  end.

Definition build_rrule_string (rrule_dict : rrule_dict) : result string :=
  parts <- fmt_parts rrule_dict (sorted_by upper (Dict.keys rrule_dict)) ;;
  Ok (join ";" parts).

End Encoder.

(* ------------------------------------------------------------------ *)
(** ** json.dumps *)

Module Json.

Definition hex_digit (n : nat) : ascii :=
  if (n <? 10)%nat then ascii_of_nat (48 + n) else ascii_of_nat (87 + n).

(** The escape of one character under [ensure_ascii]. *)
Definition esc_char (c : ascii) : string :=
  let n := nat_of_ascii c in
  if (n =? 34)%nat then String backslash (chr dquote)
  else if (n =? 92)%nat then String backslash (chr backslash)
  else if (n =? 10)%nat then String backslash "n"
  else if (n =? 13)%nat then String backslash "r"
  else if (n =? 9)%nat then String backslash "t"
  else if (n =? 8)%nat then String backslash "b"
  else if (n =? 12)%nat then String backslash "f"
  else if ((32 <=? n) && (n <=? 126))%nat then chr c
  else String backslash
         (String "u" (String "0" (String "0"
            (String (hex_digit (n / 16)) (chr (hex_digit (n mod 16))))))).

Fixpoint escape (s : string) : string :=
  match s with
  | EmptyString => EmptyString
  | String c t => (esc_char c ++ escape t)%string
  end.

Definition dumps_str (s : string) : string :=
  String dquote (escape s ++ chr dquote).

Definition dumps_list (l : list string) : string :=
  ("[" ++ join ", " (map dumps_str l) ++ "]")%string.

Definition dumps_member (m : string * string) : string :=
  (dumps_str (fst m) ++ ": " ++ snd m)%string.

(** An object whose member values are already serialised. *)
Definition dumps_obj (members : list (string * string)) : string :=
  ("{" ++ join ", " (map dumps_member members) ++ "}")%string.

(** [json.dumps(obj, sort_keys=True)]. *)
Definition dumps_obj_sorted (members : list (string * string)) : string :=
  dumps_obj (sorted_by fst members).

Definition hex_value (c : ascii) : nat :=
  let n := nat_of_ascii c in
  if (n <? 58)%nat then (n - 48)%nat else (n - 87)%nat.

(** The inverse of [esc_char] on the head of a text; nothing at a closing
    quote. *)
Definition unesc_head (s : string) : option (ascii * string) :=
  match s with
  | EmptyString => None
  | String c r =>
      if Ascii.eqb c dquote then None
      else if Ascii.eqb c backslash then
        match r with
        | String e r' =>
            if Ascii.eqb e "n" then Some (ascii_of_nat 10, r')
            else if Ascii.eqb e "r" then Some (ascii_of_nat 13, r')
            else if Ascii.eqb e "t" then Some (ascii_of_nat 9, r')
            else if Ascii.eqb e "b" then Some (ascii_of_nat 8, r')
            else if Ascii.eqb e "f" then Some (ascii_of_nat 12, r')
            else if Ascii.eqb e "u" then
              match r' with
              | String _ (String _ (String h (String l r''))) =>
                  Some (ascii_of_nat (16 * hex_value h + hex_value l), r'')
              | _ => None
              end
            else Some (e, r')
        | EmptyString => None
        end
      else Some (c, r)
  end.

End Json.
Import Json.

(* ------------------------------------------------------------------ *)
(** ** Feed events and canonical resources *)

(** A date or date-time property with its [TZID] parameter. *)
Record prop := mkProp { p_dt : dtvalue; p_tzid : option string }.

(** An EXDATE or RDATE property: its components and its [TZID] parameter. *)
Record dates_prop := mkDates { dts : list dtvalue; d_tzid : option string }.

Record vevent := mkEvent {
  UID : option string;
  RECURRENCE_ID : option prop;
  SUMMARY : option string;
  DESCRIPTION : option string;
  LOCATION : option string;
  DTSTART : option prop;
  DTEND : option prop;
  DURATION : option Z;
  RRULE : option rrule_dict;
  EXDATE : list dates_prop;
  RDATE : list dates_prop
}.

(** The [start] and [end] of a resource. *)
Inductive when :=
| WDate (date : string)
| WDateTime (dateTime : string) (timeZone : string).

Definition is_date_form (w : when) : bool :=
  match w with WDate _ => true | WDateTime _ _ => false end.

Record resource := mkResource {
  r_summary : string;
  r_description : string;
  r_location : string;
  r_start : when;
  r_end : when;
  r_recurrence : option (list string);
  r_src : string;
  r_outlook_uid : string;
  r_fp : string
}.

Definition dumps_when (w : when) : string :=
  match w with
  | WDate d => dumps_obj [("date", dumps_str d)]%string
  | WDateTime t z =>
      dumps_obj [("dateTime", dumps_str t); ("timeZone", dumps_str z)]%string
  end.

(** [x or empty] on an optional text. *)
Definition or_empty (x : option string) : string :=
  match x with Some s => s | None => EmptyString end.

Section Fingerprint.
Context `{Hashlib}.

Definition fingerprint_payload (summary description loc start_str end_str : string)
    (rrule : option string) (exdates rdates : list string) : string :=
  dumps_obj_sorted
    [ ("s", dumps_str summary);
      ("d", dumps_str description);
      ("l", dumps_str loc);
      ("st", dumps_str start_str);
      ("et", dumps_str end_str);
      ("rr", dumps_str (or_empty rrule));
      ("ex", dumps_list exdates);
      ("rd", dumps_list rdates) ]%string.

Definition event_fingerprint (summary description loc start_str end_str : string)
    (rrule : option string) (exdates rdates : list string) : string :=
  md5 (fingerprint_payload summary description loc start_str end_str
         rrule exdates rdates).

(** The fingerprinted content of a canonical resource. *)
Record fp_fields := mkFields {
  f_summary : string;
  f_description : string;
  f_location : string;
  f_start : when;
  f_end : when;
  f_rrule : option string;
  f_exdates : list string;
  f_rdates : list string
}.

(** Identical in all the fingerprinted fields; an absent rule text counts as
    the empty text. *)
Definition same_fields (a b : fp_fields) : Prop :=
  f_summary a = f_summary b
  /\ f_description a = f_description b
  /\ f_location a = f_location b
  /\ f_start a = f_start b
  /\ f_end a = f_end b
  /\ or_empty (f_rrule a) = or_empty (f_rrule b)
  /\ f_exdates a = f_exdates b
  /\ f_rdates a = f_rdates b.

Definition payload_of (c : fp_fields) : string :=
  fingerprint_payload (f_summary c) (f_description c) (f_location c)
    (dumps_when (f_start c)) (dumps_when (f_end c))
    (f_rrule c) (f_exdates c) (f_rdates c).

Definition fingerprint_of (c : fp_fields) : string :=
  event_fingerprint (f_summary c) (f_description c) (f_location c)
    (dumps_when (f_start c)) (dumps_when (f_end c))
    (f_rrule c) (f_exdates c) (f_rdates c).

End Fingerprint.

(** The shape of a hexdigest: 32 hexadecimal characters. *)
Definition hex_chars : list ascii :=
  list_ascii_of_string "0123456789abcdef".

Definition is_hex (c : ascii) : bool := existsb (Ascii.eqb c) hex_chars.

Definition is_hexdigest (s : string) : bool :=
  Nat.eqb (String.length s) 32 && forallb is_hex (list_ascii_of_string s).

(** All the texts of a given length over the hexadecimal characters. *)
Fixpoint hex_words (n : nat) : list string :=
  match n with
  | O => [EmptyString]
  | S n' => flat_map (fun c => map (String c) (hex_words n')) hex_chars
  end.

(** A summary of [k] letters, and the content that only carries it. *)
Fixpoint letters (k : nat) : string :=
  match k with
  | O => EmptyString
  | S k' => String "a" (letters k')
  end.

Definition only_summary (s : string) : fp_fields :=
  mkFields s EmptyString EmptyString (WDate EmptyString) (WDate EmptyString) None [] [].

Section Canonicalizer.
Context `{Zones} `{Settings} `{Hashlib}.

(** The inner loops over the components of the EXDATE and RDATE entries. *)
Fixpoint normalize_comps (allday_start : bool) (tzid : option string)
    (event_tz : tzinfo) (comps : list dtvalue) : result (list dtvalue) :=
  match comps with
  | [] => Ok []
  | comp :: rest =>
      '(_, dt_local) <- normalize_dt comp tzid (TObj event_tz) ;;
      out <- normalize_comps allday_start tzid event_tz rest ;;
      Ok ((if allday_start then VDate (dt_date dt_local) else VDateTime dt_local) :: out)
  end.

Fixpoint normalize_dates (allday_start : bool) (event_tz : tzinfo)
    (entries : list dates_prop) : result (list dtvalue) :=
  match entries with
  | [] => Ok []
  | ex :: rest =>
      first <- normalize_comps allday_start (d_tzid ex) event_tz (dts ex) ;;
      more <- normalize_dates allday_start event_tz rest ;;
      Ok (first ++ more)
  end.

Definition fp_text (v : dtvalue) : string :=
  match v with
  | VDate d => date_isoformat d
  | VDateTime dt => isoformat dt
  end.

Definition render_when (allday : bool) (dt_local : datetime) (event_tzid : string) : when :=
  if allday then WDate (date_isoformat (dt_date dt_local))
  else WDateTime (isoformat dt_local) event_tzid.

Definition nonempty {A} (l : list A) : bool :=
  match l with [] => false | _ => true end.

(** [str(vevent.get("UID"))]. *)
Definition base_uid (vevent : vevent) : string :=
  match UID vevent with Some s => s | None => "None"%string end.

(** The identity of an event: lines 191 to 198. *)
Definition event_uid (vevent : vevent) : result string :=
  let base_uid := base_uid vevent in
  match RECURRENCE_ID vevent with
  | Some recur_id_prop =>
      let rid_tzid := p_tzid recur_id_prop in
      '(_, rid_dt) <- normalize_dt (p_dt recur_id_prop) rid_tzid TDefault ;;
      Ok (base_uid ++ "::" ++ isoformat rid_dt)%string
  | None => Ok base_uid
  end.

(** The end of an event: lines 216 to 227. *)
Definition event_end (vevent : vevent) (event_tz : tzinfo)
    (allday_start : bool) (start_dt_local : datetime) : result (bool * datetime) :=
  match DTEND vevent with
  | Some dtend_prop =>
      normalize_dt (p_dt dtend_prop) (p_tzid dtend_prop) (TObj event_tz)
  | None =>
      match DURATION vevent with
      | Some duration =>
          Ok (allday_start, astimezone (dt_add start_dt_local duration) event_tz)
      | None =>
          Ok (allday_start,
              astimezone
                (dt_add start_dt_local
                   (if allday_start then timedelta_days 1 else timedelta_hours 1))
                event_tz)
      end
  end.

Definition to_gcal_resource (vevent : vevent) : result (string * resource) :=
  uid <- event_uid vevent ;;
  let summary := or_empty (SUMMARY vevent) in
  let description := or_empty (DESCRIPTION vevent) in
  let location := or_empty (LOCATION vevent) in
  let dtstart_tzid_raw :=
    match DTSTART vevent with Some p => p_tzid p | None => None end in
  let event_tzid := map_tzid dtstart_tzid_raw in
  event_tz <- timezone event_tzid ;;
  dtstart_prop <- match DTSTART vevent with
                  | Some p => Ok p
                  | None => Raise AttributeError
                  end ;;
  '(allday_start, start_dt_local) <-
     normalize_dt (p_dt dtstart_prop) dtstart_tzid_raw (TObj event_tz) ;;
  '(allday_end, end_dt_local) <-
     event_end vevent event_tz allday_start start_dt_local ;;
  let start := render_when allday_start start_dt_local event_tzid in
  let end_ := render_when allday_end end_dt_local event_tzid in
  g_rrule <- match RRULE vevent with
             | Some rrule =>
                 if nonempty rrule then (s <- build_rrule_string rrule ;; Ok (Some s))
                 else Ok None
             | None => Ok None
             end ;;
  exdates_dt <- normalize_dates allday_start event_tz (EXDATE vevent) ;;
  rdates_dt <- normalize_dates allday_start event_tz (RDATE vevent) ;;
  let recurrence_lines :=
    match RECURRENCE_ID vevent with
    | Some _ => []
    | None =>
        (match g_rrule with
         | Some g => if truthy g then [("RRULE:" ++ g)%string] else []
         | None => []
         end)
        ++ (if nonempty exdates_dt
            then [_format_recur_line "EXDATE" (is_date_form start) exdates_dt event_tzid]
            else [])
        ++ (if nonempty rdates_dt
            then [_format_recur_line "RDATE" (is_date_form start) rdates_dt event_tzid]
            else [])
    end in
  let fp :=
    event_fingerprint summary description location
      (dumps_when start) (dumps_when end_) g_rrule
      (map fp_text exdates_dt) (map fp_text rdates_dt) in
  Ok (uid,
      mkResource summary description location start end_
        (if nonempty recurrence_lines then Some recurrence_lines else None)
        "outlook_ics" uid fp).

End Canonicalizer.

(** The rule text of a record: lines 240 to 243. *)
Definition rule_text `{Zones} (vevent : vevent) : result (option string) :=
  match RRULE vevent with
  | Some rrule =>
      if nonempty rrule then (s <- build_rrule_string rrule ;; Ok (Some s))
      else Ok None
  | None => Ok None
  end.

(** The eight values that lines 290 to 300 hand to [event_fingerprint]: the
    summary, description, location, start and end of the resource, and the
    rule text and the two date lists computed from the record (lines 240 to
    266), whether or not the resource carries recurrence lines.  The all-day
    flag of the start is read off the form of the start of the resource. *)
Definition fingerprinted `{Zones} `{Settings} (vevent : vevent) (res : resource)
    : result fp_fields :=
  let dtstart_tzid_raw :=
    match DTSTART vevent with Some p => p_tzid p | None => None end in
  event_tz <- timezone (map_tzid dtstart_tzid_raw) ;;
  g_rrule <- rule_text vevent ;;
  exdates_dt <- normalize_dates (is_date_form (r_start res)) event_tz (EXDATE vevent) ;;
  rdates_dt <- normalize_dates (is_date_form (r_start res)) event_tz (RDATE vevent) ;;
  Ok (mkFields (r_summary res) (r_description res) (r_location res)
        (r_start res) (r_end res) g_rrule
        (map fp_text exdates_dt) (map fp_text rdates_dt)).

(* ------------------------------------------------------------------ *)
(** ** Reconciler *)

(** The persisted sync state, [.state.json]. *)
Record sync_state := mkState {
  etag : option string;
  last_modified : option string;
  hash : option string
}.

(** The answer of the feed server. *)
Record response := mkResponse {
  status_code : Z;
  header_ETag : option string;
  header_Last_Modified : option string;
  content : string
}.

(** An event of the target calendar, with its private annotation. *)
Record store_event := mkStoreEvent {
  ev_id : string;
  ev_outlook_uid : option string;
  ev_fp : option string
}.

(** The effects of a run on the state file and on the store.  A listing call
    is recorded with the number of the page it asks for (the first call, with
    no page token, asks for page 0); a mutation is recorded with the identity
    whose loop iteration issues it. *)
Inductive effect :=
| SaveState (st : sync_state)
| ListEvents (page : nat)
| Insert (uid : string) (body : resource)
| Patch (uid : string) (eventId : string) (body : resource)
| Delete (uid : string) (eventId : string).

(** What a run observes of the outside: the parser, the clock, the pages
    that the store returns to the listing (the managed events that end after
    the time of the call, [timeMin]), and which store calls raise. *)
Class World := {
  from_ical : string -> result (list vevent);
  clock : Z;
  list_pages : list (list store_event);
  store_fails : effect -> bool
}.

(** A computation with a trace of effects. *)
Definition prog (A : Type) : Type := list effect * result A.

Definition pure {A} (a : A) : prog A := ([], Ok a).

Definition lift {A} (r : result A) : prog A := ([], r).

Definition pbind {A B} (c : prog A) (k : A -> prog B) : prog B :=
  match c with
  | (t, Ok a) => let '(t', r) := k a in (t ++ t', r)
  | (t, Raise e) => (t, Raise e)
  end.

Notation "x <~ c ;; k" := (pbind c (fun x => k))
  (at level 61, c at next level, right associativity).
Notation "c ;> k" := (pbind c (fun _ => k))
  (at level 61, right associativity).

Definition trace {A} (c : prog A) : list effect := fst c.
Definition outcome {A} (c : prog A) : result A := snd c.

Definition effect_uid (e : effect) : option string :=
  match e with
  | Insert uid _ | Patch uid _ _ | Delete uid _ => Some uid
  | SaveState _ | ListEvents _ => None
  end.


Definition is_mutation (e : effect) : bool :=
  match e with Insert _ _ | Patch _ _ _ | Delete _ _ => true | _ => false end.

(** The calls of a trace issued for one identity. *)
Definition calls_for (uid : string) (t : list effect) : list effect :=
  filter (fun e => match effect_uid e with
                   | Some u => String.eqb u uid
                   | None => false
                   end) t.

Definition opt_is (o : option string) (s : string) : bool :=
  match o with Some x => String.eqb x s | None => false end.

Definition opt_truthy (o : option string) : option string :=
  match o with Some s => if truthy s then Some s else None | None => None end.

(** The conditional headers of the feed request: [If-None-Match] and
    [If-Modified-Since]. *)
Definition request_headers (state : sync_state) : option string * option string :=
  (opt_truthy (etag state), opt_truthy (last_modified state)).

Definition record_item (items : dict store_event) (ev : store_event) : dict store_event :=
  match ev_outlook_uid ev with
  | Some uid => if truthy uid then Dict.set items uid ev else items
  | None => items
  end.

(** The dictionary built from the pages of the listing. *)
Definition gcal_list_existing (pages : list (list store_event)) : dict store_event :=
  fold_left (fun items page => fold_left record_item page items) pages [].

Section Reconciler.
Context `{Zones} `{Settings} `{Hashlib} `{World}.

Definition call (e : effect) : prog unit :=
  ([e], if store_fails e then Raise StoreError else Ok tt).

Definition is_master (comp : vevent) : bool :=
  match RRULE comp, RECURRENCE_ID comp with
  | Some _, None => true
  | _, _ => false
  end.

(** The [keep] flag of the filter loop. *)
Definition keep (cutoff : datetime) (comp : vevent) (start_dt : datetime) : bool :=
  if is_master comp then true else dt_ge start_dt cutoff.

(** One iteration of the filter loop: lines 345 to 367. *)
Definition snapshot_step (cutoff : datetime) (src : dict resource) (comp : vevent)
    : result (dict resource) :=
  match DTSTART comp with
  | None => Ok src
  | Some dtstart =>
      '(_, start_dt) <- normalize_dt (p_dt dtstart) (p_tzid dtstart) TDefault ;;
      if keep cutoff comp start_dt then
        '(uid, resource) <- to_gcal_resource comp ;;
        Ok (Dict.set src uid resource)
      else Ok src
  end.

Fixpoint snapshot (cutoff : datetime) (src : dict resource) (comps : list vevent)
    : result (dict resource) :=
  match comps with
  | [] => Ok src
  | comp :: rest =>
      src' <- snapshot_step cutoff src comp ;;
      snapshot cutoff src' rest
  end.

Definition fp_changed (ex : store_event) (res : resource) : bool :=
  negb (opt_is (ev_fp ex) (r_fp res)).

(** One iteration of the upsert loop. *)
Definition upsert_one (existing : dict store_event) (item : string * resource) : prog unit :=
  let '(uid, res) := item in
  match Dict.get existing uid with
  | Some ex =>
      if fp_changed ex res then call (Patch uid (ev_id ex) res) else pure tt
  | None => call (Insert uid res)
  end.

Fixpoint upsert (existing : dict store_event) (items : list (string * resource)) : prog unit :=
  match items with
  | [] => pure tt
  | item :: rest => upsert_one existing item ;> upsert existing rest
  end.

(** One iteration of the delete loop. *)
Definition delete_one (src : dict resource) (item : string * store_event) : prog unit :=
  let '(uid, ex) := item in
  if Dict.mem src uid then pure tt else call (Delete uid (ev_id ex)).

Fixpoint delete_disappeared (src : dict resource) (items : list (string * store_event))
    : prog unit :=
  match items with
  | [] => pure tt
  | item :: rest => delete_one src item ;> delete_disappeared src rest
  end.

(** Steps 5 and 6: lines 372 to 399. *)
Definition reconcile (src : dict resource) (existing : dict store_event) : prog unit :=
  upsert existing src ;> delete_disappeared src existing.

Definition cutoff_of (now : datetime) : datetime :=
  dt_add now (- timedelta_days PAST_DAYS).

(** The calls of the paged listing, lines 142 to 162: one call, then one
    more for each further page the store announces. *)
Fixpoint list_calls (page : nat) (more : nat) : prog unit :=
  match more with
  | O => call (ListEvents page)
  | S m => call (ListEvents page) ;> list_calls (S page) m
  end.

(** Step 4: the listing, page by page, and its dictionary. *)
Definition list_existing : prog (dict store_event) :=
  list_calls 0 (pred (List.length list_pages)) ;>
  pure (gcal_list_existing list_pages).

(** Steps 3 to 6 on the events of the parsed feed: lines 341 to 399. *)
Definition sync (comps : list vevent) : prog unit :=
  let now := fromutc TZ clock in
  let cutoff := cutoff_of now in
  src <~ lift (snapshot cutoff [] comps) ;;
  existing <~ list_existing ;;
  reconcile src existing.

(** [r.raise_for_status()] raises on the statuses 400 to 599. *)
Definition is_error_status (code : Z) : bool := (400 <=? code) && (code <? 600).

Definition new_state_of (r : response) : sync_state :=
  mkState (header_ETag r) (header_Last_Modified r) (Some (md5 (content r))).

(** [main], from the loaded state and the answer of the feed server.
    Building the client ([gcal_service]) is no call on the calendar and is
    not recorded. *)
Definition main (state : sync_state) (r : response) : prog unit :=
  if status_code r =? 304 then pure tt
  else if is_error_status (status_code r) then lift (Raise HTTPError)
  else
    let curr_hash := md5 (content r) in
    if opt_is (hash state) curr_hash then pure tt
    else
      let new_state := new_state_of r in
      ([SaveState new_state], Ok tt) ;>
      comps <~ lift (from_ical (content r)) ;;
      sync comps.

End Reconciler.

(* ------------------------------------------------------------------ *)
(** ** Sample data

    A fragment of the zone database for winter dates (standard time, with
    the local-mean-time offset of each zone object), the default settings,
    a stand-in digest, and a few feed events. *)

Module Sample.

Definition known_zones : list string :=
  [ "Europe/Paris"; "Europe/Berlin"; "Europe/Warsaw"; "Europe/Helsinki" ]%string.

Definition standard_offset (name : string) : Z :=
  if String.eqb name "Europe/Helsinki" then 7200 else 3600.

Definition lmt_offset (name : string) : Z :=
  if String.eqb name "Europe/Paris" then 540
  else if String.eqb name "Europe/Berlin" then 3180
  else if String.eqb name "Europe/Warsaw" then 5040
  else 6000.

Definition winter_zones : Zones := {|
  tz_exists := fun n => existsb (String.eqb n) known_zones;
  tz_default_offset := lmt_offset;
  tz_local_offset := fun n _ => standard_offset n;
  tz_utc_offset := fun n _ => standard_offset n;
  system_offset := fun _ => 0
|}.

Definition default_settings : Settings := {|
  TIMEZONE := "Europe/Paris";
  PAST_DAYS := 30
|}.

(** A digest for examples: the length of the data. *)
Definition length_digest : Hashlib := {|
  md5 := fun data => str_int (Z.of_nat (String.length data))
|}.

Definition at_ (y m d hh mm : Z) : naive := mkNaive (mkDate y m d) hh mm 0 0.

Definition no_event : vevent :=
  mkEvent None None None None None None None None None [] [].

Definition with_start (uid : string) (p : prop) : vevent :=
  mkEvent (Some uid) None None None None (Some p) None None None [] [].

(** "Standup" at 2025-01-10T09:00 Europe/Paris, no end and no duration. *)
Definition standup : vevent :=
  mkEvent (Some "standup-1"%string) None (Some "Standup"%string) None None
    (Some (mkProp (VDateTime (mkDT (at_ 2025 1 10 9 0) None)) (Some "Europe/Paris"%string)))
    None None None [] [].

(** An all-day event on 2025-01-10, no end and no duration. *)
Definition holiday : vevent :=
  mkEvent (Some "holiday-1"%string) None (Some "Holiday"%string) None None
    (Some (mkProp (VDate (mkDate 2025 1 10)) None))
    None None None [] [].

(** A timed start with a date-only end. *)
Definition mixed_end : vevent :=
  mkEvent (Some "mixed-1"%string) None (Some "Workshop"%string) None None
    (Some (mkProp (VDateTime (mkDT (at_ 2025 1 10 9 0) None)) (Some "Europe/Paris"%string)))
    (Some (mkProp (VDate (mkDate 2025 1 11)) None))
    None None [] [].

(** An override of a series kept in the Helsinki zone. *)
Definition helsinki_override : vevent :=
  mkEvent (Some "series-1"%string)
    (Some (mkProp (VDateTime (mkDT (at_ 2025 1 10 9 0) None)) (Some "FLE Standard Time"%string)))
    (Some "Moved"%string) None None
    (Some (mkProp (VDateTime (mkDT (at_ 2025 1 10 11 0) None)) (Some "FLE Standard Time"%string)))
    None None None [] [].

(** Another override of the same series, one week later. *)
Definition helsinki_override_next : vevent :=
  mkEvent (Some "series-1"%string)
    (Some (mkProp (VDateTime (mkDT (at_ 2025 1 17 9 0) None)) (Some "FLE Standard Time"%string)))
    (Some "Moved"%string) None None
    (Some (mkProp (VDateTime (mkDT (at_ 2025 1 17 11 0) None)) (Some "FLE Standard Time"%string)))
    None None None [] [].

(** A weekly series that began in 2019. *)
Definition old_series : vevent :=
  mkEvent (Some "series-2"%string) None (Some "Review"%string) None None
    (Some (mkProp (VDateTime (mkDT (at_ 2019 3 4 14 0) None)) (Some "Europe/Paris"%string)))
    None None (Some [("FREQ", [RStr "WEEKLY"])]%string) [] [].

(** A single meeting of 2019, and one of February 2025. *)
Definition old_meeting : vevent :=
  with_start "old-1" (mkProp (VDateTime (mkDT (at_ 2019 3 4 14 0) None)) (Some "Europe/Paris"%string)).

Definition next_meeting : vevent :=
  with_start "next-1" (mkProp (VDateTime (mkDT (at_ 2025 2 3 14 0) None)) (Some "Europe/Paris"%string)).

(** A record without a start. *)
Definition no_start : vevent :=
  mkEvent (Some "broken-1"%string) None (Some "Broken"%string) None None None
    None None None [] [].

(** The store: the standup with a stale fingerprint, and an event of the
    record without a start. *)
Definition feed_events : list vevent :=
  [standup; no_start; holiday; old_meeting; next_meeting].

(** The fingerprint of the holiday under the sample digest. *)
Definition holiday_fp : string :=
  Eval vm_compute in
    match @to_gcal_resource winter_zones default_settings length_digest holiday with
    | Ok (_, res) => r_fp res
    | Raise _ => EmptyString
    end.

(** The store: the standup with a stale fingerprint, the holiday as it is,
    and an event of the record without a start. *)
Definition store_page : list store_event :=
  [ mkStoreEvent "g-1" (Some "standup-1"%string) (Some "stale"%string);
    mkStoreEvent "g-2" (Some "broken-1"%string) (Some "0"%string);
    mkStoreEvent "g-3" (Some "holiday-1"%string) (Some holiday_fp) ]%string.

(** A run on 2025-01-15 at noon UTC, with a store that accepts every call. *)
Definition quiet_world : World := {|
  from_ical := fun _ => Ok feed_events;
  clock := to_us (at_ 2025 1 15 12 0);
  list_pages := [store_page];
  store_fails := fun _ => false
|}.

(** The kept snapshot and the listing of that run. *)
Definition kept_snapshot : dict resource :=
  Eval vm_compute in
    match @snapshot winter_zones default_settings length_digest
            (@cutoff_of default_settings
               (@fromutc winter_zones (@TZ default_settings) (to_us (at_ 2025 1 15 12 0))))
            [] feed_events with
    | Ok src => src
    | Raise _ => []
    end.

Definition listing : dict store_event :=
  Eval vm_compute in gcal_list_existing [store_page].

Definition feed_200 : response :=
  mkResponse 200 (Some "v2"%string) None "BEGIN:VCALENDAR".

Definition state_v1 : sync_state :=
  mkState (Some "v1"%string) None (Some "0"%string).


End Sample.

(* ------------------------------------------------------------------ *)
(** ** Vocabulary of the further properties *)

(** An event of the store that carries the private annotation of a
    resource, under an id given by the store. *)
Definition stored (ids : string -> string) (item : string * resource) : store_event :=
  mkStoreEvent (ids (fst item))
    (Some (r_outlook_uid (snd item))) (Some (r_fp (snd item))).

(** The record with another UID property. *)
Definition with_uid (ev : vevent) (u : option string) : vevent :=
  mkEvent u (RECURRENCE_ID ev) (SUMMARY ev) (DESCRIPTION ev) (LOCATION ev)
    (DTSTART ev) (DTEND ev) (DURATION ev) (RRULE ev) (EXDATE ev) (RDATE ev).

(** What the compact form of a value shows: its date and its wall clock to
    the second. *)
Definition clock_fields (v : dtvalue) : date * (Z * Z * Z) :=
  let n := dtvalue_naive v in (n_date n, (hour n, minute n, second n)).

Definition valid_value (v : dtvalue) : Prop := valid_naive (dtvalue_naive v).

Definition comma_free (s : string) : Prop := ~ In ","%char (list_ascii_of_string s).


Definition is_date_value (v : dtvalue) : bool :=
  match v with VDate _ => true | VDateTime _ => false end.


(** The discipline of a computation over the store: every recorded call went
    through except, when the computation raised, the last one, which is the
    call that raised the store error. *)
Definition fail_fast `{World} {A} (c : prog A) : Prop :=
  match outcome c with
  | Ok _ => Forall (fun x => store_fails x = false) (trace c)
  | Raise e =>
      e = StoreError
      /\ exists pre x,
           trace c = pre ++ [x]
           /\ store_fails x = true
           /\ Forall (fun y => store_fails y = false) pre
  end.

Definition is_delete (e : effect) : bool :=
  match e with Delete _ _ => true | _ => false end.

(** The events of all the pages of a listing. *)
Definition listed_events (pages : list (list store_event)) : list store_event :=
  List.concat pages.

Module Fixture.

(** A record whose UID is the empty text. *)
Definition nameless : vevent :=
  Sample.with_start EmptyString
    (mkProp (VDateTime (mkDT (Sample.at_ 2025 2 3 14 0) None)) (Some "Europe/Paris"%string)).

(** A store that already holds an event annotated with the empty identity. *)
Definition nameless_world : World := {|
  from_ical := fun _ => Ok [nameless];
  clock := to_us (Sample.at_ 2025 1 15 12 0);
  list_pages := [[mkStoreEvent "g-9" (Some EmptyString) (Some "231"%string)]];
  store_fails := fun _ => false
|}.

(** A daily series with two all-day exception dates, in one entry. *)
Definition daily_with_exdates : vevent :=
  mkEvent (Some "daily-1"%string) None (Some "Daily"%string) None None
    (Some (mkProp (VDate (mkDate 2025 9 1)) None))
    None None (Some [("FREQ", [RStr "DAILY"])]%string)
    [mkDates [VDate (mkDate 2025 9 4); VDate (mkDate 2025 9 18)] None] [].

(** A meeting given by its start and a duration of ninety minutes. *)
Definition ninety_minutes : vevent :=
  mkEvent (Some "dur-1"%string) None (Some "Review"%string) None None
    (Some (mkProp (VDateTime (mkDT (Sample.at_ 2025 1 10 9 0) None)) (Some "Europe/Paris"%string)))
    None (Some (90 * 60 * us_per_second)) None [] [].

(** A meeting whose end is given in UTC. *)
Definition utc_end : vevent :=
  mkEvent (Some "utc-1"%string) None (Some "Call"%string) None None
    (Some (mkProp (VDateTime (mkDT (Sample.at_ 2025 1 10 9 0) None)) (Some "Europe/Paris"%string)))
    (Some (mkProp (VDateTime (mkDT (Sample.at_ 2025 1 10 9 30) (Some UTC))) None))
    None None [] [].

(** A start in a zone that neither the alias table nor the database knows. *)
Definition unknown_zone : vevent :=
  Sample.with_start "lost-1"
    (mkProp (VDateTime (mkDT (Sample.at_ 2025 2 3 14 0) None)) (Some "Mars/Olympus"%string)).

(** An override that still carries a rule and an exception date. *)
(** The override of [override_with_rule] without its rule and its exception
    date. *)
Definition override_plain : vevent :=
  mkEvent (Some "series-1"%string)
    (Some (mkProp (VDateTime (mkDT (Sample.at_ 2025 1 10 9 0) None)) (Some "Europe/Paris"%string)))
    (Some "Moved"%string) None None
    (Some (mkProp (VDateTime (mkDT (Sample.at_ 2025 1 10 11 0) None)) (Some "Europe/Paris"%string)))
    None None None [] [].

Definition override_with_rule : vevent :=
  mkEvent (Some "series-1"%string)
    (Some (mkProp (VDateTime (mkDT (Sample.at_ 2025 1 10 9 0) None)) (Some "Europe/Paris"%string)))
    (Some "Moved"%string) None None
    (Some (mkProp (VDateTime (mkDT (Sample.at_ 2025 1 10 11 0) None)) (Some "Europe/Paris"%string)))
    None None (Some [("FREQ", [RStr "WEEKLY"])]%string)
    [mkDates [VDateTime (mkDT (Sample.at_ 2025 1 17 9 0) None)] (Some "Europe/Paris"%string)] [].

(** A store whose second call raises. *)
Definition failing_world : World := {|
  from_ical := fun _ => Ok Sample.feed_events;
  clock := to_us (Sample.at_ 2025 1 15 12 0);
  list_pages := [Sample.store_page];
  store_fails := fun e => match e with Insert _ _ => true | _ => false end
|}.

(** A feed with a record that cannot be canonicalised. *)
Definition broken_world : World := {|
  from_ical := fun _ => Ok [Sample.standup; unknown_zone];
  clock := to_us (Sample.at_ 2025 1 15 12 0);
  list_pages := [Sample.store_page];
  store_fails := fun _ => false
|}.

(** The ids of a store that names its events after their identity. *)
(** A store that answers in two pages and whose second listing call
    raises. *)
Definition second_page_fails : World := {|
  from_ical := fun _ => Ok Sample.feed_events;
  clock := to_us (Sample.at_ 2025 1 15 12 0);
  list_pages := [ Sample.store_page; [] ];
  store_fails := fun e => match e with ListEvents 1 => true | _ => false end
|}.

Definition named_ids (uid : string) : string := ("g:" ++ uid)%string.

(** An all-day event on 2025-03-21. *)
Definition spring_day : vevent :=
  mkEvent (Some "spring-1"%string) None (Some "Spring"%string) None None
    (Some (mkProp (VDate (mkDate 2025 3 21)) None))
    None None None [] [].

(** A feed whose events all lie after 2025-01-15, its kept snapshot on that
    day, and a page of the store that lists the two events as the run left
    them. *)
Definition upcoming_feed : list vevent := [Sample.next_meeting; spring_day].

Definition upcoming_snapshot : dict resource :=
  Eval vm_compute in
    match @snapshot Sample.winter_zones Sample.default_settings Sample.length_digest
            (@cutoff_of Sample.default_settings
               (@fromutc Sample.winter_zones (@TZ Sample.default_settings)
                  (to_us (Sample.at_ 2025 1 15 12 0))))
            [] upcoming_feed with
    | Ok src => src
    | Raise _ => []
    end.

Definition upcoming_page : list store_event :=
  Eval vm_compute in map (stored named_ids) upcoming_snapshot.

(** A rule, and the same rule with its keys in another order. *)
Definition rule_a : rrule_dict :=
  [ ("FREQ", [RStr "WEEKLY"]); ("BYDAY", [RStr "MO"; RStr "WE"]);
    ("INTERVAL", [RInt 2]) ]%string.

Definition rule_b : rrule_dict :=
  [ ("INTERVAL", [RInt 2]); ("FREQ", [RStr "WEEKLY"]);
    ("BYDAY", [RStr "MO"; RStr "WE"]) ]%string.

(** A rule with a lower-case COUNT key. *)
Definition rule_count : rrule_dict :=
  [ ("freq", [RStr "daily"]); ("count", [RInt 10]) ]%string.





(** An all-day series of the year 999 with one exception date. *)
Definition early_exdate : vevent :=
  mkEvent (Some "early-1"%string) None (Some "Early"%string) None None
    (Some (mkProp (VDate (mkDate 999 9 1)) None))
    None None (Some [("FREQ", [RStr "DAILY"])]%string)
    [mkDates [VDate (mkDate 999 9 4)] None] [].

End Fixture.

(* ================================================================== *)
(** * Properties *)

Ltac Zify.zify_post_hook ::= Z.div_mod_to_equations.

(* ------------------------------------------------------------------ *)
(** ** Text *)

Lemma sapp_assoc (a b c : string) : ((a ++ b) ++ c = a ++ (b ++ c))%string.
Proof. induction a as [|x a IH]; cbn; [reflexivity | now rewrite IH]. Qed.

Lemma sapp_nil_r (a : string) : (a ++ EmptyString = a)%string.
Proof. induction a as [|x a IH]; cbn; [reflexivity | now rewrite IH]. Qed.

Lemma sapp_length (a b : string) :
  String.length (a ++ b) = (String.length a + String.length b)%nat.
Proof. induction a as [|x a IH]; cbn; [reflexivity | now rewrite IH]. Qed.

(** Two concatenations with heads of one length agree part by part. *)
Lemma sapp_inj (a a' b b' : string) :
  String.length a = String.length a' ->
  (a ++ b = a' ++ b')%string -> a = a' /\ b = b'.
Proof.
  revert a'. induction a as [|x a IH]; intros [|x' a'] Hlen Heq;
    cbn in *; try discriminate.
  - now split.
  - injection Heq as -> Heq. injection Hlen as Hlen.
    destruct (IH a' Hlen Heq) as [-> ->]. now split.
Qed.

Lemma string_cons_inj (c c' : ascii) (a b : string) :
  String c a = String c' b -> c = c' /\ a = b.
Proof. intros E. injection E as -> ->. now split. Qed.

Lemma sapp_inj_l (a b b' : string) : (a ++ b = a ++ b')%string -> b = b'.
Proof. intros Heq. now apply sapp_inj in Heq. Qed.

Lemma pad_length (w : nat) (n : Z) : String.length (pad w n) = w.
Proof.
  revert n. induction w as [|w IH]; intros n; cbn; [reflexivity |].
  rewrite sapp_length, IH. cbn. lia.
Qed.

Lemma digit_inj (n m : Z) :
  0 <= n < 10 -> 0 <= m < 10 -> digit n = digit m -> n = m.
Proof.
  intros Hn Hm E. unfold digit in E.
  apply (f_equal nat_of_ascii) in E.
  rewrite !nat_ascii_embedding in E by lia. lia.
Qed.

Lemma digit_is_digit (n : Z) : 0 <= n < 10 -> is_digit (digit n) = true.
Proof.
  intros Hn. unfold is_digit, digit.
  rewrite nat_ascii_embedding by lia.
  apply andb_true_iff. split; apply Nat.leb_le; lia.
Qed.

Lemma pad_inj (w : nat) (n m : Z) :
  0 <= n < 10 ^ Z.of_nat w -> 0 <= m < 10 ^ Z.of_nat w ->
  pad w n = pad w m -> n = m.
Proof.
  revert n m. induction w as [|w IH]; intros n m Hn Hm E.
  - cbn in Hn, Hm. lia.
  - rewrite Nat2Z.inj_succ, Z.pow_succ_r in Hn, Hm by lia.
    cbn [pad] in E.
    apply sapp_inj in E; [| now rewrite !pad_length].
    destruct E as [E1 E2]. injection E2 as E2.
    apply IH in E1; [| lia | lia].
    apply digit_inj in E2; lia.
Qed.

(** A padded field is recovered from the head of a longer text. *)
Lemma pad_app_inj (w : nat) (n m : Z) (r r' : string) :
  0 <= n < 10 ^ Z.of_nat w -> 0 <= m < 10 ^ Z.of_nat w ->
  (pad w n ++ r = pad w m ++ r')%string -> n = m /\ r = r'.
Proof.
  intros Hn Hm E.
  apply sapp_inj in E; [| now rewrite !pad_length].
  destruct E as [E ->]. split; [| reflexivity].
  eapply pad_inj; eassumption.
Qed.





(* ------------------------------------------------------------------ *)
(** ** Calendar arithmetic *)

Example days_epoch : days_from_civil (mkDate 1970 1 1) = 0.
Proof. reflexivity. Qed.

Example civil_2025 :
  civil_from_days (days_from_civil (mkDate 2025 12 31)) = mkDate 2025 12 31.
Proof. reflexivity. Qed.

Example add_hour :
  naive_add (Sample.at_ 2025 1 10 9 0) (timedelta_hours 1) = Sample.at_ 2025 1 10 10 0.
Proof. vm_compute. reflexivity. Qed.

Example add_day_over_year :
  naive_add (midnight (mkDate 2024 12 31)) (timedelta_days 1) = midnight (mkDate 2025 1 1).
Proof. vm_compute. reflexivity. Qed.

Example iso_example :
  naive_isoformat "T" (Sample.at_ 2025 1 10 9 0) = "2025-01-10T09:00:00"%string.
Proof. vm_compute. reflexivity. Qed.

Lemma year_of_era_bounds (doe : Z) :
  0 <= doe <= 146096 ->
  let yoe := (doe - doe / 1460 + doe / 36524 - doe / 146096) / 365 in
  0 <= yoe <= 399 /\ 0 <= doe - (365 * yoe + yoe / 4 - yoe / 100) <= 365.
Proof. intros Hd yoe. subst yoe. lia. Qed.

Lemma month_day_bounds (doy : Z) :
  0 <= doy <= 365 ->
  let mp := (5 * doy + 2) / 153 in
  0 <= mp <= 11 /\ 1 <= doy - (153 * mp + 2) / 5 + 1 <= 31.
Proof. intros Hd mp. subst mp. lia. Qed.

Lemma month_day_roundtrip (doy : Z) :
  0 <= doy <= 365 ->
  let mp := (5 * doy + 2) / 153 in
  let d := doy - (153 * mp + 2) / 5 + 1 in
  let m := if mp <? 10 then mp + 3 else mp - 9 in
  (m + 9) mod 12 = mp /\ (153 * mp + 2) / 5 + d - 1 = doy /\ 1 <= m <= 12.
Proof.
  intros Hd mp d m. subst mp d m.
  destruct (Z.ltb_spec ((5 * doy + 2) / 153) 10); lia.
Qed.

Lemma era_roundtrip (era yoe m : Z) :
  0 <= yoe <= 399 ->
  let y := yoe + era * 400 in
  let y1 := if m <=? 2 then y + 1 else y in
  let y2 := if m <=? 2 then y1 - 1 else y1 in
  y2 / 400 = era /\ y2 - (y2 / 400) * 400 = yoe.
Proof.
  intros Hy y y1 y2. subst y y1 y2.
  destruct (Z.leb_spec m 2); lia.
Qed.

(** The day number of the date of a day number is that day number. *)
Lemma days_from_civil_from_days (z : Z) :
  days_from_civil (civil_from_days z) = z.
Proof.
  unfold civil_from_days, days_from_civil. cbn [year month day].
  set (z' := z + 719468).
  set (era := z' / 146097).
  set (doe := z' - era * 146097).
  assert (Hdoe : 0 <= doe <= 146096) by (subst doe era; lia).
  set (yoe := (doe - doe / 1460 + doe / 36524 - doe / 146096) / 365).
  destruct (year_of_era_bounds doe Hdoe) as [Hyoe Hdoy]. fold yoe in Hyoe, Hdoy.
  set (doy := doe - (365 * yoe + yoe / 4 - yoe / 100)) in *.
  destruct (month_day_roundtrip doy Hdoy) as (Hmp & Hd & Hm).
  set (mp := (5 * doy + 2) / 153) in *.
  set (m := if mp <? 10 then mp + 3 else mp - 9) in *.
  destruct (era_roundtrip era yoe m Hyoe) as [He Hy]. cbv zeta in He, Hy.
  set (y2 := if m <=? 2
             then (if m <=? 2 then yoe + era * 400 + 1 else yoe + era * 400) - 1
             else if m <=? 2 then yoe + era * 400 + 1 else yoe + era * 400) in *.
  rewrite Hmp, He.
  rewrite He in Hy. rewrite Hy, Hd.
  subst doy doe z'. lia.
Qed.

(** The fields of the date of a day number are those of a calendar date. *)
Lemma civil_from_days_fields (z : Z) :
  1 <= month (civil_from_days z) <= 12 /\ 1 <= day (civil_from_days z) <= 31.
Proof.
  unfold civil_from_days. cbn [month day].
  set (z' := z + 719468).
  set (era := z' / 146097).
  set (doe := z' - era * 146097).
  assert (Hdoe : 0 <= doe <= 146096) by (subst doe era; lia).
  destruct (year_of_era_bounds doe Hdoe) as [Hyoe Hdoy]. cbv zeta in Hyoe, Hdoy.
  set (yoe := (doe - doe / 1460 + doe / 36524 - doe / 146096) / 365) in *.
  set (doy := doe - (365 * yoe + yoe / 4 - yoe / 100)) in *.
  destruct (month_day_roundtrip doy Hdoy) as (_ & _ & Hm).
  destruct (month_day_bounds doy Hdoy) as [_ Hd].
  split; assumption.
Qed.

Lemma to_us_of_us (t : Z) : to_us (of_us t) = t.
Proof.
  unfold to_us, of_us. cbn [n_date hour minute second microsecond].
  rewrite days_from_civil_from_days.
  unfold us_per_day, us_per_second. lia.
Qed.

Lemma of_us_fields (t : Z) :
  0 <= hour (of_us t) < 24 /\ 0 <= minute (of_us t) < 60
  /\ 0 <= second (of_us t) < 60 /\ 0 <= microsecond (of_us t) < 1000000.
Proof.
  unfold of_us. cbn [hour minute second microsecond].
  unfold us_per_day, us_per_second. lia.
Qed.

Lemma to_us_naive_add (n : naive) (td : Z) : to_us (naive_add n td) = to_us n + td.
Proof. unfold naive_add. apply to_us_of_us. Qed.

(** Adding whole days to a midnight lands on the midnight that many days on. *)
Lemma naive_add_days_midnight (d : date) (k : Z) :
  naive_add (midnight d) (timedelta_days k) = midnight (civil_from_days (days_from_civil d + k)).
Proof.
  unfold naive_add, of_us, to_us, midnight, timedelta_days.
  cbn [n_date hour minute second microsecond].
  unfold us_per_day, us_per_second.
  replace ((days_from_civil d * 86400 + 0 * 3600 + 0 * 60 + 0) * 1000000 + 0
           + k * (86400 * 1000000))
    with ((days_from_civil d + k) * (86400 * 1000000)) by lia.
  rewrite Z.div_mul by lia. rewrite Z.mod_mul by lia.
  reflexivity.
Qed.

(* ------------------------------------------------------------------ *)
(** ** Result plumbing *)

Lemma rbind_ok {A B} (c : result A) (k : A -> result B) (b : B) :
  rbind c k = Ok b -> exists a, c = Ok a /\ k a = Ok b.
Proof. destruct c as [a|e]; cbn; intros Hk; [eauto | discriminate]. Qed.

(** Peel the first binding of a successful computation. *)
Ltac peel H :=
  let a := fresh "a" in
  let Ha := fresh "Ha" in
  apply rbind_ok in H; destruct H as (a & Ha & H).

(* ------------------------------------------------------------------ *)
(** ** Instants *)

Section InstantFacts.
Context `{Zones} `{Settings}.

Lemma tz_is_refl (tz : tzinfo) : tz_is tz tz = true.
Proof.
  destruct tz; cbn; rewrite ?String.eqb_refl, ?Z.eqb_refl; reflexivity.
Qed.


Lemma instant_fromutc (tz : tzinfo) (u : Z) : instant (fromutc tz u) = u.
Proof.
  destruct tz; unfold fromutc, instant; cbn [dt_tz dt_naive utcoffset];
    rewrite to_us_of_us; lia.
Qed.

(** Conversion to another zone keeps the instant. *)
Lemma instant_astimezone (dt : datetime) (tz : tzinfo) :
  instant (astimezone dt tz) = instant dt.
Proof.
  unfold astimezone. destruct (dt_tz dt) as [mine|] eqn:E.
  - destruct (tz_is mine tz); [reflexivity | apply instant_fromutc].
  - apply instant_fromutc.
Qed.

(** Adding a timedelta to an aware datetime moves its instant by as much. *)
Lemma instant_dt_add (dt : datetime) (td : Z) :
  dt_tz dt <> None -> instant (dt_add dt td) = instant dt + td.
Proof.
  intros Haware. unfold instant, dt_add. cbn [dt_tz dt_naive].
  destruct (dt_tz dt) as [tz|]; [| congruence].
  rewrite to_us_naive_add. lia.
Qed.

Lemma fromutc_aware (tz : tzinfo) (u : Z) : dt_tz (fromutc tz u) <> None.
Proof. destruct tz; cbn; discriminate. Qed.

Lemma localize_aware (tz : tzinfo) (n : naive) : dt_tz (localize tz n) <> None.
Proof. destruct tz; cbn; discriminate. Qed.

Lemma astimezone_aware (dt : datetime) (tz : tzinfo) : dt_tz (astimezone dt tz) <> None.
Proof.
  unfold astimezone. destruct (dt_tz dt) as [mine|] eqn:E.
  - destruct (tz_is mine tz); [rewrite E; discriminate | apply fromutc_aware].
  - apply fromutc_aware.
Qed.

(** The normaliser returns an aware datetime. *)
Lemma normalize_dt_aware (value : dtvalue) (src_tzid : option string)
    (target_tz : target_arg) (allday : bool) (dt : datetime) :
  normalize_dt value src_tzid target_tz = Ok (allday, dt) -> dt_tz dt <> None.
Proof.
  unfold normalize_dt. intros Hn. peel Hn.
  destruct value as [d|v].
  - injection Hn as _ <-. cbn. discriminate.
  - peel Hn. injection Hn as _ <-. apply astimezone_aware.
Qed.

(** The all-day flag of the normaliser is the kind of the value. *)
Lemma normalize_dt_flag (value : dtvalue) (src_tzid : option string)
    (target_tz : target_arg) (allday : bool) (dt : datetime) :
  normalize_dt value src_tzid target_tz = Ok (allday, dt) ->
  allday = match value with VDate _ => true | VDateTime _ => false end.
Proof.
  unfold normalize_dt. intros Hn. peel Hn.
  destruct value as [d|v].
  - now injection Hn as <- _.
  - peel Hn. now injection Hn as <- _.
Qed.

End InstantFacts.

(* ------------------------------------------------------------------ *)
(** ** DateTime normaliser *)

(** C9.  For the date 2025-01-10 the normaliser answers all-day with the
    wall clock 00:00:00 of that date in the target (the default zone
    Europe/Paris, or the zone named, through the alias table), whatever the
    source timezone parameter, and raises when the named target is unknown.
    But line 108 attaches the zone object with [replace], so the value
    carries the offset of that object and not the offset of the zone on that
    date: it reads [2025-01-10T00:00:00+00:09] for Europe/Paris and
    [2025-01-10T00:00:00+01:40] for Europe/Helsinki.  The naive midnight of
    the same date, which line 115 places with [localize], reads
    [2025-01-10T00:00:00+01:00] for Europe/Paris; the date-only result
    denotes an instant 51 minutes after it. *)
Theorem date_only_midnight_offset :
  let d := mkDate 2025 1 10 in
  let normalize := @normalize_dt Sample.winter_zones Sample.default_settings in
  let iso := @isoformat Sample.winter_zones in
  let inst := @instant Sample.winter_zones in
  exists all_day timed helsinki : datetime,
    normalize (VDate d) None TDefault = Ok (true, all_day)
    /\ normalize (VDate d) (Some "Europe/Helsinki"%string) TDefault = Ok (true, all_day)
    /\ normalize (VDate d) None (TName "Europe/Paris") = Ok (true, all_day)
    /\ dt_naive all_day = midnight d
    /\ iso all_day = "2025-01-10T00:00:00+00:09"%string
    /\ normalize (VDateTime (mkDT (midnight d) None)) None TDefault = Ok (false, timed)
    /\ dt_naive timed = midnight d
    /\ iso timed = "2025-01-10T00:00:00+01:00"%string
    /\ inst all_day - inst timed = 51 * 60 * us_per_second
    /\ normalize (VDate d) None (TName "Europe/Helsinki") = Ok (true, helsinki)
    /\ normalize (VDate d) None (TName "FLE Standard Time") = Ok (true, helsinki)
    /\ dt_naive helsinki = midnight d
    /\ iso helsinki = "2025-01-10T00:00:00+01:40"%string
    /\ normalize (VDate d) None (TName "Mars/Olympus") = Raise UnknownTimeZoneError.
Proof.
  cbv zeta.
  exists (mkDT (midnight (mkDate 2025 1 10)) (Some (ZoneObj "Europe/Paris"))).
  exists (mkDT (midnight (mkDate 2025 1 10)) (Some (ZoneAt "Europe/Paris" 3600))).
  exists (mkDT (midnight (mkDate 2025 1 10)) (Some (ZoneObj "Europe/Helsinki"))).
  repeat split; vm_compute; reflexivity.
Qed.

(* ------------------------------------------------------------------ *)
(** ** Event canonicaliser: start and end *)

Section EndFacts.
Context `{Zones} `{Settings} `{Hashlib}.

(** What a successful canonicalisation computed on the way. *)
Lemma to_gcal_resource_ok (ev : vevent) (uid : string) (res : resource) :
  to_gcal_resource ev = Ok (uid, res) ->
  exists p event_tz allday_start start_dt allday_end end_dt,
    DTSTART ev = Some p
    /\ event_uid ev = Ok uid
    /\ timezone (map_tzid (p_tzid p)) = Ok event_tz
    /\ normalize_dt (p_dt p) (p_tzid p) (TObj event_tz) = Ok (allday_start, start_dt)
    /\ event_end ev event_tz allday_start start_dt = Ok (allday_end, end_dt)
    /\ r_start res = render_when allday_start start_dt (map_tzid (p_tzid p))
    /\ r_end res = render_when allday_end end_dt (map_tzid (p_tzid p))
    /\ r_outlook_uid res = uid.
Proof.
  unfold to_gcal_resource. intros Hr.
  peel Hr. rename a into u.
  peel Hr. rename a into event_tz.
  destruct (DTSTART ev) as [p|] eqn:Hstart; [| cbn in Hr; discriminate].
  cbn [rbind] in Hr.
  peel Hr. destruct a as [allday_start start_dt].
  peel Hr. destruct a as [allday_end end_dt].
  peel Hr. peel Hr. peel Hr.
  injection Hr as <- <-.
  exists p, event_tz, allday_start, start_dt, allday_end, end_dt.
  cbn [r_start r_end r_outlook_uid]. repeat split; assumption.
Qed.

(** The fingerprint stored in a resource is that of its own summary,
    description, location, start and end, and of the rule text and date lists
    computed from the event. *)
Lemma to_gcal_resource_fingerprint (ev : vevent) (uid : string) (res : resource) :
  to_gcal_resource ev = Ok (uid, res) ->
  exists g_rrule exdates rdates,
    r_fp res
    = fingerprint_of
        (mkFields (r_summary res) (r_description res) (r_location res)
           (r_start res) (r_end res) g_rrule exdates rdates).
Proof.
  unfold to_gcal_resource. intros Hr.
  peel Hr. peel Hr.
  destruct (DTSTART ev) as [p|]; [| cbn in Hr; discriminate].
  cbn [rbind] in Hr.
  peel Hr. destruct a1 as [allday_start start_dt].
  peel Hr. destruct a1 as [allday_end end_dt].
  peel Hr. rename a1 into g. peel Hr. rename a1 into ex. peel Hr. rename a1 into rd.
  injection Hr as _ <-.
  exists g, (map fp_text ex), (map fp_text rd). reflexivity.
Qed.

(** Without an explicit end the all-day flag of the end is that of the start. *)
Lemma event_end_mirrors_start (ev : vevent) (event_tz : tzinfo)
    (allday_start allday_end : bool) (start_dt end_dt : datetime) :
  DTEND ev = None ->
  event_end ev event_tz allday_start start_dt = Ok (allday_end, end_dt) ->
  allday_end = allday_start.
Proof.
  unfold event_end. intros ->.
  destruct (DURATION ev); intros E; now injection E as <- _.
Qed.

Lemma render_when_form (allday : bool) (dt : datetime) (tzid : string) :
  is_date_form (render_when allday dt tzid) = allday.
Proof. destruct allday; reflexivity. Qed.

(** When the end is derived or defaulted, start and end agree on all-day. *)
Lemma all_day_flags_without_end (ev : vevent) (uid : string) (res : resource) :
  DTEND ev = None ->
  to_gcal_resource ev = Ok (uid, res) ->
  is_date_form (r_start res) = is_date_form (r_end res).
Proof.
  intros Hend Hr.
  apply to_gcal_resource_ok in Hr.
  destruct Hr as (p & tz & a1 & s & a2 & e & _ & _ & _ & _ & He & -> & -> & _).
  rewrite !render_when_form.
  symmetry. eapply event_end_mirrors_start; eassumption.
Qed.

End EndFacts.

(** C1.  A timed start with a date-only explicit end canonicalises to a
    resource whose start is of the dateTime form and whose end is of the date
    form: on the explicit-end path the all-day flag of the end is that of the
    end value, not that of the start. *)
Theorem all_day_flags_mixed_end :
  exists uid res,
    @to_gcal_resource Sample.winter_zones Sample.default_settings
       Sample.length_digest Sample.mixed_end = Ok (uid, res)
    /\ r_start res = WDateTime "2025-01-10T09:00:00+01:00" "Europe/Paris"
    /\ r_end res = WDate "2025-01-11"
    /\ is_date_form (r_start res) <> is_date_form (r_end res).
Proof.
  eexists. eexists. split; [vm_compute; reflexivity |].
  cbn. repeat split. discriminate.
Qed.

(** C8.  For an event with neither an end nor a duration that canonicalises,
    the end is the normalised start plus one day when the start is a date and
    plus one hour when it is a date-time: an all-day end is the date form of
    the next calendar day; a timed end is the dateTime form, in the zone of
    the event, of the instant one hour after the start. *)
Theorem default_end_span `{Zones} `{Settings} `{Hashlib}
    (ev : vevent) (uid : string) (res : resource) :
  DTEND ev = None ->
  DURATION ev = None ->
  to_gcal_resource ev = Ok (uid, res) ->
  exists p event_tz allday start_dt,
    DTSTART ev = Some p
    /\ timezone (map_tzid (p_tzid p)) = Ok event_tz
    /\ normalize_dt (p_dt p) (p_tzid p) (TObj event_tz) = Ok (allday, start_dt)
    /\ r_end res
       = render_when allday
           (astimezone
              (dt_add start_dt (if allday then timedelta_days 1 else timedelta_hours 1))
              event_tz)
           (map_tzid (p_tzid p))
    /\ match p_dt p with
       | VDate d =>
           allday = true
           /\ r_end res
              = WDate (date_isoformat (civil_from_days (days_from_civil d + 1)))
       | VDateTime _ =>
           allday = false
           /\ exists end_dt,
                r_end res = WDateTime (isoformat end_dt) (map_tzid (p_tzid p))
                /\ instant end_dt = instant start_dt + timedelta_hours 1
                /\ end_dt = astimezone (dt_add start_dt (timedelta_hours 1)) event_tz
       end.
Proof.
  intros Hend Hdur Hr.
  apply to_gcal_resource_ok in Hr.
  destruct Hr as (p & tz & a1 & s & a2 & e & Hp & _ & Htz & Hn & He & _ & Hre & _).
  exists p, tz, a1, s. repeat (split; [assumption |]).
  unfold event_end in He. rewrite Hend, Hdur in He.
  injection He as <- <-.
  split; [exact Hre |].
  pose proof (normalize_dt_flag _ _ _ _ _ Hn) as Hflag.
  pose proof (normalize_dt_aware _ _ _ _ _ Hn) as Haware.
  destruct (p_dt p) as [d|v] eqn:Hv.
  - split; [exact Hflag |]. subst a1.
    unfold normalize_dt in Hn. cbn in Hn. injection Hn as <-.
    rewrite Hre. unfold render_when, astimezone, dt_add. cbn [dt_tz dt_naive].
    rewrite tz_is_refl. unfold dt_date. cbn [dt_naive].
    change 86400000000 with (timedelta_days 1). rewrite naive_add_days_midnight. reflexivity.
  - split; [exact Hflag |]. subst a1.
    eexists. split; [exact Hre |]. split; [| reflexivity].
    rewrite instant_astimezone. apply instant_dt_add. exact Haware.
Qed.

(** The "Standup" scenario: 09:00 in Paris with no end ends at 10:00 in Paris. *)
Lemma default_end_span_witness :
  exists uid res,
    @to_gcal_resource Sample.winter_zones Sample.default_settings
       Sample.length_digest Sample.standup = Ok (uid, res)
    /\ r_start res = WDateTime "2025-01-10T09:00:00+01:00" "Europe/Paris"
    /\ r_end res = WDateTime "2025-01-10T10:00:00+01:00" "Europe/Paris"
    /\ exists p event_tz allday start_dt,
         DTSTART Sample.standup = Some p
         /\ @timezone Sample.winter_zones (@map_tzid Sample.default_settings (p_tzid p))
            = Ok event_tz
         /\ @normalize_dt Sample.winter_zones Sample.default_settings
              (p_dt p) (p_tzid p) (TObj event_tz) = Ok (allday, start_dt)
         /\ allday = false
         /\ exists end_dt,
              r_end res = WDateTime (@isoformat Sample.winter_zones end_dt) "Europe/Paris"
              /\ @instant Sample.winter_zones end_dt
                 = @instant Sample.winter_zones start_dt + timedelta_hours 1.
Proof.
  eexists. eexists.
  split; [vm_compute; reflexivity |].
  split; [reflexivity |]. split; [reflexivity |].
  destruct (@default_end_span Sample.winter_zones Sample.default_settings
              Sample.length_digest Sample.standup _ _ eq_refl eq_refl eq_refl)
    as (p & tz & a & s & Hp & Htz & Hn & _ & Hcase).
  injection Hp as <-. cbn [p_dt p_tzid] in *.
  destruct Hcase as (Ha & e & He & Hi & _).
  exists (mkProp (VDateTime (mkDT (Sample.at_ 2025 1 10 9 0) None))
            (Some "Europe/Paris"%string)), tz, a, s.
  cbn [p_dt p_tzid].
  repeat (split; [assumption || reflexivity |]).
  exists e. split; [exact He | exact Hi].
Defined.

(* ------------------------------------------------------------------ *)
(** ** Identity of a recurrence override *)

(** The ISO text of the fields of a datetime determines the fields. *)
Lemma naive_isoformat_app_inj (n1 n2 : naive) (r1 r2 : string) :
  valid_naive n1 -> valid_naive n2 ->
  (forall u (t : string), r1 <> ("." ++ pad 6 u ++ t)%string) \/ microsecond n1 <> 0 ->
  (forall u (t : string), r2 <> ("." ++ pad 6 u ++ t)%string) \/ microsecond n2 <> 0 ->
  (naive_isoformat "T" n1 ++ r1 = naive_isoformat "T" n2 ++ r2)%string ->
  n1 = n2 /\ r1 = r2.
Proof.
  destruct n1 as [[y1 m1 d1] h1 mi1 s1 u1], n2 as [[y2 m2 d2] h2 mi2 s2 u2].
  unfold valid_naive, valid_date, naive_isoformat, date_isoformat.
  cbn [n_date year month day hour minute second microsecond].
  intros (Hd1 & Hh1 & Hmi1 & Hs1 & Hu1) (Hd2 & Hh2 & Hmi2 & Hs2 & Hu2) Hr1 Hr2 E.
  repeat rewrite sapp_assoc in E. cbn [append] in E.
  apply pad_app_inj in E; [| cbn; lia | cbn; lia]. destruct E as [-> E].
  apply string_cons_inj in E; destruct E as [_ E].
  apply pad_app_inj in E; [| cbn; lia | cbn; lia]. destruct E as [-> E].
  apply string_cons_inj in E; destruct E as [_ E].
  apply pad_app_inj in E; [| cbn; lia | cbn; lia]. destruct E as [-> E].
  apply string_cons_inj in E; destruct E as [_ E].
  apply pad_app_inj in E; [| cbn; lia | cbn; lia]. destruct E as [-> E].
  apply string_cons_inj in E; destruct E as [_ E].
  apply pad_app_inj in E; [| cbn; lia | cbn; lia]. destruct E as [-> E].
  apply string_cons_inj in E; destruct E as [_ E].
  apply pad_app_inj in E; [| cbn; lia | cbn; lia]. destruct E as [-> E].
  destruct (Z.eqb_spec u1 0) as [-> | Hn1], (Z.eqb_spec u2 0) as [-> | Hn2];
    cbn [append] in E.
  - now split.
  - exfalso. destruct Hr1 as [Hr1 | Hr1]; [| now apply Hr1].
    eapply Hr1. exact E.
  - exfalso. destruct Hr2 as [Hr2 | Hr2]; [| now apply Hr2].
    eapply Hr2. symmetry. exact E.
  - apply string_cons_inj in E; destruct E as [_ E].
    apply pad_app_inj in E; [| cbn; lia | cbn; lia]. destruct E as [-> ->].
    now split.
Qed.

Lemma offset_isoformat_head (off : Z) (u : Z) (t : string) :
  offset_isoformat off <> ("." ++ pad 6 u ++ t)%string.
Proof.
  unfold offset_isoformat. destruct (off <? 0); cbn; discriminate.
Qed.

(** The offset suffix determines the offset. *)
Lemma offset_isoformat_inj (o1 o2 : Z) :
  -86400 < o1 < 86400 -> -86400 < o2 < 86400 ->
  offset_isoformat o1 = offset_isoformat o2 -> o1 = o2.
Proof.
  unfold offset_isoformat. intros H1 H2 E.
  assert (Ha1 : 0 <= Z.abs o1 < 86400) by lia.
  assert (Ha2 : 0 <= Z.abs o2 < 86400) by lia.
  assert (Hsign : (o1 <? 0) = (o2 <? 0) /\ Z.abs o1 = Z.abs o2).
  { set (a1 := Z.abs o1) in *. set (a2 := Z.abs o2) in *.
    clearbody a1 a2.
    assert (Hrest : forall b1 b2 : bool,
               ((if b1 then "-" else "+") ++ pad 2 (a1 / 3600) ++ ":"
                  ++ pad 2 ((a1 / 60) mod 60)
                  ++ (if Z.eqb (a1 mod 60) 0 then EmptyString else ":" ++ pad 2 (a1 mod 60))
                = (if b2 then "-" else "+") ++ pad 2 (a2 / 3600) ++ ":"
                  ++ pad 2 ((a2 / 60) mod 60)
                  ++ (if Z.eqb (a2 mod 60) 0 then EmptyString else ":" ++ pad 2 (a2 mod 60)))%string ->
               b1 = b2 /\ a1 = a2).
    { intros b1 b2 E'.
      assert (Hb : b1 = b2) by (destruct b1, b2; cbn in E'; congruence).
      split; [exact Hb |]. subst b2.
      apply sapp_inj_l in E'.
      apply pad_app_inj in E'; [| cbn; lia | cbn; lia]. destruct E' as [Eh E'].
      cbn [append] in E'. apply string_cons_inj in E'; destruct E' as [_ E'].
      apply pad_app_inj in E'; [| cbn; lia | cbn; lia]. destruct E' as [Em E'].
      destruct (Z.eqb_spec (a1 mod 60) 0) as [Z1 | N1],
               (Z.eqb_spec (a2 mod 60) 0) as [Z2 | N2];
        cbn [append] in E'; try discriminate.
      - lia.
      - apply string_cons_inj in E'; destruct E' as [_ E'].
        apply pad_inj in E'; [| cbn; lia | cbn; lia]. lia. }
    apply Hrest. exact E. }
  destruct Hsign as [Hs Ha].
  destruct (Z.ltb_spec o1 0), (Z.ltb_spec o2 0); try discriminate; lia.
Qed.

Section IdentityFacts.
Context `{Zones} `{Settings} `{Hashlib}.

(** Two aware datetimes with one ISO text denote one instant. *)
Lemma isoformat_instant (a b : datetime) :
  valid_aware a -> valid_aware b ->
  isoformat a = isoformat b -> instant a = instant b.
Proof.
  intros (Hna & tza & Hta & Hoa) (Hnb & tzb & Htb & Hob) E.
  unfold isoformat, instant in *. rewrite Hta, Htb in *.
  apply naive_isoformat_app_inj in E; try assumption;
    try (left; intros u t; apply offset_isoformat_head).
  destruct E as [En Eo].
  apply offset_isoformat_inj in Eo; try assumption.
  rewrite En, Eo. reflexivity.
Qed.

Lemma event_uid_override (ev : vevent) (rid : prop) (uid : string) :
  RECURRENCE_ID ev = Some rid ->
  event_uid ev = Ok uid ->
  exists allday rid_dt,
    normalize_dt (p_dt rid) (p_tzid rid) TDefault = Ok (allday, rid_dt)
    /\ uid = (base_uid ev ++ "::" ++ isoformat rid_dt)%string.
Proof.
  unfold event_uid. intros -> Hu.
  peel Hu. destruct a as [allday rid_dt].
  injection Hu as <-. now exists allday, rid_dt.
Qed.

End IdentityFacts.

(** C3, as stated, fails: for an override of a series whose start is
    in the Helsinki zone, the identity carries the override instant expressed
    in the configured default zone (Paris), not in the zone of the event. *)
Lemma override_instant_zone_mismatch :
  exists uid res event_tz rid_in_event_zone,
    @to_gcal_resource Sample.winter_zones Sample.default_settings
       Sample.length_digest Sample.helsinki_override = Ok (uid, res)
    /\ @timezone Sample.winter_zones
         (@map_tzid Sample.default_settings (Some "FLE Standard Time"%string))
       = Ok event_tz
    /\ event_tz = ZoneObj "Europe/Helsinki"
    /\ @normalize_dt Sample.winter_zones Sample.default_settings
         (VDateTime (mkDT (Sample.at_ 2025 1 10 9 0) None))
         (Some "FLE Standard Time"%string) (TObj event_tz)
       = Ok (false, rid_in_event_zone)
    /\ uid = "series-1::2025-01-10T08:00:00+01:00"%string
    /\ ("series-1" ++ "::" ++ @isoformat Sample.winter_zones rid_in_event_zone)%string
       = "series-1::2025-01-10T09:00:00+02:00"%string
    /\ uid <> ("series-1" ++ "::" ++ @isoformat Sample.winter_zones rid_in_event_zone)%string.
Proof.
  eexists. eexists. eexists. eexists.
  split; [vm_compute; reflexivity |].
  split; [vm_compute; reflexivity |].
  split; [reflexivity |].
  split; [vm_compute; reflexivity |].
  split; [reflexivity |].
  split; [vm_compute; reflexivity |].
  vm_compute. discriminate.
Qed.

(** C3, amended.  The identity of an override that canonicalises is its base
    identifier, then [::], then the ISO text of the override instant
    normalised to the configured default zone, a naive instant being read in
    the zone of the override's own timezone parameter.  The same base
    identifier and override give the same identity, and two overrides of one
    series whose normalised instants differ get different identities. *)
Theorem override_identity `{Zones} `{Settings} `{Hashlib}
    (ev : vevent) (rid : prop) (uid : string) (res : resource) :
  RECURRENCE_ID ev = Some rid ->
  to_gcal_resource ev = Ok (uid, res) ->
  exists allday rid_dt,
    normalize_dt (p_dt rid) (p_tzid rid) TDefault = Ok (allday, rid_dt)
    /\ resolve_target TDefault = Ok TZ
    /\ uid = (base_uid ev ++ "::" ++ isoformat rid_dt)%string
    /\ r_outlook_uid res = uid
    /\ forall (ev' : vevent) (rid' : prop) (uid' : string) (res' : resource),
         base_uid ev' = base_uid ev ->
         RECURRENCE_ID ev' = Some rid' ->
         to_gcal_resource ev' = Ok (uid', res') ->
         (rid' = rid -> uid' = uid)
         /\ (forall allday' rid_dt',
               normalize_dt (p_dt rid') (p_tzid rid') TDefault = Ok (allday', rid_dt') ->
               valid_aware rid_dt -> valid_aware rid_dt' ->
               instant rid_dt' <> instant rid_dt -> uid' <> uid).
Proof.
  intros Hrid Hr.
  apply to_gcal_resource_ok in Hr.
  destruct Hr as (p & tz & a1 & s & a2 & e & _ & Hu & _ & _ & _ & _ & _ & Hres).
  destruct (event_uid_override ev rid uid Hrid Hu) as (allday & rid_dt & Hn & Huid).
  exists allday, rid_dt.
  split; [exact Hn |]. split; [reflexivity |]. split; [exact Huid |].
  split; [exact Hres |].
  intros ev' rid' uid' res' Hbase Hrid' Hr'.
  apply to_gcal_resource_ok in Hr'.
  destruct Hr' as (p' & tz' & a1' & s' & a2' & e' & _ & Hu' & _).
  destruct (event_uid_override ev' rid' uid' Hrid' Hu') as (allday' & rid_dt' & Hn' & Huid').
  split.
  - intros ->. rewrite Hn in Hn'. injection Hn' as <- <-.
    rewrite Huid, Huid', Hbase. reflexivity.
  - intros b d Hn'' Hv Hv' Hneq Heq.
    rewrite Hn' in Hn''. injection Hn'' as <- <-.
    rewrite Huid, Huid', Hbase in Heq.
    apply sapp_inj_l in Heq. cbn [append] in Heq.
    apply string_cons_inj in Heq. destruct Heq as [_ Heq].
    apply string_cons_inj in Heq. destruct Heq as [_ Heq].
    apply Hneq. apply isoformat_instant; assumption.
Qed.

Lemma override_identity_witness :
  exists uid res,
    @to_gcal_resource Sample.winter_zones Sample.default_settings
       Sample.length_digest Sample.helsinki_override = Ok (uid, res)
    /\ uid = "series-1::2025-01-10T08:00:00+01:00"%string
    /\ exists allday rid_dt,
         @normalize_dt Sample.winter_zones Sample.default_settings
           (VDateTime (mkDT (Sample.at_ 2025 1 10 9 0) None))
           (Some "FLE Standard Time"%string) TDefault = Ok (allday, rid_dt)
         /\ uid = ("series-1" ++ "::" ++ @isoformat Sample.winter_zones rid_dt)%string.
Proof.
  eexists. eexists.
  split; [vm_compute; reflexivity |].
  split; [reflexivity |].
  destruct (@override_identity Sample.winter_zones Sample.default_settings
              Sample.length_digest Sample.helsinki_override _ _ _ eq_refl eq_refl)
    as (allday & rid_dt & Hn & _ & Hu & _).
  exists allday, rid_dt. split; [exact Hn | exact Hu].
Defined.

(* ------------------------------------------------------------------ *)
(** ** Recurrence encoder *)

Lemma insert_by_in {A} (f : A -> string) (x y : A) (l : list A) :
  In y (insert_by f x l) <-> y = x \/ In y l.
Proof.
  induction l as [|z l IH]; cbn.
  - intuition congruence.
  - destruct (String.ltb (f x) (f z)); cbn; [intuition congruence |].
    rewrite IH. intuition congruence.
Qed.

Lemma fold_insert_in {A} (f : A -> string) (y : A) (l acc : list A) :
  In y (fold_left (fun acc x => insert_by f x acc) l acc) <-> In y l \/ In y acc.
Proof.
  revert acc. induction l as [|x l IH]; intros acc; cbn.
  - intuition.
  - rewrite IH, insert_by_in. intuition congruence.
Qed.

(** Sorting keeps the elements. *)
Lemma sorted_by_in {A} (f : A -> string) (y : A) (l : list A) :
  In y (sorted_by f l) <-> In y l.
Proof. unfold sorted_by. rewrite fold_insert_in. cbn. intuition. Qed.






Section EncoderFacts.
Context `{Zones} `{Settings}.




Lemma fmt_values_ok (key : string) (vals : list rvalue) :
  (key = "COUNT"%string -> forall v, In v vals -> exists z, v = RInt z) ->
  exists out, fmt_values key vals = Ok out.
Proof.
  intros Hcount. induction vals as [|v vals IH]; [now exists [] |].
  destruct IH as (out & Hout); [intros Hk v' Hv'; apply (Hcount Hk); now right |].
  cbn [fmt_values]. rewrite Hout. unfold fmt_value.
  destruct (String.eqb key "UNTIL"); [eexists; reflexivity |].
  destruct (String.eqb_spec key "COUNT") as [Hk | Hk]; [| eexists; reflexivity].
  destruct (Hcount Hk v (or_introl eq_refl)) as (z & ->).
  eexists. reflexivity.
Qed.

(** A rule encodes whenever the values of its COUNT key are integers. *)
Lemma build_rrule_string_total (rule : rrule_dict) :
  (forall k vals v,
     Dict.get rule k = Some vals -> upper k = "COUNT"%string -> In v vals ->
     exists z, v = RInt z) ->
  exists text, build_rrule_string rule = Ok text.
Proof.
  intros Hcount. unfold build_rrule_string.
  assert (Hparts : forall ks, exists ps, fmt_parts rule ks = Ok ps).
  { induction ks as [|k ks (ps & Hps)]; [now exists [] |].
    cbn [fmt_parts]. unfold fmt_part at 1.
    destruct (fmt_values_ok (upper k)
                (match Dict.get rule k with Some vs => vs | None => [] end))
      as (out & Hout).
    { intros Hk v Hv. destruct (Dict.get rule k) as [vs|] eqn:Hget; [| destruct Hv].
      eapply Hcount; eassumption. }
    rewrite Hout. cbn [rbind]. rewrite Hps. eexists. reflexivity. }
  destruct (Hparts (sorted_by upper (Dict.keys rule))) as (ps & Hps).
  rewrite Hps. eexists. reflexivity.
Qed.


End EncoderFacts.




(* ------------------------------------------------------------------ *)
(** ** Serialisation and fingerprint *)

Lemma unesc_head_esc_char (c : ascii) (r : string) :
  unesc_head (esc_char c ++ r) = Some (c, r).
Proof.
  destruct c as [b0 b1 b2 b3 b4 b5 b6 b7];
    destruct b0, b1, b2, b3, b4, b5, b6, b7; reflexivity.
Qed.

Lemma unesc_head_quote (r : string) : unesc_head (String dquote r) = None.
Proof. reflexivity. Qed.

(** An escaped text is recovered from the head of what follows it up to the
    closing quote. *)
Lemma escape_app_inj (s s' r r' : string) :
  (escape s ++ String dquote r = escape s' ++ String dquote r')%string ->
  s = s' /\ r = r'.
Proof.
  revert s'. induction s as [|c s IH]; intros [|c' s'] E; cbn [escape append] in E.
  - apply string_cons_inj in E. now destruct E as [_ ->].
  - apply (f_equal unesc_head) in E.
    rewrite sapp_assoc, unesc_head_esc_char, unesc_head_quote in E. discriminate.
  - apply (f_equal unesc_head) in E.
    rewrite sapp_assoc, unesc_head_esc_char, unesc_head_quote in E. discriminate.
  - apply (f_equal unesc_head) in E.
    rewrite !sapp_assoc, !unesc_head_esc_char in E.
    injection E as -> E.
    destruct (IH s' E) as [-> ->]. now split.
Qed.

Lemma dumps_str_app (s r : string) :
  (dumps_str s ++ r = String dquote (escape s ++ String dquote r))%string.
Proof. unfold dumps_str. cbn [append]. now rewrite sapp_assoc. Qed.

Lemma dumps_str_app_inj (s s' r r' : string) :
  (dumps_str s ++ r = dumps_str s' ++ r')%string -> s = s' /\ r = r'.
Proof.
  rewrite !dumps_str_app. intros E.
  apply string_cons_inj in E. destruct E as [_ E].
  now apply escape_app_inj.
Qed.

Lemma dumps_str_inj (s s' : string) : dumps_str s = dumps_str s' -> s = s'.
Proof.
  intros E. apply (f_equal (fun x => (x ++ EmptyString)%string)) in E.
  now apply dumps_str_app_inj in E.
Qed.

(** What follows the first element of a serialised list. *)
Lemma join_cons_app (x : string) (l : list string) (r : string) :
  (join ", " (x :: l) ++ r
   = x ++ match l with
          | [] => r
          | _ => String "," (String " " (join ", " l ++ r))
          end)%string.
Proof.
  unfold join. destruct l as [|y l]; cbn [String.concat]; [reflexivity |].
  rewrite !sapp_assoc. reflexivity.
Qed.

Lemma join_dumps_app_inj (l l' : list string) (r r' : string) :
  l <> [] -> l' <> [] ->
  (join ", " (map dumps_str l) ++ String "]" r
   = join ", " (map dumps_str l') ++ String "]" r')%string ->
  l = l' /\ r = r'.
Proof.
  revert l'. induction l as [|x l IH]; intros [|x' l'] Hl Hl' E; try congruence.
  cbn [map] in E. rewrite !join_cons_app in E.
  destruct l as [|y l], l' as [|y' l']; cbn [map] in E;
    apply dumps_str_app_inj in E; destruct E as [-> E].
  - apply string_cons_inj in E. now destruct E as [_ ->].
  - apply string_cons_inj in E. destruct E as [E _]. discriminate.
  - apply string_cons_inj in E. destruct E as [E _]. discriminate.
  - apply string_cons_inj in E. destruct E as [_ E].
    apply string_cons_inj in E. destruct E as [_ E].
    destruct (IH (y' :: l')) with (3 := E) as [-> ->]; try discriminate.
    now split.
Qed.

(** A serialised list is recovered from the head of a longer text. *)
Lemma dumps_list_app_inj (l l' : list string) (r r' : string) :
  (dumps_list l ++ r = dumps_list l' ++ r')%string -> l = l' /\ r = r'.
Proof.
  unfold dumps_list. rewrite !sapp_assoc. cbn [append]. intros E.
  apply string_cons_inj in E. destruct E as [_ E].
  destruct l as [|x l], l' as [|x' l'].
  - cbn in E. apply string_cons_inj in E. now destruct E as [_ ->].
  - exfalso. cbn [map] in E. rewrite join_cons_app in E.
    unfold join in E. cbn [map String.concat append] in E.
    rewrite dumps_str_app in E.
    apply string_cons_inj in E. destruct E as [E _]. discriminate.
  - exfalso. cbn [map] in E. rewrite join_cons_app in E.
    unfold join in E. cbn [map String.concat append] in E.
    rewrite dumps_str_app in E.
    apply string_cons_inj in E. destruct E as [E _]. discriminate.
  - apply join_dumps_app_inj in E; try discriminate. exact E.
Qed.

Lemma dumps_when_inj (w w' : when) : dumps_when w = dumps_when w' -> w = w'.
Proof.
  destruct w as [d | t z], w' as [d' | t' z']; intros E;
    unfold dumps_when, dumps_obj, dumps_member, join in E;
    cbn [map String.concat fst snd] in E;
    repeat rewrite sapp_assoc in E; cbn [append] in E.
  - apply string_cons_inj in E. destruct E as [_ E].
    apply dumps_str_app_inj in E. destruct E as [_ E].
    cbn [append] in E.
    apply string_cons_inj in E. destruct E as [_ E].
    apply string_cons_inj in E. destruct E as [_ E].
    apply dumps_str_app_inj in E. now destruct E as [-> _].
  - exfalso. apply string_cons_inj in E. destruct E as [_ E].
    apply dumps_str_app_inj in E. destruct E as [E _]. discriminate.
  - exfalso. apply string_cons_inj in E. destruct E as [_ E].
    apply dumps_str_app_inj in E. destruct E as [E _]. discriminate.
  - apply string_cons_inj in E. destruct E as [_ E].
    apply dumps_str_app_inj in E. destruct E as [_ E].
    cbn [append] in E.
    apply string_cons_inj in E. destruct E as [_ E].
    apply string_cons_inj in E. destruct E as [_ E].
    apply dumps_str_app_inj in E. destruct E as [-> E].
    cbn [append] in E.
    apply string_cons_inj in E. destruct E as [_ E].
    apply string_cons_inj in E. destruct E as [_ E].
    apply dumps_str_app_inj in E. destruct E as [_ E].
    cbn [append] in E.
    apply string_cons_inj in E. destruct E as [_ E].
    apply string_cons_inj in E. destruct E as [_ E].
    apply dumps_str_app_inj in E. now destruct E as [-> _].
Qed.

Example dumps_when_timed :
  dumps_when (WDateTime "2025-01-10T09:00:00+01:00" "Europe/Paris")
  = (String "{" (dumps_str "dateTime" ++ ": " ++ dumps_str "2025-01-10T09:00:00+01:00"
       ++ ", " ++ dumps_str "timeZone" ++ ": " ++ dumps_str "Europe/Paris" ++ "}"))%string.
Proof. vm_compute. reflexivity. Qed.

(** The payload with its keys in sorted order. *)
Lemma fingerprint_payload_sorted (summary description loc start_str end_str : string)
    (rrule : option string) (exdates rdates : list string) :
  fingerprint_payload summary description loc start_str end_str rrule exdates rdates
  = ("{" ++ dumps_str "d" ++ ": " ++ dumps_str description
     ++ ", " ++ dumps_str "et" ++ ": " ++ dumps_str end_str
     ++ ", " ++ dumps_str "ex" ++ ": " ++ dumps_list exdates
     ++ ", " ++ dumps_str "l" ++ ": " ++ dumps_str loc
     ++ ", " ++ dumps_str "rd" ++ ": " ++ dumps_list rdates
     ++ ", " ++ dumps_str "rr" ++ ": " ++ dumps_str (or_empty rrule)
     ++ ", " ++ dumps_str "s" ++ ": " ++ dumps_str summary
     ++ ", " ++ dumps_str "st" ++ ": " ++ dumps_str start_str ++ "}")%string.
Proof.
  unfold fingerprint_payload, dumps_obj_sorted, dumps_obj, sorted_by.
  cbn [fold_left insert_by fst String.ltb String.compare Ascii.compare
       N_of_ascii N_of_digits N.compare Pos.compare Pos.compare_cont
       N.add N.mul Pos.add Pos.mul Pos.succ].
  unfold join, dumps_member. cbn [map String.concat fst snd].
  repeat rewrite sapp_assoc. reflexivity.
Qed.

(** Strip the literal text and the key that precede a value on both sides
    of an equation of payloads. *)
Ltac strip_key E := do 3 (apply sapp_inj_l in E).

(** Payloads are equal only when the serialised values are. *)
Lemma fingerprint_payload_inj
    (s1 d1 l1 st1 et1 : string) (rr1 : option string) (ex1 rd1 : list string)
    (s2 d2 l2 st2 et2 : string) (rr2 : option string) (ex2 rd2 : list string) :
  fingerprint_payload s1 d1 l1 st1 et1 rr1 ex1 rd1
    = fingerprint_payload s2 d2 l2 st2 et2 rr2 ex2 rd2 ->
  s1 = s2 /\ d1 = d2 /\ l1 = l2 /\ st1 = st2 /\ et1 = et2
  /\ or_empty rr1 = or_empty rr2 /\ ex1 = ex2 /\ rd1 = rd2.
Proof.
  rewrite !fingerprint_payload_sorted. intros E.
  strip_key E. apply dumps_str_app_inj in E. destruct E as [Hd E].
  strip_key E. apply dumps_str_app_inj in E. destruct E as [Het E].
  strip_key E. apply dumps_list_app_inj in E. destruct E as [Hex E].
  strip_key E. apply dumps_str_app_inj in E. destruct E as [Hl E].
  strip_key E. apply dumps_list_app_inj in E. destruct E as [Hrd E].
  strip_key E. apply dumps_str_app_inj in E. destruct E as [Hrr E].
  strip_key E. apply dumps_str_app_inj in E. destruct E as [Hs E].
  strip_key E. apply dumps_str_app_inj in E. destruct E as [Hst _].
  repeat split; assumption.
Qed.

Section FingerprintFacts.
Context `{Hashlib}.

(** The payload of a resource determines its fingerprinted fields. *)
Lemma payload_of_same_fields (a b : fp_fields) :
  payload_of a = payload_of b <-> same_fields a b.
Proof.
  unfold payload_of, same_fields. split.
  - intros E. apply fingerprint_payload_inj in E.
    destruct E as (Hs & Hd & Hl & Hst & Het & Hrr & Hex & Hrd).
    apply dumps_when_inj in Hst. apply dumps_when_inj in Het.
    repeat split; assumption.
  - intros (Hs & Hd & Hl & Hst & Het & Hrr & Hex & Hrd).
    rewrite Hs, Hd, Hl, Hst, Het, Hex, Hrd.
    unfold fingerprint_payload. rewrite Hrr. reflexivity.
Qed.

End FingerprintFacts.

(** Among more values than a list has elements, all taken from the list,
    two coincide. *)
Lemma pigeonhole_sequence (f : nat -> string) (l : list string) :
  (forall k, In (f k) l) ->
  exists i j, (i < j)%nat /\ f i = f j.
Proof.
  intros Hall.
  destruct (NoDup_dec string_dec (map f (seq 0 (S (List.length l)))))
    as [Hnd | Hdup].
  - exfalso.
    assert (Hle : (List.length (map f (seq 0 (S (List.length l)))) <= List.length l)%nat).
    { apply NoDup_incl_length; [exact Hnd |].
      intros x Hx. apply in_map_iff in Hx. destruct Hx as (k & <- & _). apply Hall. }
    rewrite length_map, length_seq in Hle. lia.
  - assert (Hgen : forall n s, ~ NoDup (map f (seq s n)) ->
                     exists i j, (i < j)%nat /\ f i = f j).
    { clear. induction n as [|n IH]; intros s Hn.
      - exfalso. apply Hn. constructor.
      - cbn [seq map] in Hn.
        destruct (in_dec string_dec (f s) (map f (seq (S s) n))) as [Hin | Hnin].
        + apply in_map_iff in Hin. destruct Hin as (j & Hj & Hjin).
          apply in_seq in Hjin. exists s, j. split; [lia | now symmetry].
        + apply (IH (S s)). intros Hnd. apply Hn. now constructor. }
    exact (Hgen _ _ Hdup).
Qed.

Lemma is_hex_in (c : ascii) : is_hex c = true -> In c hex_chars.
Proof.
  unfold is_hex. intros E. apply existsb_exists in E.
  destruct E as (x & Hx & Heq). apply Ascii.eqb_eq in Heq. now subst.
Qed.

Lemma hex_words_complete (n : nat) (s : string) :
  String.length s = n ->
  forallb is_hex (list_ascii_of_string s) = true ->
  In s (hex_words n).
Proof.
  revert s. induction n as [|n IH]; intros [|c s] Hlen Hhex; try discriminate.
  - now left.
  - cbn [list_ascii_of_string forallb] in Hhex.
    apply andb_true_iff in Hhex. destruct Hhex as [Hc Hs].
    injection Hlen as Hlen.
    cbn [hex_words]. apply in_flat_map. exists c. split; [now apply is_hex_in |].
    apply in_map. now apply IH.
Qed.

Lemma hexdigest_in_words (s : string) :
  is_hexdigest s = true -> In s (hex_words 32).
Proof.
  unfold is_hexdigest. intros E. apply andb_true_iff in E. destruct E as [Hlen Hhex].
  apply Nat.eqb_eq in Hlen. now apply hex_words_complete.
Qed.

Lemma letters_length (k : nat) : String.length (letters k) = k.
Proof. induction k as [|k IH]; cbn; [reflexivity | now rewrite IH]. Qed.

(** Every digest with hexdigests of 32 characters gives one fingerprint to
    two resources that differ in their summary. *)
Lemma fingerprint_collision (h : Hashlib) :
  (forall data, is_hexdigest (md5 data) = true) ->
  exists a b : fp_fields,
    f_summary a <> f_summary b /\ fingerprint_of a = fingerprint_of b.
Proof.
  intros Hhex.
  destruct (pigeonhole_sequence
              (fun k => fingerprint_of (only_summary (letters k))) (hex_words 32))
    as (i & j & Hij & E).
  - intros k. apply hexdigest_in_words. apply Hhex.
  - exists (only_summary (letters i)), (only_summary (letters j)).
    split; [| exact E].
    cbn [only_summary f_summary]. intros Heq.
    apply (f_equal String.length) in Heq. rewrite !letters_length in Heq. lia.
Qed.

(** No digest with hexdigests of 32 characters gives different fingerprints
    to every two contents that differ in one of the fingerprinted fields. *)
Lemma fingerprint_not_injective :
  ~ exists h : Hashlib,
      (forall data, is_hexdigest (@md5 h data) = true)
      /\ (forall a b : fp_fields,
            ~ same_fields a b -> @fingerprint_of h a <> @fingerprint_of h b).
Proof.
  intros (h & Hhex & Hinj).
  destruct (fingerprint_collision h Hhex) as (a & b & Hne & E).
  apply (Hinj a b); [| exact E].
  intros Hsame. apply Hne. apply Hsame.
Qed.

Section ContentFacts.
Context `{Zones} `{Settings} `{Hashlib}.

(** The fingerprint of a canonical resource is the digest of the payload of
    the eight values handed to [event_fingerprint]. *)
Lemma to_gcal_resource_content (ev : vevent) (uid : string) (res : resource) :
  to_gcal_resource ev = Ok (uid, res) ->
  exists c, fingerprinted ev res = Ok c /\ r_fp res = md5 (payload_of c).
Proof.
  unfold to_gcal_resource. intros Hr.
  peel Hr. rename a into u.
  peel Hr. rename a into event_tz. rename Ha0 into Htz.
  destruct (DTSTART ev) as [p|] eqn:Hstart; [| cbn in Hr; discriminate].
  cbn [rbind] in Hr.
  peel Hr. destruct a as [allday_start start_dt].
  peel Hr. destruct a as [allday_end end_dt].
  peel Hr. rename a into g. rename Ha2 into Hg.
  peel Hr. rename a into ex. rename Ha2 into Hex.
  peel Hr. rename a into rd. rename Ha2 into Hrd.
  injection Hr as _ <-.
  unfold fingerprinted, rule_text.
  cbn [r_summary r_description r_location r_start r_end r_fp].
  rewrite Hstart, Htz, render_when_form. cbn [rbind].
  rewrite Hg. cbn [rbind]. rewrite Hex. cbn [rbind]. rewrite Hrd. cbn [rbind].
  eexists. split; reflexivity.
Qed.

End ContentFacts.

(** C6, as stated, fails: of two overrides of one instant with one summary,
    start and end, one has a stray rule and exception date.  The two
    canonical resources agree in identity, summary, description, location,
    start and end, and neither carries recurrence lines, yet their
    fingerprints differ, since the rule text and the exception dates of the
    record are digested. *)
Lemma override_fingerprint_beyond_resource :
  let canon := @to_gcal_resource Sample.winter_zones Sample.default_settings
                 Sample.length_digest in
  exists uid res1 res2,
    canon Fixture.override_with_rule = Ok (uid, res1)
    /\ canon Fixture.override_plain = Ok (uid, res2)
    /\ r_summary res1 = r_summary res2
    /\ r_description res1 = r_description res2
    /\ r_location res1 = r_location res2
    /\ r_start res1 = r_start res2
    /\ r_end res1 = r_end res2
    /\ r_recurrence res1 = None
    /\ r_recurrence res2 = None
    /\ r_src res1 = r_src res2
    /\ r_outlook_uid res1 = r_outlook_uid res2
    /\ r_fp res1 <> r_fp res2
    /\ exists c1 c2,
         @fingerprinted Sample.winter_zones Sample.default_settings
           Fixture.override_with_rule res1 = Ok c1
         /\ @fingerprinted Sample.winter_zones Sample.default_settings
              Fixture.override_plain res2 = Ok c2
         /\ f_rrule c1 = Some "FREQ=WEEKLY"%string
         /\ f_rrule c2 = None
         /\ f_exdates c1 = ["2025-01-17T09:00:00+01:00"%string]
         /\ f_exdates c2 = []
         /\ payload_of c1 <> payload_of c2.
Proof.
  cbv zeta. eexists. eexists. eexists.
  split; [vm_compute; reflexivity |].
  split; [vm_compute; reflexivity |].
  repeat (split; [reflexivity |]).
  split; [vm_compute; discriminate |].
  eexists. eexists.
  split; [vm_compute; reflexivity |].
  split; [vm_compute; reflexivity |].
  repeat (split; [reflexivity |]).
  vm_compute. discriminate.
Qed.

(** C6, amended.  The fingerprint of a canonical resource is the digest of
    the payload of eight values: the summary, description, location, start
    and end of the resource, and the rule text, exception dates and added
    dates computed from the record (also for an override, whose resource
    carries no recurrence lines).  Two payloads are equal exactly when the
    eight values agree.  So two records that agree in them give equal
    fingerprints, and two that differ in one give different payloads: their
    fingerprints differ unless the digest maps the two payloads to one
    value. *)
Theorem fingerprint_sensitivity `{Zones} `{Settings} `{Hashlib}
    (ev1 ev2 : vevent) (uid1 uid2 : string) (res1 res2 : resource) :
  to_gcal_resource ev1 = Ok (uid1, res1) ->
  to_gcal_resource ev2 = Ok (uid2, res2) ->
  exists c1 c2 : fp_fields,
    fingerprinted ev1 res1 = Ok c1
    /\ fingerprinted ev2 res2 = Ok c2
    /\ r_fp res1 = md5 (payload_of c1)
    /\ r_fp res2 = md5 (payload_of c2)
    /\ (payload_of c1 = payload_of c2 <-> same_fields c1 c2)
    /\ (same_fields c1 c2 -> r_fp res1 = r_fp res2)
    /\ (~ same_fields c1 c2 ->
        payload_of c1 <> payload_of c2
        /\ ((md5 (payload_of c1) = md5 (payload_of c2) ->
             payload_of c1 = payload_of c2) ->
            r_fp res1 <> r_fp res2)).
Proof.
  intros Hr1 Hr2.
  destruct (to_gcal_resource_content ev1 uid1 res1 Hr1) as (c1 & Hc1 & Hfp1).
  destruct (to_gcal_resource_content ev2 uid2 res2 Hr2) as (c2 & Hc2 & Hfp2).
  exists c1, c2.
  split; [exact Hc1 |]. split; [exact Hc2 |].
  split; [exact Hfp1 |]. split; [exact Hfp2 |].
  split; [apply payload_of_same_fields |].
  split.
  - intros Hsame. rewrite Hfp1, Hfp2. f_equal. now apply payload_of_same_fields.
  - intros Hdiff.
    assert (Hp : payload_of c1 <> payload_of c2).
    { intros E. apply Hdiff. now apply payload_of_same_fields. }
    split; [exact Hp |].
    intros Hnc E. apply Hp. apply Hnc. now rewrite <- Hfp1, <- Hfp2.
Qed.

(** The standup and the holiday differ in summary, start and end: their
    payloads differ, and so do their fingerprints under the sample digest,
    which tells these two payloads apart. *)
Lemma fingerprint_sensitivity_witness :
  exists uid1 uid2 res1 res2,
    @to_gcal_resource Sample.winter_zones Sample.default_settings Sample.length_digest
      Sample.standup = Ok (uid1, res1)
    /\ @to_gcal_resource Sample.winter_zones Sample.default_settings Sample.length_digest
         Sample.holiday = Ok (uid2, res2)
    /\ r_start res1 <> r_start res2
    /\ r_fp res1 <> r_fp res2.
Proof.
  eexists. eexists. eexists. eexists.
  split; [vm_compute; reflexivity |].
  split; [vm_compute; reflexivity |].
  split; [discriminate |].
  destruct (@fingerprint_sensitivity Sample.winter_zones Sample.default_settings
              Sample.length_digest Sample.standup Sample.holiday _ _ _ _
              eq_refl eq_refl)
    as (c1 & c2 & Hc1 & Hc2 & _ & _ & _ & _ & Hsens).
  vm_compute in Hc1. injection Hc1 as <-.
  vm_compute in Hc2. injection Hc2 as <-.
  destruct Hsens as (_ & Hsep).
  - intros (_ & _ & _ & Hst & _). discriminate Hst.
  - apply Hsep. vm_compute. discriminate.
Defined.

(* ------------------------------------------------------------------ *)
(** ** Dictionaries *)

Lemma unique_nodup (ks : list string) : unique ks = true -> NoDup ks.
Proof.
  induction ks as [|k ks IH]; cbn; intros E; [constructor |].
  apply andb_true_iff in E. destruct E as [Hk Hrest].
  constructor; [| now apply IH].
  intros Hin. apply negb_true_iff in Hk.
  assert (existsb (String.eqb k) ks = true); [| congruence].
  apply existsb_exists. exists k. split; [assumption | apply String.eqb_refl].
Qed.

Lemma get_none_not_in {V} (d : dict V) (k : string) :
  Dict.get d k = None <-> ~ In k (Dict.keys d).
Proof.
  induction d as [|[k' v'] d IH]; cbn; [intuition |].
  destruct (String.eqb_spec k' k) as [-> | Hne].
  - split; [discriminate | intros Hn; exfalso; apply Hn; now left].
  - rewrite IH. intuition.
Qed.

Lemma keys_set {V} (d : dict V) (k : string) (v : V) :
  Dict.keys (Dict.set d k v)
  = if Dict.mem d k then Dict.keys d else Dict.keys d ++ [k].
Proof.
  unfold Dict.mem, Dict.keys. induction d as [|[k' v'] d IH]; cbn; [reflexivity |].
  destruct (String.eqb_spec k' k) as [-> | Hne]; cbn; [reflexivity |].
  rewrite IH. destruct (Dict.get d k); reflexivity.
Qed.

(** Assignment keeps the keys of a dictionary unique. *)
Lemma set_nodup {V} (d : dict V) (k : string) (v : V) :
  NoDup (Dict.keys d) -> NoDup (Dict.keys (Dict.set d k v)).
Proof.
  intros Hnd. rewrite keys_set. unfold Dict.mem.
  destruct (Dict.get d k) eqn:E; [exact Hnd |].
  apply get_none_not_in in E.
  apply NoDup_app; [exact Hnd | repeat constructor; intros [] |].
  intros x Hx [<- | []]. contradiction.
Qed.

Lemma get_set {V} (d : dict V) (k k' : string) (v : V) :
  Dict.get (Dict.set d k v) k' = if String.eqb k k' then Some v else Dict.get d k'.
Proof.
  induction d as [|[k0 v0] d IH]; cbn.
  - reflexivity.
  - destruct (String.eqb_spec k0 k) as [-> | Hne]; cbn.
    + destruct (String.eqb_spec k k'); reflexivity.
    + rewrite IH. destruct (String.eqb_spec k0 k') as [-> | Hne'];
        [| reflexivity].
      destruct (String.eqb_spec k k'); [congruence | reflexivity].
Qed.

Lemma record_item_nodup (items : dict store_event) (ev : store_event) :
  NoDup (Dict.keys items) -> NoDup (Dict.keys (record_item items ev)).
Proof.
  intros Hnd. unfold record_item.
  destruct (ev_outlook_uid ev) as [uid|]; [| exact Hnd].
  destruct (truthy uid); [now apply set_nodup | exact Hnd].
Qed.

(** The listing of the store is a dictionary. *)
Lemma gcal_list_existing_nodup (pages : list (list store_event)) :
  NoDup (Dict.keys (gcal_list_existing pages)).
Proof.
  unfold gcal_list_existing.
  assert (Hpage : forall page items, NoDup (Dict.keys items) ->
            NoDup (Dict.keys (fold_left record_item page items))).
  { induction page as [|ev page IH]; intros items Hnd; cbn; [exact Hnd |].
    apply IH. now apply record_item_nodup. }
  assert (Hall : forall ps items, NoDup (Dict.keys items) ->
            NoDup (Dict.keys
                     (fold_left (fun items page => fold_left record_item page items)
                        ps items))).
  { induction ps as [|pg ps IH]; intros items Hnd; cbn; [exact Hnd |].
    apply IH. now apply Hpage. }
  apply Hall. constructor.
Qed.

(* ------------------------------------------------------------------ *)
(** ** Traces *)

Lemma pbind_trace_ok {A B} (c : prog A) (k : A -> prog B) (b : B) :
  outcome (pbind c k) = Ok b ->
  exists a, outcome c = Ok a
            /\ outcome (k a) = Ok b
            /\ trace (pbind c k) = trace c ++ trace (k a).
Proof.
  destruct c as [t [a|e]]; cbn; [| discriminate].
  destruct (k a) as [t' r] eqn:Ek. cbn. intros ->.
  exists a. rewrite Ek. cbn. repeat split.
Qed.

Lemma calls_for_app (uid : string) (t1 t2 : list effect) :
  calls_for uid (t1 ++ t2) = calls_for uid t1 ++ calls_for uid t2.
Proof. unfold calls_for. apply filter_app. Qed.

Lemma calls_for_all (uid : string) (t : list effect) :
  (forall e, In e t -> effect_uid e = Some uid) -> calls_for uid t = t.
Proof.
  induction t as [|e t IH]; intros Hall; [reflexivity |].
  cbn. rewrite (Hall e (or_introl eq_refl)), String.eqb_refl.
  f_equal. apply IH. intros e' He'. apply Hall. now right.
Qed.

Lemma calls_for_none (uid k : string) (t : list effect) :
  k <> uid -> (forall e, In e t -> effect_uid e = Some k) -> calls_for uid t = [].
Proof.
  intros Hne. induction t as [|e t IH]; intros Hall; [reflexivity |].
  cbn. rewrite (Hall e (or_introl eq_refl)).
  destruct (String.eqb_spec k uid); [contradiction |].
  apply IH. intros e' He'. apply Hall. now right.
Qed.

(** The calls for one identity in a trace made of one block per key. *)
Lemma calls_for_flat_map {V} (f : string * V -> list effect) (d : dict V) (uid : string) :
  NoDup (Dict.keys d) ->
  (forall k v e, In e (f (k, v)) -> effect_uid e = Some k) ->
  calls_for uid (flat_map f d)
  = match Dict.get d uid with Some v => f (uid, v) | None => [] end.
Proof.
  intros Hnd Htag. induction d as [|[k v] d IH]; [reflexivity |].
  cbn [flat_map Dict.get]. rewrite calls_for_app.
  cbn [Dict.keys map fst] in Hnd. inversion Hnd as [|? ? Hnotin Hnd']; subst.
  specialize (IH Hnd').
  destruct (String.eqb_spec k uid) as [-> | Hne].
  - rewrite (calls_for_all uid (f (uid, v))) by (intros e He; eapply Htag; eassumption).
    rewrite IH.
    assert (Hget : Dict.get d uid = None) by (now apply get_none_not_in).
    rewrite Hget. apply app_nil_r.
  - rewrite (calls_for_none uid k (f (k, v)) Hne)
      by (intros e He; eapply Htag; eassumption).
    exact IH.
Qed.

(* ------------------------------------------------------------------ *)
(** ** Reconciler *)

Section ReconcilerFacts.
Context `{Zones} `{Settings} `{Hashlib} `{World}.

Lemma upsert_trace (existing : dict store_event) (items : list (string * resource)) :
  outcome (upsert existing items) = Ok tt ->
  trace (upsert existing items)
  = flat_map (fun item => trace (upsert_one existing item)) items.
Proof.
  induction items as [|item items IH]; intros Hok; [reflexivity |].
  cbn [upsert] in *. apply pbind_trace_ok in Hok.
  destruct Hok as ([] & _ & Hrest & ->).
  cbn [flat_map]. now rewrite IH.
Qed.

Lemma delete_trace (src : dict resource) (items : list (string * store_event)) :
  outcome (delete_disappeared src items) = Ok tt ->
  trace (delete_disappeared src items)
  = flat_map (fun item => trace (delete_one src item)) items.
Proof.
  induction items as [|item items IH]; intros Hok; [reflexivity |].
  cbn [delete_disappeared] in *. apply pbind_trace_ok in Hok.
  destruct Hok as ([] & _ & Hrest & ->).
  cbn [flat_map]. now rewrite IH.
Qed.

(** The trace of a reconciliation that completes: one block per kept
    identity, then one block per existing identity. *)
Lemma reconcile_trace (src : dict resource) (existing : dict store_event) :
  outcome (reconcile src existing) = Ok tt ->
  trace (reconcile src existing)
  = flat_map (fun item => trace (upsert_one existing item)) src
    ++ flat_map (fun item => trace (delete_one src item)) existing.
Proof.
  unfold reconcile. intros Hok. apply pbind_trace_ok in Hok.
  destruct Hok as ([] & Hup & Hdel & ->).
  now rewrite upsert_trace, delete_trace.
Qed.

Lemma upsert_one_tag (existing : dict store_event) (k : string) (res : resource)
    (e : effect) :
  In e (trace (upsert_one existing (k, res))) -> effect_uid e = Some k.
Proof.
  unfold upsert_one. destruct (Dict.get existing k) as [ex|].
  - destruct (fp_changed ex res); cbn; [intros [<- | []]; reflexivity | intros []].
  - cbn. intros [<- | []]. reflexivity.
Qed.

Lemma delete_one_tag (src : dict resource) (k : string) (ex : store_event)
    (e : effect) :
  In e (trace (delete_one src (k, ex))) -> effect_uid e = Some k.
Proof.
  unfold delete_one. destruct (Dict.mem src k); cbn; [intros [] |].
  intros [<- | []]. reflexivity.
Qed.

(** The calls that a completed reconciliation makes for one identity. *)
Lemma calls_of_reconcile (src : dict resource) (existing : dict store_event)
    (uid : string) :
  NoDup (Dict.keys src) -> NoDup (Dict.keys existing) ->
  outcome (reconcile src existing) = Ok tt ->
  calls_for uid (trace (reconcile src existing))
  = match Dict.get src uid, Dict.get existing uid with
    | Some res, Some ex =>
        if fp_changed ex res then [Patch uid (ev_id ex) res] else []
    | Some res, None => [Insert uid res]
    | None, Some ex => [Delete uid (ev_id ex)]
    | None, None => []
    end.
Proof.
  intros Hsrc Hex Hok. rewrite (reconcile_trace _ _ Hok), calls_for_app.
  rewrite (calls_for_flat_map _ src uid Hsrc)
    by (intros k v e; apply upsert_one_tag).
  rewrite (calls_for_flat_map _ existing uid Hex)
    by (intros k v e; apply delete_one_tag).
  unfold upsert_one, delete_one, Dict.mem.
  destruct (Dict.get src uid) as [res|], (Dict.get existing uid) as [ex|]; cbn;
    try reflexivity.
  destruct (fp_changed ex res); reflexivity.
Qed.

Lemma fp_changed_false (ex : store_event) (res : resource) :
  fp_changed ex res = false <-> ev_fp ex = Some (r_fp res).
Proof.
  unfold fp_changed, opt_is. destruct (ev_fp ex) as [f|]; cbn.
  - rewrite negb_false_iff, String.eqb_eq. split; congruence.
  - split; discriminate.
Qed.

(** A record that the filter passes over leaves no mark on the snapshot. *)
Lemma snapshot_skip (cutoff : datetime) (comp : vevent) :
  (forall src, snapshot_step cutoff src comp = Ok src) ->
  forall pre post src,
    snapshot cutoff src (pre ++ comp :: post) = snapshot cutoff src (pre ++ post).
Proof.
  intros Hskip. induction pre as [|c pre IH]; intros post src; cbn [app snapshot].
  - rewrite Hskip. reflexivity.
  - destruct (snapshot_step cutoff src c) as [src'|e]; cbn [rbind]; [apply IH | reflexivity].
Qed.

Lemma snapshot_step_nodup (cutoff : datetime) (src src' : dict resource) (comp : vevent) :
  NoDup (Dict.keys src) -> snapshot_step cutoff src comp = Ok src' ->
  NoDup (Dict.keys src').
Proof.
  intros Hnd. unfold snapshot_step.
  destruct (DTSTART comp) as [p|]; [| intros E; injection E as <-; exact Hnd].
  intros E. peel E. destruct a as [allday start_dt].
  destruct (keep cutoff comp start_dt); [| injection E as <-; exact Hnd].
  peel E. destruct a as [uid res]. injection E as <-. now apply set_nodup.
Qed.

(** The kept snapshot is a dictionary. *)
Lemma snapshot_nodup (cutoff : datetime) (comps : list vevent) (src src' : dict resource) :
  NoDup (Dict.keys src) -> snapshot cutoff src comps = Ok src' ->
  NoDup (Dict.keys src').
Proof.
  revert src. induction comps as [|c comps IH]; intros src Hnd E; cbn [snapshot] in E.
  - injection E as <-. exact Hnd.
  - peel E. eapply IH; [| exact E]. eapply snapshot_step_nodup; eassumption.
Qed.

(** The loop over a feed in two parts. *)
Lemma snapshot_app (cutoff : datetime) (pre post : list vevent) (src : dict resource) :
  snapshot cutoff src (pre ++ post)
  = (mid <- snapshot cutoff src pre ;; snapshot cutoff mid post).
Proof.
  revert src. induction pre as [|c pre IH]; intros src; cbn [app snapshot rbind].
  - reflexivity.
  - destruct (snapshot_step cutoff src c) as [src'|e]; cbn [rbind]; [apply IH | reflexivity].
Qed.

(** What the loop has stored stays stored: a later record only replaces the
    resource under its own identity. *)
Lemma snapshot_step_keeps (cutoff : datetime) (src src' : dict resource)
    (comp : vevent) (uid : string) (res : resource) :
  Dict.get src uid = Some res ->
  snapshot_step cutoff src comp = Ok src' ->
  exists res', Dict.get src' uid = Some res'
               /\ (res' = res \/ to_gcal_resource comp = Ok (uid, res')).
Proof.
  intros Hget. unfold snapshot_step.
  destruct (DTSTART comp) as [p|];
    [| intros E; injection E as <-; exists res; split; [exact Hget | now left]].
  intros E. peel E. destruct a as [allday start_dt].
  destruct (keep cutoff comp start_dt);
    [| injection E as <-; exists res; split; [exact Hget | now left]].
  peel E. destruct a as [u r]. injection E as <-.
  rewrite get_set. destruct (String.eqb_spec u uid) as [-> | Hne].
  - exists r. split; [reflexivity | now right].
  - exists res. split; [exact Hget | now left].
Qed.

Lemma snapshot_keeps (cutoff : datetime) (comps : list vevent)
    (src src' : dict resource) (uid : string) (res : resource) :
  Dict.get src uid = Some res ->
  snapshot cutoff src comps = Ok src' ->
  exists res', Dict.get src' uid = Some res'
               /\ (res' = res
                   \/ exists c, In c comps /\ to_gcal_resource c = Ok (uid, res')).
Proof.
  revert src res. induction comps as [|c comps IH]; intros src res Hget E;
    cbn [snapshot] in E.
  - injection E as <-. exists res. split; [exact Hget | now left].
  - peel E. rename a into src1.
    destruct (snapshot_step_keeps _ _ _ _ _ _ Hget Ha) as (r1 & Hg1 & Hr1).
    destruct (IH src1 r1 Hg1 E) as (res' & Hg & Hr).
    exists res'. split; [exact Hg |].
    destruct Hr as [-> | (c' & Hin & Hc')].
    + destruct Hr1 as [-> | Hc]; [now left |].
      right. exists c. split; [now left | exact Hc].
    + right. exists c'. split; [now right | exact Hc'].
Qed.

(** Whatever the loop stores comes from a record that passed the filter. *)
Lemma snapshot_step_source (cutoff : datetime) (src src' : dict resource)
    (comp : vevent) (uid : string) (res : resource) :
  snapshot_step cutoff src comp = Ok src' ->
  Dict.get src' uid = Some res ->
  Dict.get src uid = Some res
  \/ exists p allday start_dt,
       DTSTART comp = Some p
       /\ normalize_dt (p_dt p) (p_tzid p) TDefault = Ok (allday, start_dt)
       /\ keep cutoff comp start_dt = true
       /\ to_gcal_resource comp = Ok (uid, res).
Proof.
  unfold snapshot_step.
  destruct (DTSTART comp) as [p|] eqn:Hstart;
    [| intros E; injection E as <-; now left].
  intros E. peel E. destruct a as [allday start_dt].
  destruct (keep cutoff comp start_dt) eqn:Hk; [| injection E as <-; now left].
  peel E. destruct a as [u r]. injection E as <-.
  rewrite get_set. destruct (String.eqb_spec u uid) as [-> | Hne]; [| now left].
  intros Hg. injection Hg as <-.
  right. exists p, allday, start_dt. repeat split; assumption.
Qed.

Lemma snapshot_source (cutoff : datetime) (comps : list vevent)
    (src src' : dict resource) (uid : string) (res : resource) :
  snapshot cutoff src comps = Ok src' ->
  Dict.get src' uid = Some res ->
  Dict.get src uid = Some res
  \/ exists c p allday start_dt,
       In c comps
       /\ DTSTART c = Some p
       /\ normalize_dt (p_dt p) (p_tzid p) TDefault = Ok (allday, start_dt)
       /\ keep cutoff c start_dt = true
       /\ to_gcal_resource c = Ok (uid, res).
Proof.
  revert src. induction comps as [|c comps IH]; intros src E Hg; cbn [snapshot] in E.
  - injection E as <-. now left.
  - peel E. rename a into src1.
    destruct (IH src1 E Hg) as [Hg1 | (c' & p & a & s & Hin & Hrest)].
    + destruct (snapshot_step_source _ _ _ _ _ _ Ha Hg1)
        as [Hsrc | (p & a & s & Hrest)]; [now left |].
      right. exists c, p, a, s. split; [now left | exact Hrest].
    + right. exists c', p, a, s. split; [now right | exact Hrest].
Qed.

(** The cutoff of a run lies the retention window before its clock. *)
Lemma instant_cutoff :
  instant (cutoff_of (fromutc TZ clock)) = clock - PAST_DAYS * us_per_day.
Proof.
  unfold cutoff_of. rewrite instant_dt_add by apply fromutc_aware.
  rewrite instant_fromutc. unfold timedelta_days. lia.
Qed.

End ReconcilerFacts.

(** C2.  In a reconciliation that runs to its end, the calls made for an
    identity are: none when it is kept and an existing event carries the same
    fingerprint; the one patch of that event with the new resource when the
    stored fingerprint differs; the one insert of the resource when no
    existing event has the identity; and the one delete of the existing
    event when the identity is not kept. *)
Theorem reconcile_calls `{World}
    (src : dict resource) (existing : dict store_event) :
  unique_keys src = true ->
  unique_keys existing = true ->
  outcome (reconcile src existing) = Ok tt ->
  let t := trace (reconcile src existing) in
  (forall uid res ex,
     Dict.get src uid = Some res -> Dict.get existing uid = Some ex ->
     (ev_fp ex = Some (r_fp res) -> calls_for uid t = [])
     /\ (ev_fp ex <> Some (r_fp res) -> calls_for uid t = [Patch uid (ev_id ex) res]))
  /\ (forall uid res,
        Dict.get src uid = Some res -> Dict.get existing uid = None ->
        calls_for uid t = [Insert uid res])
  /\ (forall uid ex,
        Dict.get existing uid = Some ex -> Dict.get src uid = None ->
        calls_for uid t = [Delete uid (ev_id ex)])
  /\ Forall (fun e => is_mutation e = true) t.
Proof.
  intros Hsrc Hex Hok t.
  apply unique_nodup in Hsrc. apply unique_nodup in Hex.
  assert (Hcalls := fun uid => calls_of_reconcile src existing uid Hsrc Hex Hok).
  fold t in Hcalls.
  split; [| split; [| split]].
  - intros uid res ex Hs He. rewrite Hcalls, Hs, He. split.
    + intros Hfp. apply fp_changed_false in Hfp. now rewrite Hfp.
    + intros Hfp. destruct (fp_changed ex res) eqn:E; [reflexivity |].
      apply fp_changed_false in E. contradiction.
  - intros uid res Hs He. now rewrite Hcalls, Hs, He.
  - intros uid ex He Hs. now rewrite Hcalls, Hs, He.
  - subst t. rewrite (reconcile_trace _ _ Hok).
    apply Forall_app. split; apply Forall_forall; intros e He;
      apply in_flat_map in He; destruct He as ([k v] & _ & He).
    + apply upsert_one_tag in He. destruct e; cbn in *; congruence.
    + apply delete_one_tag in He. destruct e; cbn in *; congruence.
Qed.

(** The sample run: the standup is patched, the holiday is left alone, the
    next meeting is inserted, and the event of the vanished identity is
    deleted. *)
Lemma reconcile_calls_witness :
  let t := trace (@reconcile Sample.quiet_world Sample.kept_snapshot Sample.listing) in
  exists standup next,
    Dict.get Sample.kept_snapshot "standup-1" = Some standup
    /\ Dict.get Sample.kept_snapshot "next-1" = Some next
    /\ calls_for "standup-1" t = [Patch "standup-1" "g-1" standup]
    /\ calls_for "holiday-1" t = []
    /\ calls_for "next-1" t = [Insert "next-1" next]
    /\ calls_for "broken-1" t = [Delete "broken-1" "g-2"].
Proof.
  intros t.
  destruct (@reconcile_calls Sample.quiet_world Sample.kept_snapshot Sample.listing
              eq_refl eq_refl eq_refl)
    as (Hboth & Hins & Hdel & _).
  fold t in Hboth, Hins, Hdel.
  eexists. eexists.
  split; [reflexivity |]. split; [reflexivity |].
  split.
  { edestruct (Hboth "standup-1"%string) as [_ Hpatch]; [reflexivity | reflexivity |].
    apply Hpatch. discriminate. }
  split.
  { edestruct (Hboth "holiday-1"%string) as [Hsame _]; [reflexivity | reflexivity |].
    apply Hsame. reflexivity. }
  split.
  { apply Hins; reflexivity. }
  { apply (Hdel "broken-1"%string (mkStoreEvent "g-2" (Some "broken-1"%string) (Some "0"%string)));
      reflexivity. }
Defined.

Section RunFacts.
Context `{Zones} `{Settings} `{Hashlib} `{World}.

Lemma pbind_trace_in {A B} (c : prog A) (k : A -> prog B) (e : effect) :
  In e (trace (pbind c k)) -> In e (trace c) \/ exists a, In e (trace (k a)).
Proof.
  destruct c as [t [a|x]]; cbn; [| now left].
  destruct (k a) as [t' r] eqn:Ek. cbn. intros Hin.
  apply in_app_or in Hin. destruct Hin as [Hin | Hin]; [now left |].
  right. exists a. now rewrite Ek.
Qed.

Lemma upsert_mutations (existing : dict store_event) (items : list (string * resource))
    (e : effect) :
  In e (trace (upsert existing items)) -> is_mutation e = true.
Proof.
  induction items as [|[k res] items IH]; cbn [upsert]; [intros [] |].
  intros Hin. apply pbind_trace_in in Hin. destruct Hin as [Hin | (_ & Hin)].
  - apply upsert_one_tag in Hin. destruct e; cbn in *; congruence.
  - now apply IH.
Qed.

Lemma delete_mutations (src : dict resource) (items : list (string * store_event))
    (e : effect) :
  In e (trace (delete_disappeared src items)) -> is_mutation e = true.
Proof.
  induction items as [|[k ex] items IH]; cbn [delete_disappeared]; [intros [] |].
  intros Hin. apply pbind_trace_in in Hin. destruct Hin as [Hin | (_ & Hin)].
  - apply delete_one_tag in Hin. destruct e; cbn in *; congruence.
  - now apply IH.
Qed.

Lemma reconcile_mutations (src : dict resource) (existing : dict store_event) (e : effect) :
  In e (trace (reconcile src existing)) -> is_mutation e = true.
Proof.
  unfold reconcile. intros Hin. apply pbind_trace_in in Hin.
  destruct Hin as [Hin | (_ & Hin)];
    [eapply upsert_mutations | eapply delete_mutations]; eassumption.
Qed.

(** The listing only issues listing calls. *)
Lemma list_calls_listing (page more : nat) (e : effect) :
  In e (trace (list_calls page more)) -> exists p, e = ListEvents p.
Proof.
  revert page. induction more as [|m IH]; intros page; cbn [list_calls].
  - cbn. intros [<- | []]. now exists page.
  - intros Hin. apply pbind_trace_in in Hin. destruct Hin as [Hin | (_ & Hin)].
    + cbn in Hin. destruct Hin as [<- | []]. now exists page.
    + now apply (IH (S page)).
Qed.

Lemma list_existing_listing (e : effect) :
  In e (trace list_existing) -> exists p, e = ListEvents p.
Proof.
  unfold list_existing. intros Hin.
  apply pbind_trace_in in Hin. destruct Hin as [Hin | (_ & [])].
  eapply list_calls_listing. eassumption.
Qed.

Lemma list_existing_ok (existing : dict store_event) :
  outcome list_existing = Ok existing -> existing = gcal_list_existing list_pages.
Proof.
  unfold list_existing. intros Hok.
  apply pbind_trace_ok in Hok. destruct Hok as ([] & _ & Hpure & _).
  cbn in Hpure. now injection Hpure as <-.
Qed.

Lemma calls_for_listing (uid : string) (t : list effect) :
  (forall e, In e t -> exists p, e = ListEvents p) -> calls_for uid t = [].
Proof.
  induction t as [|e t IH]; intros Hall; [reflexivity |].
  destruct (Hall e (or_introl eq_refl)) as (p & ->). cbn.
  apply IH. intros e' He'. apply Hall. now right.
Qed.



Lemma opt_is_true (o : option string) (s : string) : opt_is o s = true <-> o = Some s.
Proof.
  unfold opt_is. destruct o as [x|]; [| split; discriminate].
  rewrite String.eqb_eq. split; congruence.
Qed.

Lemma missing_start_step (cutoff : datetime) (src : dict resource) (comp : vevent) :
  DTSTART comp = None -> snapshot_step cutoff src comp = Ok src.
Proof. unfold snapshot_step. now intros ->. Qed.

Lemma sync_snapshot_eq (comps comps' : list vevent) :
  snapshot (cutoff_of (fromutc TZ clock)) [] comps
    = snapshot (cutoff_of (fromutc TZ clock)) [] comps' ->
  sync comps = sync comps'.
Proof. unfold sync. now intros ->. Qed.

(** The calls of a completed run for one identity. *)
Lemma sync_calls_for (comps : list vevent) (src : dict resource) (uid : string) :
  snapshot (cutoff_of (fromutc TZ clock)) [] comps = Ok src ->
  outcome (sync comps) = Ok tt ->
  calls_for uid (trace (sync comps))
  = match Dict.get src uid, Dict.get (gcal_list_existing list_pages) uid with
    | Some res, Some ex =>
        if fp_changed ex res then [Patch uid (ev_id ex) res] else []
    | Some res, None => [Insert uid res]
    | None, Some ex => [Delete uid (ev_id ex)]
    | None, None => []
    end.
Proof.
  intros Hsnap Hok. unfold sync in *. rewrite Hsnap in *.
  cbn [lift pbind] in *.
  destruct (existing <~ list_existing;; reconcile src existing)
    as [t res] eqn:Erun.
  cbn [trace outcome fst snd app] in *. subst res.
  assert (Hrun : outcome (existing <~ list_existing;; reconcile src existing)
                 = Ok tt) by (now rewrite Erun).
  apply pbind_trace_ok in Hrun. destruct Hrun as (existing & Hlist & Hrec & Ht).
  rewrite Erun in Ht. change (trace (t, Ok tt)) with t in Ht. subst t.
  apply list_existing_ok in Hlist. subst existing.
  rewrite calls_for_app.
  rewrite (calls_for_listing uid (trace list_existing)) by (apply list_existing_listing).
  cbn [app].
  apply calls_of_reconcile; [| apply gcal_list_existing_nodup | exact Hrec].
  eapply snapshot_nodup; [| exact Hsnap]. constructor.
Qed.

End RunFacts.



(** C5.  For a record with a start that normalises, the filter keeps it
    exactly when it is a recurring master (a rule and no override instant) or
    its normalised start is not before the clock of the run minus the
    retention window.  A kept record is canonicalised and stored under its
    identity, and in the snapshot of any feed that holds it its identity is a
    key, with its own resource or that of a later record of the same
    identity.  A record that fails the test leaves the snapshot as it was,
    and the snapshot of a feed is that of the feed without it.  Every entry
    of the snapshot of a feed is the resource of a record of the feed that
    passed the test. *)
Theorem retention_filter `{Zones} `{Settings} `{Hashlib} `{World}
    (src : dict resource) (comp : vevent) (dtstart : prop)
    (allday : bool) (start_dt : datetime) :
  DTSTART comp = Some dtstart ->
  normalize_dt (p_dt dtstart) (p_tzid dtstart) TDefault = Ok (allday, start_dt) ->
  let cutoff := cutoff_of (fromutc TZ clock) in
  (keep cutoff comp start_dt = true
   <-> (RRULE comp <> None /\ RECURRENCE_ID comp = None)
       \/ clock - PAST_DAYS * us_per_day <= instant start_dt)
  /\ (keep cutoff comp start_dt = true ->
      snapshot_step cutoff src comp
      = ('(uid, res) <- to_gcal_resource comp ;; Ok (Dict.set src uid res))
      /\ (forall uid res,
            to_gcal_resource comp = Ok (uid, res) ->
            exists src', snapshot_step cutoff src comp = Ok src'
                         /\ Dict.get src' uid = Some res)
      /\ (forall pre post src0 final,
            snapshot cutoff src0 (pre ++ comp :: post) = Ok final ->
            exists uid res res',
              to_gcal_resource comp = Ok (uid, res)
              /\ Dict.get final uid = Some res'
              /\ (res' = res
                  \/ exists c, In c post /\ to_gcal_resource c = Ok (uid, res'))))
  /\ (keep cutoff comp start_dt = false ->
      snapshot_step cutoff src comp = Ok src
      /\ forall pre post src0,
           snapshot cutoff src0 (pre ++ comp :: post)
           = snapshot cutoff src0 (pre ++ post))
  /\ (forall comps final uid res,
        snapshot cutoff [] comps = Ok final ->
        Dict.get final uid = Some res ->
        exists c p a s,
          In c comps
          /\ DTSTART c = Some p
          /\ normalize_dt (p_dt p) (p_tzid p) TDefault = Ok (a, s)
          /\ keep cutoff c s = true
          /\ to_gcal_resource c = Ok (uid, res)).
Proof.
  intros Hstart Hnorm cutoff.
  assert (Hstep : forall src0,
            snapshot_step cutoff src0 comp
            = if keep cutoff comp start_dt
              then ('(uid, res) <- to_gcal_resource comp ;; Ok (Dict.set src0 uid res))
              else Ok src0).
  { intros src0. unfold snapshot_step. rewrite Hstart, Hnorm. reflexivity. }
  split; [| split; [| split]].
  - unfold keep, is_master, dt_ge. subst cutoff. rewrite instant_cutoff.
    destruct (RRULE comp) as [rule|], (RECURRENCE_ID comp) as [rid|];
      rewrite ?Z.leb_le; split; intros Hk;
      try (right; exact Hk); try reflexivity;
      try (destruct Hk as [[Hr Hi] | Hk]; [congruence | exact Hk]).
    left. split; [discriminate | reflexivity].
  - intros Hk. rewrite Hstep, Hk. split; [reflexivity |]. split.
    + intros uid res Hr. rewrite Hr. cbn [rbind].
      eexists. split; [reflexivity |].
      rewrite get_set, String.eqb_refl. reflexivity.
    + intros pre post src0 final E.
      rewrite snapshot_app in E. peel E. rename a into mid.
      cbn [snapshot] in E. peel E. rename a into src1.
      rewrite Hstep, Hk in Ha0. peel Ha0. destruct a as [uid res].
      injection Ha0 as <-.
      assert (Hg : Dict.get (Dict.set mid uid res) uid = Some res)
        by (now rewrite get_set, String.eqb_refl).
      destruct (snapshot_keeps _ _ _ _ _ _ Hg E) as (res' & Hg' & Hr').
      exists uid, res, res'. repeat split; assumption.
  - intros Hk. split; [now rewrite Hstep, Hk |].
    apply snapshot_skip. intros src0. now rewrite Hstep, Hk.
  - intros comps final uid res E Hg.
    destruct (snapshot_source _ _ _ _ _ _ E Hg) as [Hnil | Hsrc];
      [discriminate | exact Hsrc].
Qed.

(** On 2025-01-15 with a window of 30 days: a series begun in 2019 is kept,
    a single meeting of 2019 is dropped, a meeting of February is kept and
    is in the snapshot of the sample feed, whose every entry passed the
    test. *)
Lemma retention_filter_witness :
  let cutoff := @cutoff_of Sample.default_settings
                  (@fromutc Sample.winter_zones (@TZ Sample.default_settings)
                     (@clock Sample.quiet_world)) in
  (exists src', @snapshot_step Sample.winter_zones Sample.default_settings
                  Sample.length_digest cutoff [] Sample.old_series = Ok src'
                /\ Dict.mem src' "series-2" = true)
  /\ @snapshot_step Sample.winter_zones Sample.default_settings
       Sample.length_digest cutoff [] Sample.old_meeting = Ok []
  /\ (exists src', @snapshot_step Sample.winter_zones Sample.default_settings
                     Sample.length_digest cutoff [] Sample.next_meeting = Ok src'
                   /\ Dict.mem src' "next-1" = true)
  /\ Dict.mem Sample.kept_snapshot "next-1" = true
  /\ (forall uid res,
        Dict.get Sample.kept_snapshot uid = Some res ->
        exists c, In c Sample.feed_events
                  /\ @to_gcal_resource Sample.winter_zones Sample.default_settings
                       Sample.length_digest c = Ok (uid, res)).
Proof.
  intros cutoff.
  split; [| split; [| split; [| split]]].
  - destruct (@retention_filter Sample.winter_zones Sample.default_settings
                Sample.length_digest Sample.quiet_world [] Sample.old_series
                _ _ _ eq_refl eq_refl) as (Hiff & Hkept & _).
    destruct Hkept as (_ & Hin & _).
    { apply Hiff. left. split; [discriminate | reflexivity]. }
    edestruct Hin as (src' & Hs & Hg); [vm_compute; reflexivity |].
    exists src'. split; [exact Hs |]. unfold Dict.mem. now rewrite Hg.
  - destruct (@retention_filter Sample.winter_zones Sample.default_settings
                Sample.length_digest Sample.quiet_world [] Sample.old_meeting
                _ _ _ eq_refl eq_refl) as (_ & _ & Hdrop & _).
    assert (Hk : @keep Sample.winter_zones cutoff Sample.old_meeting
                   (mkDT (Sample.at_ 2019 3 4 14 0) (Some (ZoneAt "Europe/Paris" 3600)))
                 = false) by (vm_compute; reflexivity).
    exact (proj1 (Hdrop Hk)).
  - destruct (@retention_filter Sample.winter_zones Sample.default_settings
                Sample.length_digest Sample.quiet_world [] Sample.next_meeting
                _ _ _ eq_refl eq_refl) as (Hiff & Hkept & _).
    destruct Hkept as (_ & Hin & _).
    { apply Hiff. right. vm_compute. discriminate. }
    edestruct Hin as (src' & Hs & Hg); [vm_compute; reflexivity |].
    exists src'. split; [exact Hs |]. unfold Dict.mem. now rewrite Hg.
  - destruct (@retention_filter Sample.winter_zones Sample.default_settings
                Sample.length_digest Sample.quiet_world [] Sample.next_meeting
                _ _ _ eq_refl eq_refl) as (Hiff & Hkept & _).
    destruct Hkept as (_ & _ & Hloop).
    { apply Hiff. right. vm_compute. discriminate. }
    destruct (Hloop [Sample.standup; Sample.no_start; Sample.holiday; Sample.old_meeting]
                [] [] Sample.kept_snapshot) as (uid & res & res' & Hr & Hg & _).
    { vm_compute. reflexivity. }
    assert (Eu : uid = "next-1"%string).
    { vm_compute in Hr. injection Hr as Hu _. symmetry. exact Hu. }
    subst uid. unfold Dict.mem. now rewrite Hg.
  - intros uid res Hg.
    destruct (@retention_filter Sample.winter_zones Sample.default_settings
                Sample.length_digest Sample.quiet_world [] Sample.next_meeting
                _ _ _ eq_refl eq_refl) as (_ & _ & _ & Hsrc).
    destruct (Hsrc Sample.feed_events Sample.kept_snapshot uid res) as
      (c & p & a & s & Hin & _ & _ & _ & Hr).
    + vm_compute. reflexivity.
    + exact Hg.
    + exists c. split; assumption.
Defined.

(** C10.  A record without a start is passed over without an exception and
    before any canonicalisation: it leaves the snapshot as it was, and the
    run on a feed that holds it is the run on the feed without it, so no
    insert and no patch comes from it.  When a run completes with no kept
    record supplying the identity of that record, an existing event under
    that identity gets exactly one call, its delete. *)
Theorem missing_start_skipped `{Zones} `{Settings} `{Hashlib} `{World}
    (comp : vevent) :
  DTSTART comp = None ->
  (forall cutoff src, snapshot_step cutoff src comp = Ok src)
  /\ (forall cutoff pre post src,
        snapshot cutoff src (pre ++ comp :: post) = snapshot cutoff src (pre ++ post))
  /\ (forall pre post, sync (pre ++ comp :: post) = sync (pre ++ post))
  /\ (forall pre post src uid ex,
        event_uid comp = Ok uid ->
        snapshot (cutoff_of (fromutc TZ clock)) [] (pre ++ comp :: post) = Ok src ->
        Dict.get src uid = None ->
        Dict.get (gcal_list_existing list_pages) uid = Some ex ->
        outcome (sync (pre ++ comp :: post)) = Ok tt ->
        calls_for uid (trace (sync (pre ++ comp :: post))) = [Delete uid (ev_id ex)]).
Proof.
  intros Hstart.
  assert (Hstep : forall cutoff src, snapshot_step cutoff src comp = Ok src)
    by (intros; now apply missing_start_step).
  assert (Hsnap : forall cutoff pre post src,
            snapshot cutoff src (pre ++ comp :: post) = snapshot cutoff src (pre ++ post))
    by (intros; apply snapshot_skip; intros; apply Hstep).
  split; [exact Hstep |]. split; [exact Hsnap |]. split.
  - intros pre post. apply sync_snapshot_eq. apply Hsnap.
  - intros pre post src uid ex _ Hs Hnone Hex Hok.
    rewrite (sync_calls_for _ src uid Hs Hok), Hnone, Hex. reflexivity.
Qed.

(** The sample run holds a record without a start whose identity is that of
    an event of the store: the run is that of the feed without the record, and
    the event is deleted. *)
Lemma missing_start_skipped_witness :
  DTSTART Sample.no_start = None
  /\ @sync Sample.winter_zones Sample.default_settings Sample.length_digest
       Sample.quiet_world Sample.feed_events
     = @sync Sample.winter_zones Sample.default_settings Sample.length_digest
         Sample.quiet_world
         [Sample.standup; Sample.holiday; Sample.old_meeting; Sample.next_meeting]
  /\ calls_for "broken-1"
       (trace (@sync Sample.winter_zones Sample.default_settings Sample.length_digest
                 Sample.quiet_world Sample.feed_events))
     = [Delete "broken-1" "g-2"].
Proof.
  split; [reflexivity |].
  destruct (@missing_start_skipped Sample.winter_zones Sample.default_settings
              Sample.length_digest Sample.quiet_world Sample.no_start eq_refl)
    as (_ & _ & Hsync & Hdel).
  split.
  - exact (Hsync [Sample.standup]
             [Sample.holiday; Sample.old_meeting; Sample.next_meeting]).
  - apply (Hdel [Sample.standup]
             [Sample.holiday; Sample.old_meeting; Sample.next_meeting]
             Sample.kept_snapshot "broken-1"%string
             (mkStoreEvent "g-2" (Some "broken-1"%string) (Some "0"%string)));
      vm_compute; reflexivity.
Defined.

(* ================================================================== *)
(** * Further properties *)

(* ------------------------------------------------------------------ *)
(** ** Timezone resolver and normaliser *)

(** X1.  On a non-empty name [map_tzid] answers a non-empty name that is not
    an alias of the table: an alias gives its zone, any other name passes
    through unchanged, and mapping the answer again changes nothing. *)
Theorem map_tzid_canonical `{Settings} (s : string) :
  truthy s = true ->
  truthy (map_tzid (Some s)) = true
  /\ Dict.get WINDOWS_TZMAP (map_tzid (Some s)) = None
  /\ (Dict.get WINDOWS_TZMAP s = None -> map_tzid (Some s) = s)
  /\ (forall z, Dict.get WINDOWS_TZMAP s = Some z -> map_tzid (Some s) = z)
  /\ map_tzid (Some (map_tzid (Some s))) = map_tzid (Some s).
Proof.
  intros Hs.
  assert (Hmap : map_tzid (Some s)
                 = match Dict.get WINDOWS_TZMAP s with Some z => z | None => s end)
    by (unfold map_tzid; now rewrite Hs).
  assert (Hcases : (Dict.get WINDOWS_TZMAP s = None)
                   \/ exists z, Dict.get WINDOWS_TZMAP s = Some z
                                /\ truthy z = true
                                /\ Dict.get WINDOWS_TZMAP z = None).
  { unfold WINDOWS_TZMAP. cbn [Dict.get].
    destruct (String.eqb_spec "Romance Standard Time" s);
      [right; eexists; repeat split |].
    destruct (String.eqb_spec "W. Europe Standard Time" s);
      [right; eexists; repeat split |].
    destruct (String.eqb_spec "Central European Standard Time" s);
      [right; eexists; repeat split |].
    destruct (String.eqb_spec "FLE Standard Time" s);
      [right; eexists; repeat split |].
    now left. }
  destruct Hcases as [Hnone | (z & Hz & Htz & Hgz)].
  - rewrite Hmap, Hnone. repeat split; try assumption.
    + intros z Hz. discriminate Hz.
    + unfold map_tzid. now rewrite Hs, Hnone.
  - rewrite Hmap, Hz. repeat split; try assumption.
    + intros Hn. discriminate Hn.
    + intros z' Hz'. congruence.
    + unfold map_tzid. now rewrite Htz, Hgz.
Qed.

Lemma map_tzid_canonical_witness :
  @map_tzid Sample.default_settings (Some "FLE Standard Time"%string)
    = "Europe/Helsinki"%string
  /\ @map_tzid Sample.default_settings (Some "Europe/Helsinki"%string)
     = "Europe/Helsinki"%string.
Proof.
  destruct (@map_tzid_canonical Sample.default_settings "FLE Standard Time" eq_refl)
    as (_ & _ & _ & Halias & Hidem).
  split; [apply Halias; reflexivity |].
  rewrite (Halias "Europe/Helsinki"%string eq_refl) in Hidem. exact Hidem.
Defined.

Section NormalizerMore.
Context `{Zones} `{Settings}.

Lemma fromutc_fixed (tz : tzinfo) (u : Z) :
  astimezone (fromutc tz u) tz = fromutc tz u.
Proof.
  unfold astimezone.
  destruct (dt_tz (fromutc tz u)) as [mine|] eqn:E.
  - destruct (tz_is mine tz); [reflexivity |]. now rewrite instant_fromutc.
  - now rewrite instant_fromutc.
Qed.

(** Converting twice to one zone is converting once. *)
Lemma astimezone_idem (dt : datetime) (tz : tzinfo) :
  astimezone (astimezone dt tz) tz = astimezone dt tz.
Proof.
  unfold astimezone at 2 3.
  destruct (dt_tz dt) as [mine|] eqn:E.
  - destruct (tz_is mine tz) eqn:Eis; [| apply fromutc_fixed].
    unfold astimezone. now rewrite E, Eis.
  - apply fromutc_fixed.
Qed.



End NormalizerMore.





(** X4.  Normalising what [normalize_dt] returned, toward the same target,
    returns it unchanged as a timed value, whatever the source timezone
    parameter of the second call. *)
Theorem normalize_dt_stable `{Zones} `{Settings}
    (value : dtvalue) (src_tzid src_tzid' : option string) (target_tz : target_arg)
    (allday : bool) (out : datetime) :
  normalize_dt value src_tzid target_tz = Ok (allday, out) ->
  normalize_dt (VDateTime out) src_tzid' target_tz = Ok (false, out).
Proof.
  unfold normalize_dt. intros Hn. peel Hn. rename a into target.
  rewrite Ha. cbn [rbind].
  destruct value as [d|dt].
  - injection Hn as _ <-. cbn [dt_tz rbind]. unfold astimezone. cbn [dt_tz].
    now rewrite tz_is_refl.
  - peel Hn. rename a into dt'. injection Hn as _ <-.
    destruct (dt_tz (astimezone dt' target)) eqn:E;
      [| exfalso; eapply astimezone_aware; eassumption].
    cbn [rbind]. now rewrite astimezone_idem.
Qed.

Lemma normalize_dt_stable_witness :
  @normalize_dt Sample.winter_zones Sample.default_settings
    (VDateTime (mkDT (Sample.at_ 2025 1 10 8 0) (Some (ZoneAt "Europe/Paris" 3600))))
    (Some "Mars/Olympus"%string) TDefault
  = Ok (false, mkDT (Sample.at_ 2025 1 10 8 0) (Some (ZoneAt "Europe/Paris" 3600))).
Proof.
  apply (@normalize_dt_stable Sample.winter_zones Sample.default_settings
           (VDateTime (mkDT (Sample.at_ 2025 1 10 9 0) None))
           (Some "FLE Standard Time"%string) (Some "Mars/Olympus"%string) TDefault false).
  vm_compute. reflexivity.
Defined.

(* ------------------------------------------------------------------ *)
(** ** Event canonicaliser *)

Section CanonicalizerMore.
Context `{Zones} `{Settings} `{Hashlib}.



(** Everything a successful canonicalisation computed. *)
Lemma to_gcal_resource_inv (ev : vevent) (uid : string) (res : resource) :
  to_gcal_resource ev = Ok (uid, res) ->
  exists p event_tz allday_start start_dt allday_end end_dt g_rrule exdates_dt rdates_dt,
    DTSTART ev = Some p
    /\ event_uid ev = Ok uid
    /\ timezone (map_tzid (p_tzid p)) = Ok event_tz
    /\ normalize_dt (p_dt p) (p_tzid p) (TObj event_tz) = Ok (allday_start, start_dt)
    /\ event_end ev event_tz allday_start start_dt = Ok (allday_end, end_dt)
    /\ match RRULE ev with
       | Some rrule =>
           if nonempty rrule then (s <- build_rrule_string rrule ;; Ok (Some s))
           else Ok None
       | None => Ok None
       end = Ok g_rrule
    /\ normalize_dates allday_start event_tz (EXDATE ev) = Ok exdates_dt
    /\ normalize_dates allday_start event_tz (RDATE ev) = Ok rdates_dt
    /\ r_summary res = or_empty (SUMMARY ev)
    /\ r_description res = or_empty (DESCRIPTION ev)
    /\ r_location res = or_empty (LOCATION ev)
    /\ r_start res = render_when allday_start start_dt (map_tzid (p_tzid p))
    /\ r_end res = render_when allday_end end_dt (map_tzid (p_tzid p))
    /\ r_src res = "outlook_ics"%string
    /\ r_outlook_uid res = uid
    /\ r_fp res
       = event_fingerprint (r_summary res) (r_description res) (r_location res)
           (dumps_when (r_start res)) (dumps_when (r_end res)) g_rrule
           (map fp_text exdates_dt) (map fp_text rdates_dt)
    /\ r_recurrence res
       = let lines :=
           match RECURRENCE_ID ev with
           | Some _ => []
           | None =>
               (match g_rrule with
                | Some g => if truthy g then [("RRULE:" ++ g)%string] else []
                | None => []
                end)
               ++ (if nonempty exdates_dt
                   then [_format_recur_line "EXDATE" allday_start exdates_dt
                           (map_tzid (p_tzid p))]
                   else [])
               ++ (if nonempty rdates_dt
                   then [_format_recur_line "RDATE" allday_start rdates_dt
                           (map_tzid (p_tzid p))]
                   else [])
           end in
         if nonempty lines then Some lines else None.
Proof.
  unfold to_gcal_resource. intros Hr.
  peel Hr. rename a into u, Ha into Hu.
  peel Hr. rename a into event_tz, Ha into Htz.
  destruct (DTSTART ev) as [p|] eqn:Hstart; [| cbn in Hr; discriminate].
  cbn [rbind] in Hr.
  peel Hr. destruct a as [allday_start start_dt]. rename Ha into Hn.
  peel Hr. destruct a as [allday_end end_dt]. rename Ha into He.
  peel Hr. rename a into g, Ha into Hg.
  peel Hr. rename a into ex, Ha into Hex.
  peel Hr. rename a into rd, Ha into Hrd.
  injection Hr as <- <-.
  exists p, event_tz, allday_start, start_dt, allday_end, end_dt, g, ex, rd.
  cbn [r_summary r_description r_location r_start r_end r_src r_outlook_uid
       r_fp r_recurrence].
  rewrite render_when_form.
  repeat (split; [assumption || reflexivity |]). reflexivity.
Qed.

Lemma event_uid_with_uid (ev : vevent) (u : option string) (uid : string) :
  event_uid ev = Ok uid -> exists uid', event_uid (with_uid ev u) = Ok uid'.
Proof.
  unfold event_uid. cbn [with_uid RECURRENCE_ID].
  destruct (RECURRENCE_ID ev) as [rid|]; [| eexists; reflexivity].
  destruct (normalize_dt (p_dt rid) (p_tzid rid) TDefault) as [[a b]|e];
    cbn [rbind]; [eexists; reflexivity | discriminate].
Qed.

End CanonicalizerMore.



(** X6.  Without an explicit end and with a duration, the end is the
    normalised start plus the duration, expressed in the zone of the event,
    and it takes the all-day form exactly when the start does; for an all-day
    start and a duration of whole days it is the date that many days on. *)
Theorem duration_end `{Zones} `{Settings} `{Hashlib}
    (ev : vevent) (duration : Z) (uid : string) (res : resource) :
  DTEND ev = None ->
  DURATION ev = Some duration ->
  to_gcal_resource ev = Ok (uid, res) ->
  exists p event_tz allday start_dt,
    DTSTART ev = Some p
    /\ timezone (map_tzid (p_tzid p)) = Ok event_tz
    /\ normalize_dt (p_dt p) (p_tzid p) (TObj event_tz) = Ok (allday, start_dt)
    /\ r_end res
       = render_when allday (astimezone (dt_add start_dt duration) event_tz)
           (map_tzid (p_tzid p))
    /\ instant (astimezone (dt_add start_dt duration) event_tz)
       = instant start_dt + duration
    /\ is_date_form (r_end res) = is_date_form (r_start res)
    /\ forall d k,
         p_dt p = VDate d -> duration = timedelta_days k ->
         r_end res = WDate (date_isoformat (civil_from_days (days_from_civil d + k))).
Proof.
  intros Hend Hdur Hr.
  apply to_gcal_resource_inv in Hr.
  destruct Hr as (p & tz & a1 & s & a2 & e & g & ex & rd
                  & Hp & _ & Htz & Hn & He & _ & _ & _ & _ & _ & _ & Hrs & Hre & _).
  exists p, tz, a1, s. repeat (split; [assumption |]).
  unfold event_end in He. rewrite Hend, Hdur in He. injection He as <- <-.
  split; [exact Hre |].
  split.
  { rewrite instant_astimezone. apply instant_dt_add.
    eapply normalize_dt_aware. eassumption. }
  split; [rewrite Hre, Hrs, !render_when_form; reflexivity |].
  intros d k Hv ->. rewrite Hv in Hn.
  unfold normalize_dt in Hn. cbn in Hn. injection Hn as <- <-.
  rewrite Hre. unfold render_when, astimezone, dt_add. cbn [dt_tz dt_naive].
  rewrite tz_is_refl. unfold dt_date. cbn [dt_naive].
  change (mkNaive d 0 0 0 0) with (midnight d).
  now rewrite naive_add_days_midnight.
Qed.

Lemma duration_end_witness :
  exists uid res,
    @to_gcal_resource Sample.winter_zones Sample.default_settings Sample.length_digest
      Fixture.ninety_minutes = Ok (uid, res)
    /\ r_end res = WDateTime "2025-01-10T10:30:00+01:00" "Europe/Paris"
    /\ is_date_form (r_end res) = is_date_form (r_start res).
Proof.
  eexists. eexists. split; [vm_compute; reflexivity |].
  split; [reflexivity |].
  destruct (@duration_end Sample.winter_zones Sample.default_settings Sample.length_digest
              Fixture.ninety_minutes _ _ _ eq_refl eq_refl eq_refl)
    as (p & tz & a & s & _ & _ & _ & _ & _ & Hform & _).
  exact Hform.
Defined.

(** X7.  An explicit end is normalised in the zone of the start, with its own
    timezone parameter as source: the end takes the date form exactly when
    the end value is a bare date, a timed end names the zone of the start as
    its time zone, and an aware end value keeps its instant.  A duration
    beside it is ignored. *)
Theorem explicit_end `{Zones} `{Settings} `{Hashlib}
    (ev : vevent) (q : prop) (uid : string) (res : resource) :
  DTEND ev = Some q ->
  to_gcal_resource ev = Ok (uid, res) ->
  exists p event_tz allday_end end_dt,
    DTSTART ev = Some p
    /\ timezone (map_tzid (p_tzid p)) = Ok event_tz
    /\ normalize_dt (p_dt q) (p_tzid q) (TObj event_tz) = Ok (allday_end, end_dt)
    /\ r_end res = render_when allday_end end_dt (map_tzid (p_tzid p))
    /\ is_date_form (r_end res) = is_date_value (p_dt q)
    /\ (forall dt tz0,
          p_dt q = VDateTime dt -> dt_tz dt = Some tz0 ->
          r_end res
            = WDateTime (isoformat (astimezone dt event_tz)) (map_tzid (p_tzid p))
          /\ instant (astimezone dt event_tz) = instant dt).
Proof.
  intros Hend Hr.
  apply to_gcal_resource_inv in Hr.
  destruct Hr as (p & tz & a1 & s & a2 & e & g & ex & rd
                  & Hp & _ & Htz & Hn & He & _ & _ & _ & _ & _ & _ & _ & Hre & _).
  unfold event_end in He. rewrite Hend in He.
  exists p, tz, a2, e. repeat (split; [assumption |]).
  split.
  { rewrite Hre, render_when_form. unfold is_date_value.
    apply (normalize_dt_flag _ _ _ _ _ He). }
  intros dt tz0 Hv Haware. rewrite Hv in He.
  unfold normalize_dt in He. cbn [resolve_target rbind] in He.
  rewrite Haware in He. cbn [rbind] in He. injection He as <- <-.
  split; [exact Hre | apply instant_astimezone].
Qed.

Lemma explicit_end_witness :
  exists uid res,
    @to_gcal_resource Sample.winter_zones Sample.default_settings Sample.length_digest
      Fixture.utc_end = Ok (uid, res)
    /\ r_end res = WDateTime "2025-01-10T10:30:00+01:00" "Europe/Paris"
    /\ is_date_form (r_end res) = false.
Proof.
  eexists. eexists. split; [vm_compute; reflexivity |].
  split; [reflexivity |].
  destruct (@explicit_end Sample.winter_zones Sample.default_settings Sample.length_digest
              Fixture.utc_end _ _ _ eq_refl eq_refl)
    as (p & tz & a & e & _ & _ & _ & _ & Hform & _).
  exact Hform.
Defined.

(* ------------------------------------------------------------------ *)
(** ** Recurrence lines of a resource *)

Lemma format_recur_line_prefix (kind : string) (is_all_day : bool)
    (l : list dtvalue) (tzid : string) :
  prefix (kind ++ ";") (_format_recur_line kind is_all_day l tzid) = true.
Proof.
  unfold _format_recur_line.
  destruct is_all_day; induction kind as [|c kind IH]; cbn;
    rewrite ?Ascii.eqb_refl; try reflexivity; destruct (Ascii.ascii_dec c c);
    try congruence; exact IH.
Qed.

(** X8.  An override never carries recurrence lines, whatever rule or dates
    its record holds.  The lines of any other resource are, in this order, at
    most one RRULE line, at most one EXDATE line and at most one RDATE line,
    and the list is absent rather than empty. *)
Theorem recurrence_lines_shape `{Zones} `{Settings} `{Hashlib}
    (ev : vevent) (uid : string) (res : resource) :
  to_gcal_resource ev = Ok (uid, res) ->
  (RECURRENCE_ID ev <> None -> r_recurrence res = None)
  /\ (forall lines,
        r_recurrence res = Some lines ->
        RECURRENCE_ID ev = None
        /\ lines <> []
        /\ exists rr ex rd,
             lines = rr ++ ex ++ rd
             /\ (List.length rr <= 1)%nat /\ (List.length ex <= 1)%nat
             /\ (List.length rd <= 1)%nat
             /\ (forall l, In l rr -> prefix "RRULE:" l = true)
             /\ (forall l, In l ex -> prefix "EXDATE;" l = true)
             /\ (forall l, In l rd -> prefix "RDATE;" l = true)).
Proof.
  intros Hr. apply to_gcal_resource_inv in Hr.
  destruct Hr as (p & tz & a1 & s & a2 & e & g & ex & rd & _ & _ & _ & _ & _ & _ & _ & _
                  & _ & _ & _ & _ & _ & _ & _ & _ & Hrec).
  cbv zeta in Hrec. split.
  - intros Hrid. destruct (RECURRENCE_ID ev); [| congruence]. exact Hrec.
  - intros lines Hlines. rewrite Hlines in Hrec.
    destruct (RECURRENCE_ID ev) as [rid|]; [discriminate |].
    split; [reflexivity |].
    set (rr := match g with
               | Some g0 => if truthy g0 then [("RRULE:" ++ g0)%string] else []
               | None => []
               end) in *.
    set (exl := if nonempty ex
                then [_format_recur_line "EXDATE" a1 ex (map_tzid (p_tzid p))]
                else []) in *.
    set (rdl := if nonempty rd
                then [_format_recur_line "RDATE" a1 rd (map_tzid (p_tzid p))]
                else []) in *.
    destruct (rr ++ exl ++ rdl) as [|x rest] eqn:Eall; [discriminate |].
    injection Hrec as ->.
    split; [discriminate |].
    exists rr, exl, rdl. split; [now rewrite Eall |].
    split; [subst rr; destruct g as [g0|]; [destruct (truthy g0) |]; cbn; lia |].
    split; [subst exl; destruct (nonempty ex); cbn; lia |].
    split; [subst rdl; destruct (nonempty rd); cbn; lia |].
    split; [| split].
    + intros l Hl. subst rr. destruct g as [g0|]; [destruct (truthy g0) |];
        try destruct Hl as [<- | []]; try destruct Hl.
      cbn. now destruct g0.
    + intros l Hl. subst exl. destruct (nonempty ex); [| destruct Hl].
      destruct Hl as [<- | []]. apply (format_recur_line_prefix "EXDATE").
    + intros l Hl. subst rdl. destruct (nonempty rd); [| destruct Hl].
      destruct Hl as [<- | []]. apply (format_recur_line_prefix "RDATE").
Qed.

Lemma recurrence_lines_shape_witness :
  (exists uid res,
     @to_gcal_resource Sample.winter_zones Sample.default_settings Sample.length_digest
       Fixture.override_with_rule = Ok (uid, res)
     /\ r_recurrence res = None)
  /\ (exists uid res,
        @to_gcal_resource Sample.winter_zones Sample.default_settings
          Sample.length_digest Fixture.daily_with_exdates = Ok (uid, res)
        /\ r_recurrence res
           = Some ["RRULE:FREQ=DAILY"; "EXDATE;VALUE=DATE:20250904,20250918"]%string).
Proof.
  split.
  - eexists. eexists. split; [vm_compute; reflexivity |].
    destruct (@recurrence_lines_shape Sample.winter_zones Sample.default_settings
                Sample.length_digest Fixture.override_with_rule _ _ eq_refl)
      as (Hover & _).
    apply Hover. discriminate.
  - eexists. eexists. split; [vm_compute; reflexivity |]. reflexivity.
Defined.

Section DatesMore.
Context `{Zones} `{Settings} `{Hashlib}.

Lemma normalize_comps_dates (tzid : option string) (event_tz : tzinfo)
    (comps : list dtvalue) :
  (forall c, In c comps -> exists d, c = VDate d) ->
  normalize_comps true tzid event_tz comps = Ok comps.
Proof.
  induction comps as [|c comps IH]; intros Hall; [reflexivity |].
  destruct (Hall c (or_introl eq_refl)) as (d & ->).
  cbn [normalize_comps]. unfold normalize_dt at 1. cbn [resolve_target rbind].
  rewrite IH by (intros c Hc; apply Hall; now right).
  reflexivity.
Qed.

(** The bare dates of the entries of an all-day event, in feed order. *)
Lemma normalize_dates_dates (event_tz : tzinfo) (entries : list dates_prop) :
  (forall e c, In e entries -> In c (dts e) -> exists d, c = VDate d) ->
  normalize_dates true event_tz entries = Ok (flat_map dts entries).
Proof.
  induction entries as [|e entries IH]; intros Hall; [reflexivity |].
  cbn [normalize_dates flat_map].
  rewrite normalize_comps_dates by (intros c Hc; apply (Hall e c); [left; reflexivity | exact Hc]).
  cbn [rbind].
  rewrite IH by (intros e' c He' Hc; apply (Hall e' c); [right; exact He' | exact Hc]).
  reflexivity.
Qed.

End DatesMore.

(** X9.  For an all-day master whose exception dates are bare dates, the
    resource carries the line [EXDATE;VALUE=DATE:] followed by those dates as
    [strftime("%Y%m%d")] writes them (the year without leading zeros, month
    and day on two digits), joined by commas, in the order of the feed and
    across all the EXDATE entries of the record. *)
Theorem all_day_exdate_line `{Zones} `{Settings} `{Hashlib}
    (ev : vevent) (p : prop) (d0 : date) (uid : string) (res : resource) :
  to_gcal_resource ev = Ok (uid, res) ->
  RECURRENCE_ID ev = None ->
  DTSTART ev = Some p ->
  p_dt p = VDate d0 ->
  (forall e c, In e (EXDATE ev) -> In c (dts e) ->
     exists d, c = VDate d /\ valid_date d) ->
  flat_map dts (EXDATE ev) <> [] ->
  exists lines,
    r_recurrence res = Some lines
    /\ In ("EXDATE;VALUE=DATE:"
           ++ join "," (map (fun c => date_compact (dtvalue_date c))
                          (flat_map dts (EXDATE ev))))%string
          lines.
Proof.
  intros Hr Hrid Hstart Hv Hdates Hne.
  apply to_gcal_resource_inv in Hr.
  destruct Hr as (p' & tz & a1 & s & a2 & e & g & ex & rd & Hp & _ & _ & Hn & _ & _
                  & Hex & _ & _ & _ & _ & _ & _ & _ & _ & _ & Hrec).
  rewrite Hstart in Hp. injection Hp as <-.
  rewrite Hv in Hn. unfold normalize_dt in Hn. cbn in Hn. injection Hn as <- <-.
  rewrite normalize_dates_dates in Hex
    by (intros e0 c0 He0 Hc0; destruct (Hdates e0 c0 He0 Hc0) as (d & -> & _);
        now exists d).
  injection Hex as <-.
  cbv zeta in Hrec. rewrite Hrid in Hrec.
  destruct (flat_map dts (EXDATE ev)) as [|c cs] eqn:Eflat; [congruence |].
  cbn [nonempty] in Hrec.
  set (line := _format_recur_line "EXDATE" true (c :: cs) (map_tzid (p_tzid p))) in *.
  set (rr := match g with
             | Some g0 => if truthy g0 then [("RRULE:" ++ g0)%string] else []
             | None => []
             end) in *.
  set (rdl := if nonempty rd
              then [_format_recur_line "RDATE" true rd (map_tzid (p_tzid p))]
              else []) in *.
  assert (Hin : In line (rr ++ [line] ++ rdl))
    by (apply in_or_app; right; now left).
  destruct (rr ++ [line] ++ rdl) as [|x rest] eqn:Eall; [destruct Hin |].
  cbn [nonempty] in Hrec.
  exists (x :: rest). split; [exact Hrec | exact Hin].
Qed.

Lemma all_day_exdate_line_witness :
  (exists uid res lines,
     @to_gcal_resource Sample.winter_zones Sample.default_settings Sample.length_digest
       Fixture.daily_with_exdates = Ok (uid, res)
     /\ r_recurrence res = Some lines
     /\ In "EXDATE;VALUE=DATE:20250904,20250918"%string lines)
  /\ (exists uid res lines,
        @to_gcal_resource Sample.winter_zones Sample.default_settings Sample.length_digest
          Fixture.early_exdate = Ok (uid, res)
        /\ r_recurrence res = Some lines
        /\ In "EXDATE;VALUE=DATE:9990904"%string lines).
Proof.
  split; [| destruct (@all_day_exdate_line Sample.winter_zones Sample.default_settings
                       Sample.length_digest Fixture.early_exdate
                       (mkProp (VDate (mkDate 999 9 1)) None) (mkDate 999 9 1)
                       _ _ eq_refl eq_refl eq_refl eq_refl)
              as (lines & Hrec & Hin);
            [ intros e c [<- | []] [<- | []]; eexists;
                (split; [reflexivity | unfold valid_date; cbn; lia])
            | discriminate
            | eexists; eexists; exists lines; split; [reflexivity |];
                split; [exact Hrec | exact Hin] ] ].
  destruct (@all_day_exdate_line Sample.winter_zones Sample.default_settings
              Sample.length_digest Fixture.daily_with_exdates
              (mkProp (VDate (mkDate 2025 9 1)) None) (mkDate 2025 9 1)
              _ _ eq_refl eq_refl eq_refl eq_refl)
    as (lines & Hrec & Hin).
  - intros e c [<- | []] [<- | [<- | []]]; eexists;
      (split; [reflexivity | unfold valid_date; cbn; lia]).
  - discriminate.
  - eexists. eexists. exists lines. split; [reflexivity |]. split; [exact Hrec |].
    exact Hin.
Defined.

(* ------------------------------------------------------------------ *)
(** ** Recurrence-line text *)

Lemma join_comma_cons (x : string) (l : list string) :
  join "," (x :: l)
  = (x ++ match l with [] => EmptyString | _ => String "," (join "," l) end)%string.
Proof.
  unfold join. destruct l as [|y l]; cbn [String.concat]; [| reflexivity].
  now rewrite sapp_nil_r.
Qed.

Lemma list_ascii_app (a b : string) :
  list_ascii_of_string (a ++ b) = list_ascii_of_string a ++ list_ascii_of_string b.
Proof. induction a as [|c a IH]; cbn; [reflexivity | now rewrite IH]. Qed.

Lemma comma_free_app (a b : string) :
  comma_free a -> comma_free b -> comma_free (a ++ b).
Proof.
  unfold comma_free. rewrite list_ascii_app. intros Ha Hb Hin.
  apply in_app_or in Hin. tauto.
Qed.

Lemma comma_free_pad (w : nat) (n : Z) : comma_free (pad w n).
Proof.
  revert n. induction w as [|w IH]; intros n; [intros [] |].
  cbn [pad]. apply comma_free_app; [apply IH |].
  intros [E | []].
  assert (Hd : is_digit (digit (n mod 10)) = true)
    by (apply digit_is_digit; apply Z.mod_pos_bound; lia).
  rewrite E in Hd. discriminate.
Qed.

Lemma comma_free_date (d : date) : comma_free (date_compact d).
Proof.
  unfold date_compact, strftime_year.
  apply comma_free_app; [apply comma_free_pad |].
  apply comma_free_app; apply comma_free_pad.
Qed.

Lemma comma_free_naive (n : naive) : comma_free (naive_compact n).
Proof.
  unfold naive_compact. apply comma_free_app; [apply comma_free_date |].
  apply (comma_free_app "T"); [intros [E | []]; discriminate |].
  apply comma_free_app; [apply comma_free_pad |].
  apply comma_free_app; apply comma_free_pad.
Qed.

(** A text without comma is recovered from the head of what follows it up
    to the next comma. *)
Lemma comma_free_split (x x' r r' : string) :
  comma_free x -> comma_free x' ->
  (r = EmptyString \/ exists t, r = String "," t) ->
  (r' = EmptyString \/ exists t, r' = String "," t) ->
  (x ++ r = x' ++ r')%string -> x = x' /\ r = r'.
Proof.
  revert x'. induction x as [|c x IH]; intros [|c' x'] Hx Hx' Hr Hr' E; cbn in E.
  - now split.
  - exfalso. destruct Hr as [-> | (t & ->)]; [discriminate |].
    apply string_cons_inj in E. destruct E as [<- _]. apply Hx'. now left.
  - exfalso. destruct Hr' as [-> | (t & ->)]; [discriminate |].
    apply string_cons_inj in E. destruct E as [-> _]. apply Hx. now left.
  - apply string_cons_inj in E. destruct E as [-> E].
    destruct (IH x') as [-> ->]; try assumption.
    + intros Hin. apply Hx. now right.
    + intros Hin. apply Hx'. now right.
    + now split.
Qed.

(** Texts without comma, none of them empty, are recovered from their join
    by commas. *)
Lemma join_comma_free_inj (l l' : list string) :
  Forall (fun s => comma_free s /\ s <> EmptyString) l ->
  Forall (fun s => comma_free s /\ s <> EmptyString) l' ->
  join "," l = join "," l' -> l = l'.
Proof.
  intros Hl. revert l'. induction Hl as [|x l [Hx Hne] Hl IH]; intros l' Hl' E.
  - destruct Hl' as [|x' l' [Hx' Hne'] Hl']; [reflexivity |].
    rewrite join_comma_cons in E. destruct x'; [congruence | discriminate].
  - destruct Hl' as [|x' l' [Hx' Hne'] Hl'].
    + rewrite join_comma_cons in E. destruct x; [congruence | discriminate].
    + rewrite !join_comma_cons in E.
      apply comma_free_split in E; try assumption.
      * destruct E as [-> E].
        destruct l as [|y l], l' as [|y' l']; try discriminate; [reflexivity |].
        apply string_cons_inj in E. destruct E as [_ E].
        f_equal. apply IH; assumption.
      * destruct l; [now left | right; eexists; reflexivity].
      * destruct l'; [now left | right; eexists; reflexivity].
Qed.

Lemma year_width_bound (y : Z) :
  1 <= y <= 9999 -> 0 <= y < 10 ^ Z.of_nat (year_width y).
Proof.
  intros Hy. unfold year_width.
  destruct (Z.ltb_spec y 10); [cbn; lia |].
  destruct (Z.ltb_spec y 100); [cbn; lia |].
  destruct (Z.ltb_spec y 1000); cbn; lia.
Qed.

Lemma date_compact_length (d : date) :
  String.length (date_compact d) = (year_width (year d) + 4)%nat.
Proof. unfold date_compact, strftime_year. now rewrite !sapp_length, !pad_length. Qed.

Lemma naive_compact_length (n : naive) :
  String.length (naive_compact n) = (year_width (year (n_date n)) + 11)%nat.
Proof.
  unfold naive_compact. rewrite !sapp_length, date_compact_length, !pad_length.
  cbn. lia.
Qed.

Lemma date_compact_nonempty (d : date) : date_compact d <> EmptyString.
Proof.
  intros E. apply (f_equal String.length) in E.
  rewrite date_compact_length in E. cbn in E. lia.
Qed.

Lemma naive_compact_nonempty (n : naive) : naive_compact n <> EmptyString.
Proof.
  intros E. apply (f_equal String.length) in E.
  rewrite naive_compact_length in E. cbn in E. lia.
Qed.

(** The compact form of a date shows the date: the width of the year is read
    off the length of the text. *)
Lemma date_compact_inj (d d' : date) :
  valid_date d -> valid_date d' -> date_compact d = date_compact d' -> d = d'.
Proof.
  intros Hv Hv' E.
  assert (Hw : year_width (year d) = year_width (year d')).
  { apply (f_equal String.length) in E. rewrite !date_compact_length in E. lia. }
  destruct d as [y m d], d' as [y' m' d']. unfold valid_date, date_compact, strftime_year in *.
  cbn [year month day] in *.
  pose proof (year_width_bound y (proj1 Hv)) as Hy.
  pose proof (year_width_bound y' (proj1 Hv')) as Hy'.
  rewrite Hw in E, Hy.
  apply pad_app_inj in E; [| assumption | assumption]. destruct E as [-> E].
  apply pad_app_inj in E; [| cbn; lia | cbn; lia]. destruct E as [-> E].
  apply pad_inj in E; [| cbn; lia | cbn; lia]. now subst.
Qed.

Lemma naive_compact_inj (n n' : naive) :
  valid_naive n -> valid_naive n' -> naive_compact n = naive_compact n' ->
  n_date n = n_date n' /\ hour n = hour n' /\ minute n = minute n'
  /\ second n = second n'.
Proof.
  intros (Hd & Hh & Hm & Hs & _) (Hd' & Hh' & Hm' & Hs' & _) E.
  assert (Hw : year_width (year (n_date n)) = year_width (year (n_date n'))).
  { apply (f_equal String.length) in E. rewrite !naive_compact_length in E. lia. }
  unfold naive_compact in E.
  apply sapp_inj in E; [| rewrite !date_compact_length; now rewrite Hw].
  destruct E as [Ed E].
  apply date_compact_inj in Ed; try assumption.
  cbn [append] in E. apply string_cons_inj in E. destruct E as [_ E].
  apply pad_app_inj in E; [| cbn; lia | cbn; lia]. destruct E as [Eh E].
  apply pad_app_inj in E; [| cbn; lia | cbn; lia]. destruct E as [Em E].
  apply pad_inj in E; [| cbn; lia | cbn; lia]. repeat split; assumption.
Qed.

Lemma map_inj_on {A B} (f : A -> B) (g : A -> string) (P : A -> Prop) (l l' : list A) :
  (forall a a', P a -> P a' -> g a = g a' -> f a = f a') ->
  Forall P l -> Forall P l' -> map g l = map g l' -> map f l = map f l'.
Proof.
  intros Hinj Hl. revert l'. induction Hl as [|a l Ha Hl IH]; intros l' Hl' E.
  - destruct l'; [reflexivity | discriminate].
  - destruct Hl' as [|a' l' Ha' Hl']; [discriminate |].
    cbn [map] in *. injection E as E1 E2. f_equal; [now apply Hinj | now apply IH].
Qed.

(** X10.  A recurrence line determines its values: two lists of values
    within the ranges of their type that give one all-day line have the same
    dates, and two that give one timed line (same kind and zone) have the same
    dates and wall clocks to the second.  The year is written on one to four
    digits: the items are recovered at the commas, and the width of the year
    from the length of an item. *)
Theorem format_recur_line_inj (kind tzid : string) (is_all_day : bool)
    (l l' : list dtvalue) :
  Forall valid_value l ->
  Forall valid_value l' ->
  _format_recur_line kind is_all_day l tzid = _format_recur_line kind is_all_day l' tzid ->
  if is_all_day then map dtvalue_date l = map dtvalue_date l'
  else map clock_fields l = map clock_fields l'.
Proof.
  intros Hl Hl'. unfold _format_recur_line. destruct is_all_day; intros E.
  - apply sapp_inj_l in E. apply sapp_inj_l in E.
    apply join_comma_free_inj in E;
      [| apply Forall_map, Forall_forall; intros; split;
           [apply comma_free_date | apply date_compact_nonempty]
       | apply Forall_map, Forall_forall; intros; split;
           [apply comma_free_date | apply date_compact_nonempty]].
    apply (map_inj_on dtvalue_date (fun dt => date_compact (dtvalue_date dt)) valid_value);
      try assumption.
    intros a a' Ha Ha' Eq. apply date_compact_inj; try assumption.
    + destruct a; apply Ha.
    + destruct a'; apply Ha'.
  - do 4 apply sapp_inj_l in E.
    apply join_comma_free_inj in E;
      [| apply Forall_map, Forall_forall; intros; split;
           [apply comma_free_naive | apply naive_compact_nonempty]
       | apply Forall_map, Forall_forall; intros; split;
           [apply comma_free_naive | apply naive_compact_nonempty]].
    apply (map_inj_on clock_fields (fun dt => naive_compact (dtvalue_naive dt)) valid_value);
      try assumption.
    intros a a' Ha Ha' Eq. apply naive_compact_inj in Eq; try assumption.
    unfold clock_fields. destruct Eq as (-> & -> & -> & ->). reflexivity.
Qed.

Lemma format_recur_line_inj_witness :
  map dtvalue_date [VDate (mkDate 999 9 4); VDate (mkDate 2025 9 18)]
  = map dtvalue_date
      [VDateTime (mkDT (Sample.at_ 999 9 4 14 0) None);
       VDateTime (mkDT (Sample.at_ 2025 9 18 14 0) None)].
Proof.
  apply (format_recur_line_inj "EXDATE" "Europe/Paris" true).
  - repeat constructor; cbn; lia.
  - repeat constructor; cbn; lia.
  - reflexivity.
Defined.

(* ------------------------------------------------------------------ *)
(** ** Identity and content *)

(** X11.  The UID of a record only enters the identity: a record that
    canonicalises still does under any other UID, to a resource with the same
    summary, description, location, start, end, recurrence lines and
    fingerprint, and with the new identity in its annotation. *)
Theorem content_ignores_uid `{Zones} `{Settings} `{Hashlib}
    (ev : vevent) (u : option string) (uid : string) (res : resource) :
  to_gcal_resource ev = Ok (uid, res) ->
  exists uid',
    event_uid (with_uid ev u) = Ok uid'
    /\ to_gcal_resource (with_uid ev u)
       = Ok (uid',
             mkResource (r_summary res) (r_description res) (r_location res)
               (r_start res) (r_end res) (r_recurrence res) (r_src res)
               uid' (r_fp res)).
Proof.
  intros Hr. pose proof Hr as Hinv. apply to_gcal_resource_inv in Hinv.
  destruct Hinv as (p & tz & a1 & s & a2 & e & g & ex & rd & Hp & Hu & Htz & Hn & He
                    & Hg & Hex & Hrd & _).
  destruct (event_uid_with_uid ev u uid Hu) as (uid' & Hu').
  exists uid'. split; [exact Hu' |].
  unfold to_gcal_resource in Hr |- *.
  rewrite Hu in Hr. rewrite Hu'. cbn [rbind] in Hr |- *.
  cbn [with_uid DTSTART SUMMARY DESCRIPTION LOCATION RRULE EXDATE RDATE RECURRENCE_ID].
  change (event_end (with_uid ev u)) with (event_end ev).
  rewrite Hp in Hr |- *. rewrite Htz in Hr |- *. cbn [rbind] in Hr |- *.
  rewrite Hn in Hr |- *. cbn [rbind] in Hr |- *.
  rewrite He in Hr |- *. cbn [rbind] in Hr |- *.
  rewrite Hg in Hr |- *. cbn [rbind] in Hr |- *.
  rewrite Hex in Hr |- *. cbn [rbind] in Hr |- *.
  rewrite Hrd in Hr |- *. cbn [rbind] in Hr |- *.
  injection Hr as <-. reflexivity.
Qed.

Lemma content_ignores_uid_witness :
  exists res res',
    @to_gcal_resource Sample.winter_zones Sample.default_settings Sample.length_digest
      Sample.standup = Ok ("standup-1"%string, res)
    /\ @to_gcal_resource Sample.winter_zones Sample.default_settings Sample.length_digest
         (with_uid Sample.standup (Some "renamed"%string)) = Ok ("renamed"%string, res')
    /\ r_fp res' = r_fp res /\ r_outlook_uid res' = "renamed"%string.
Proof.
  eexists. eexists. split; [vm_compute; reflexivity |].
  destruct (@content_ignores_uid Sample.winter_zones Sample.default_settings
              Sample.length_digest Sample.standup (Some "renamed"%string) _ _ eq_refl)
    as (uid' & Hu & Hr).
  vm_compute in Hu. injection Hu as <-.
  split; [exact Hr |]. split; reflexivity.
Defined.

(* ------------------------------------------------------------------ *)
(** ** Listing of the store *)

Lemma get_app {V} (d d' : dict V) (k : string) :
  Dict.get (d ++ d') k
  = match Dict.get d k with Some v => Some v | None => Dict.get d' k end.
Proof.
  induction d as [|[k' v'] d IH]; cbn; [reflexivity |].
  destruct (String.eqb k' k); [reflexivity | exact IH].
Qed.

Lemma in_get {V} (d : dict V) (k : string) (v : V) :
  NoDup (Dict.keys d) -> In (k, v) d -> Dict.get d k = Some v.
Proof.
  induction d as [|[k' v'] d IH]; intros Hnd Hin; [destruct Hin |].
  cbn [Dict.keys map fst] in Hnd. inversion Hnd as [|? ? Hnotin Hnd']; subst.
  cbn [Dict.get]. destruct Hin as [E | Hin].
  - injection E as -> ->. now rewrite String.eqb_refl.
  - destruct (String.eqb_spec k' k) as [-> | Hne]; [| now apply IH].
    exfalso. apply Hnotin. apply (in_map fst) in Hin. exact Hin.
Qed.

Lemma get_in {V} (d : dict V) (k : string) (v : V) :
  Dict.get d k = Some v -> In (k, v) d.
Proof.
  induction d as [|[k' v'] d IH]; cbn; [discriminate |].
  destruct (String.eqb_spec k' k) as [-> | Hne]; intros E.
  - injection E as ->. now left.
  - right. now apply IH.
Qed.

Lemma get_record_item (items : dict store_event) (ev : store_event) (k : string) :
  Dict.get (record_item items ev) k
  = match ev_outlook_uid ev with
    | Some uid =>
        if truthy uid && String.eqb uid k then Some ev else Dict.get items k
    | None => Dict.get items k
    end.
Proof.
  unfold record_item. destruct (ev_outlook_uid ev) as [uid|]; [| reflexivity].
  destruct (truthy uid); cbn [andb]; [apply get_set |].
  reflexivity.
Qed.

Lemma gcal_list_existing_flat (pages : list (list store_event)) :
  gcal_list_existing pages = fold_left record_item (listed_events pages) [].
Proof.
  unfold gcal_list_existing, listed_events. generalize (@nil (string * store_event)).
  induction pages as [|page pages IH]; intros items; cbn [fold_left List.concat];
    [reflexivity |].
  rewrite fold_left_app. apply IH.
Qed.

(** An entry of the listing is an event of the pages that carries its key,
    a non-empty text, as its identity. *)
Lemma listing_entry (pages : list (list store_event)) (uid : string) (ev : store_event) :
  Dict.get (gcal_list_existing pages) uid = Some ev ->
  ev_outlook_uid ev = Some uid
  /\ truthy uid = true
  /\ In ev (listed_events pages).
Proof.
  rewrite gcal_list_existing_flat. generalize (listed_events pages) as evs.
  intros evs. revert uid ev.
  induction evs as [|ev0 evs IH] using rev_ind; intros uid ev Hget;
    [discriminate |].
  rewrite fold_left_app in Hget. cbn [fold_left] in Hget.
  rewrite get_record_item in Hget.
  destruct (ev_outlook_uid ev0) as [u|] eqn:Eu.
  - destruct (truthy u) eqn:Et; cbn [andb] in Hget.
    + destruct (String.eqb_spec u uid) as [-> | Hne].
      * injection Hget as <-. repeat split; try assumption.
        apply in_or_app. right. now left.
      * destruct (IH uid ev Hget) as (H1 & H2 & H3).
        repeat split; try assumption. apply in_or_app. now left.
    + destruct (IH uid ev Hget) as (H1 & H2 & H3).
      repeat split; try assumption. apply in_or_app. now left.
  - destruct (IH uid ev Hget) as (H1 & H2 & H3).
    repeat split; try assumption. apply in_or_app. now left.
Qed.

(** X12.  The listing is keyed by the identity found in the private
    annotation of the events: every entry is an event of the pages that
    carries its key, a non-empty text, as its identity, so an event without
    the annotation, or with an empty identity, is never listed; and every
    event of the pages with a non-empty identity has that identity among the
    keys, held by the last such event. *)
Theorem listing_keys (pages : list (list store_event)) :
  (forall uid ev,
     Dict.get (gcal_list_existing pages) uid = Some ev ->
     ev_outlook_uid ev = Some uid
     /\ truthy uid = true
     /\ In ev (listed_events pages))
  /\ (forall uid ev,
        In ev (listed_events pages) ->
        ev_outlook_uid ev = Some uid -> truthy uid = true ->
        exists ev', Dict.get (gcal_list_existing pages) uid = Some ev')
  /\ (forall evs ev uid,
        listed_events pages = evs ++ [ev] ->
        ev_outlook_uid ev = Some uid -> truthy uid = true ->
        Dict.get (gcal_list_existing pages) uid = Some ev).
Proof.
  split; [intros uid ev; apply listing_entry |].
  rewrite gcal_list_existing_flat. generalize (listed_events pages) as evs.
  intros evs. split.
  - induction evs as [|ev0 evs IH] using rev_ind; intros uid ev Hin Hu Ht;
      [destruct Hin |].
    rewrite fold_left_app. cbn [fold_left]. rewrite get_record_item.
    apply in_app_or in Hin.
    destruct (ev_outlook_uid ev0) as [u|] eqn:Eu.
    + destruct (truthy u && String.eqb u uid) eqn:Ematch; [eexists; reflexivity |].
      destruct Hin as [Hin | [<- | []]]; [now apply (IH uid ev) |].
      rewrite Hu in Eu. injection Eu as <-.
      rewrite Ht, String.eqb_refl in Ematch. discriminate.
    + destruct Hin as [Hin | [<- | []]]; [now apply (IH uid ev) | congruence].
  - intros evs' ev uid -> Hu Ht.
    rewrite fold_left_app. cbn [fold_left]. rewrite get_record_item, Hu, Ht.
    now rewrite String.eqb_refl.
Qed.

Lemma listing_keys_witness :
  Dict.get (gcal_list_existing [Sample.store_page]) "holiday-1"
  = Some (mkStoreEvent "g-3" (Some "holiday-1"%string) (Some Sample.holiday_fp)).
Proof.
  destruct (listing_keys [Sample.store_page]) as (_ & _ & Hlast).
  apply (Hlast
           [ mkStoreEvent "g-1" (Some "standup-1"%string) (Some "stale"%string);
             mkStoreEvent "g-2" (Some "broken-1"%string) (Some "0"%string) ]);
    reflexivity.
Defined.

(* ------------------------------------------------------------------ *)
(** ** Reconciliation *)

Section ReconcileMore.
Context `{World}.

Lemma upsert_trace_in (existing : dict store_event) (items : list (string * resource))
    (e : effect) :
  In e (trace (upsert existing items)) ->
  exists item, In item items /\ In e (trace (upsert_one existing item)).
Proof.
  induction items as [|item items IH]; cbn [upsert]; [intros [] |].
  intros Hin. apply pbind_trace_in in Hin. destruct Hin as [Hin | (_ & Hin)].
  - exists item. split; [now left | exact Hin].
  - destruct (IH Hin) as (it & Hit & He). exists it. split; [now right | exact He].
Qed.

Lemma delete_trace_in (src : dict resource) (items : list (string * store_event))
    (e : effect) :
  In e (trace (delete_disappeared src items)) ->
  exists item, In item items /\ In e (trace (delete_one src item)).
Proof.
  induction items as [|item items IH]; cbn [delete_disappeared]; [intros [] |].
  intros Hin. apply pbind_trace_in in Hin. destruct Hin as [Hin | (_ & Hin)].
  - exists item. split; [now left | exact Hin].
  - destruct (IH Hin) as (it & Hit & He). exists it. split; [now right | exact He].
Qed.

Lemma upsert_quiet (existing : dict store_event) (items : list (string * resource)) :
  (forall item, In item items -> upsert_one existing item = pure tt) ->
  upsert existing items = pure tt.
Proof.
  induction items as [|item items IH]; intros Hq; [reflexivity |].
  cbn [upsert]. rewrite (Hq item (or_introl eq_refl)).
  rewrite IH by (intros it Hit; apply Hq; now right). reflexivity.
Qed.

Lemma delete_quiet (src : dict resource) (items : list (string * store_event)) :
  (forall item, In item items -> delete_one src item = pure tt) ->
  delete_disappeared src items = pure tt.
Proof.
  induction items as [|item items IH]; intros Hq; [reflexivity |].
  cbn [delete_disappeared]. rewrite (Hq item (or_introl eq_refl)).
  rewrite IH by (intros it Hit; apply Hq; now right). reflexivity.
Qed.

End ReconcileMore.

(** X13.  Whether or not it completes, a reconciliation only issues calls
    that the two dictionaries justify: an insert carries the kept resource of
    an identity the listing lacks; a patch carries the kept resource of an
    identity and the id of the listed event of that identity, whose stored
    fingerprint differs; a delete carries the id of a listed event whose
    identity is not kept.  Every patched or deleted event is one of the pages
    and carries the identity in its annotation; the state is never written
    and the store never listed. *)
Theorem reconcile_targets `{World}
    (src : dict resource) (pages : list (list store_event)) (e : effect) :
  unique_keys src = true ->
  In e (trace (reconcile src (gcal_list_existing pages))) ->
  match e with
  | Insert uid body =>
      Dict.get src uid = Some body
      /\ Dict.get (gcal_list_existing pages) uid = None
  | Patch uid eventId body =>
      Dict.get src uid = Some body
      /\ exists ev,
           Dict.get (gcal_list_existing pages) uid = Some ev
           /\ ev_id ev = eventId
           /\ ev_fp ev <> Some (r_fp body)
           /\ ev_outlook_uid ev = Some uid
           /\ In ev (listed_events pages)
  | Delete uid eventId =>
      Dict.get src uid = None
      /\ exists ev,
           Dict.get (gcal_list_existing pages) uid = Some ev
           /\ ev_id ev = eventId
           /\ ev_outlook_uid ev = Some uid
           /\ In ev (listed_events pages)
  | SaveState _ | ListEvents _ => False
  end.
Proof.
  intros Hsrc Hin. apply unique_nodup in Hsrc.
  assert (Hkeys := listing_entry pages).
  unfold reconcile in Hin. apply pbind_trace_in in Hin.
  destruct Hin as [Hin | (_ & Hin)].
  - apply upsert_trace_in in Hin. destruct Hin as ([uid res] & Hitem & He).
    apply (in_get _ _ _ Hsrc) in Hitem.
    unfold upsert_one in He.
    destruct (Dict.get (gcal_list_existing pages) uid) as [ex|] eqn:Eex.
    + destruct (fp_changed ex res) eqn:Efp; [| destruct He].
      destruct He as [<- | []]. split; [exact Hitem |].
      exists ex. destruct (Hkeys uid ex Eex) as (H1 & _ & H3).
      repeat split; try assumption; try reflexivity.
      intros Hfp. apply fp_changed_false in Hfp. congruence.
    + destruct He as [<- | []]. split; [exact Hitem | exact Eex].
  - apply delete_trace_in in Hin. destruct Hin as ([uid ex] & Hitem & He).
    apply in_get in Hitem; [| apply gcal_list_existing_nodup].
    unfold delete_one, Dict.mem in He.
    destruct (Dict.get src uid) eqn:Es; [destruct He |].
    destruct He as [<- | []]. split; [exact Es |].
    exists ex. destruct (Hkeys uid ex Hitem) as (H1 & _ & H3).
    repeat split; assumption || reflexivity.
Qed.

Lemma reconcile_targets_witness :
  Dict.get Sample.kept_snapshot "broken-1" = None
  /\ exists ev,
       Dict.get (gcal_list_existing [Sample.store_page]) "broken-1" = Some ev
       /\ ev_id ev = "g-2"%string
       /\ ev_outlook_uid ev = Some "broken-1"%string
       /\ In ev (listed_events [Sample.store_page]).
Proof.
  apply (@reconcile_targets Sample.quiet_world Sample.kept_snapshot [Sample.store_page]
           (Delete "broken-1" "g-2") eq_refl).
  vm_compute. tauto.
Defined.

Section SyncedStore.
Context `{World}.

Lemma listing_of_stored (ids : string -> string) (src : dict resource) :
  NoDup (Dict.keys src) ->
  (forall uid res, In (uid, res) src -> r_outlook_uid res = uid /\ truthy uid = true) ->
  forall k,
    Dict.get (fold_left record_item (map (stored ids) src) []) k
    = option_map (fun res => stored ids (k, res)) (Dict.get src k).
Proof.
  induction src as [|[u r] src IH] using rev_ind; intros Hnd Hann k; [reflexivity |].
  rewrite map_app, fold_left_app. cbn [map fold_left].
  rewrite get_record_item, get_app. cbn [stored ev_outlook_uid fst snd Dict.get].
  destruct (Hann u r) as [Hu Ht]; [apply in_or_app; right; now left |].
  rewrite Hu, Ht. cbn [andb].
  unfold Dict.keys in Hnd. rewrite map_app in Hnd. cbn [map fst] in Hnd.
  assert (Hnd' : NoDup (Dict.keys src)) by (eapply NoDup_app_remove_r; exact Hnd).
  assert (Hnotin : ~ In u (Dict.keys src)).
  { apply NoDup_remove_2 in Hnd. rewrite app_nil_r in Hnd. exact Hnd. }
  rewrite IH; [| exact Hnd' | intros uid res Hin; apply Hann, in_or_app; now left].
  destruct (String.eqb_spec u k) as [-> | Hne].
  - apply get_none_not_in in Hnotin. rewrite Hnotin. reflexivity.
  - destruct (Dict.get src k); reflexivity.
Qed.

End SyncedStore.

(** X14.  When the listing returns, for every kept identity, an event whose
    stored fingerprint is that of the kept resource, and no event of an
    identity that is not kept, a reconciliation makes no call at all, so no
    call can fail.  (The store only lists events that end after the time of
    the call: this is the case of a snapshot whose events are all still
    listed.) *)
Theorem synced_store_no_call `{World}
    (src : dict resource) (pages : list (list store_event)) :
  (forall uid res,
     In (uid, res) src ->
     exists ev, Dict.get (gcal_list_existing pages) uid = Some ev
                /\ ev_fp ev = Some (r_fp res)) ->
  (forall uid ev,
     In (uid, ev) (gcal_list_existing pages) -> Dict.mem src uid = true) ->
  reconcile src (gcal_list_existing pages) = ([], Ok tt).
Proof.
  intros Hkept Hlisted. unfold reconcile.
  rewrite upsert_quiet.
  - cbn [pbind pure]. rewrite delete_quiet; [reflexivity |].
    intros [uid ex] Hin. unfold delete_one. now rewrite (Hlisted uid ex Hin).
  - intros [uid res] Hin. destruct (Hkept uid res Hin) as (ev & Hg & Hfp).
    unfold upsert_one. rewrite Hg.
    apply fp_changed_false in Hfp. now rewrite Hfp.
Qed.

(** On 2025-01-15: the February meeting and the day of spring are kept, and
    the store lists both with their fingerprints. *)
Lemma synced_store_no_call_witness :
  @snapshot Sample.winter_zones Sample.default_settings Sample.length_digest
    (@cutoff_of Sample.default_settings
       (@fromutc Sample.winter_zones (@TZ Sample.default_settings)
          (@clock Sample.quiet_world)))
    [] Fixture.upcoming_feed = Ok Fixture.upcoming_snapshot
  /\ @reconcile Sample.quiet_world Fixture.upcoming_snapshot
       (gcal_list_existing [Fixture.upcoming_page])
     = ([], Ok tt).
Proof.
  split; [vm_compute; reflexivity |].
  apply (@synced_store_no_call Sample.quiet_world Fixture.upcoming_snapshot
           [Fixture.upcoming_page]).
  - intros uid res [E | [E | []]]; injection E as <- <-;
      eexists; split; reflexivity.
  - intros uid ev Hin. vm_compute in Hin.
    destruct Hin as [E | [E | []]]; injection E as <- _; reflexivity.
Defined.

(* ------------------------------------------------------------------ *)
(** ** Runs *)

Section RunMore.
Context `{Zones} `{Settings} `{Hashlib} `{World}.

Lemma snapshot_step_entries (cutoff : datetime) (src src' : dict resource)
    (comp : vevent) (P : string -> resource -> Prop) :
  (forall uid res, Dict.get src uid = Some res -> P uid res) ->
  (forall uid res,
     DTSTART comp <> None -> to_gcal_resource comp = Ok (uid, res) -> P uid res) ->
  snapshot_step cutoff src comp = Ok src' ->
  forall uid res, Dict.get src' uid = Some res -> P uid res.
Proof.
  intros Hsrc Hnew. unfold snapshot_step.
  destruct (DTSTART comp) as [p|] eqn:Hstart;
    [| intros E; injection E as <-; exact Hsrc].
  intros E. peel E. destruct a as [allday start_dt].
  destruct (keep cutoff comp start_dt); [| injection E as <-; exact Hsrc].
  peel E. destruct a as [u r]. injection E as <-.
  intros uid res Hget. rewrite get_set in Hget.
  destruct (String.eqb_spec u uid) as [-> | Hne].
  - injection Hget as <-. apply Hnew; [discriminate | assumption].
  - now apply Hsrc.
Qed.

Lemma entries_of_snapshot (cutoff : datetime) (comps : list vevent)
    (src src' : dict resource) (P : string -> resource -> Prop) :
  (forall uid res, Dict.get src uid = Some res -> P uid res) ->
  (forall comp uid res,
     In comp comps -> DTSTART comp <> None ->
     to_gcal_resource comp = Ok (uid, res) -> P uid res) ->
  snapshot cutoff src comps = Ok src' ->
  forall uid res, Dict.get src' uid = Some res -> P uid res.
Proof.
  revert src. induction comps as [|c comps IH]; intros src Hsrc Hnew E;
    cbn [snapshot] in E.
  - injection E as <-. exact Hsrc.
  - peel E. eapply IH; [| | exact E].
    + eapply snapshot_step_entries; [exact Hsrc | | exact Ha].
      intros uid res Hs Hr. eapply Hnew; [now left | exact Hs | exact Hr].
    + intros comp uid res Hin. apply Hnew. now right.
Qed.

Lemma fail_fast_pure {A} (a : A) : fail_fast (pure a).
Proof. unfold fail_fast. cbn. constructor. Qed.

Lemma fail_fast_call (e : effect) : fail_fast (call e).
Proof.
  unfold fail_fast, call. cbn. destruct (store_fails e) eqn:E.
  - split; [reflexivity |]. exists [], e. repeat split; [assumption | constructor].
  - repeat constructor. exact E.
Qed.

Lemma fail_fast_bind {A B} (c : prog A) (k : A -> prog B) :
  fail_fast c -> (forall a, fail_fast (k a)) -> fail_fast (pbind c k).
Proof.
  unfold fail_fast. destruct c as [t [a|e]]; cbn [outcome trace fst snd pbind].
  - intros Hc Hk. specialize (Hk a). destruct (k a) as [t' [b|e']];
      cbn [outcome trace fst snd] in *.
    + apply Forall_app. now split.
    + destruct Hk as (-> & pre & x & -> & Hx & Hpre).
      split; [reflexivity |]. exists (t ++ pre), x.
      rewrite app_assoc. repeat split; [assumption |].
      apply Forall_app. now split.
  - intros Hc _. exact Hc.
Qed.

Lemma upsert_fail_fast (existing : dict store_event) (items : list (string * resource)) :
  fail_fast (upsert existing items).
Proof.
  induction items as [|[uid res] items IH]; cbn [upsert]; [apply fail_fast_pure |].
  apply fail_fast_bind; [| intros _; exact IH].
  unfold upsert_one. destruct (Dict.get existing uid) as [ex|];
    [destruct (fp_changed ex res) |];
    apply fail_fast_call || apply fail_fast_pure.
Qed.

Lemma delete_fail_fast (src : dict resource) (items : list (string * store_event)) :
  fail_fast (delete_disappeared src items).
Proof.
  induction items as [|[uid ex] items IH]; cbn [delete_disappeared];
    [apply fail_fast_pure |].
  apply fail_fast_bind; [| intros _; exact IH].
  unfold delete_one. destruct (Dict.mem src uid);
    apply fail_fast_call || apply fail_fast_pure.
Qed.

Lemma upsert_no_delete (existing : dict store_event) (items : list (string * resource)) :
  Forall (fun x => is_delete x = false) (trace (upsert existing items)).
Proof.
  apply Forall_forall. intros e He. apply upsert_trace_in in He.
  destruct He as ([uid res] & _ & He). unfold upsert_one in He.
  destruct (Dict.get existing uid) as [ex|]; [destruct (fp_changed ex res) |];
    cbn in He; try destruct He as [<- | []]; try destruct He; reflexivity.
Qed.

End RunMore.

(** X15.  The listing never has the empty text as a key, so a kept record
    whose identity is the empty text is matched with no event of the store:
    every run that completes inserts its resource again, whatever the store
    already holds. *)
Theorem empty_identity_always_inserted `{Zones} `{Settings} `{Hashlib} `{World}
    (comps : list vevent) (src : dict resource) (res : resource) :
  snapshot (cutoff_of (fromutc TZ clock)) [] comps = Ok src ->
  Dict.get src EmptyString = Some res ->
  outcome (sync comps) = Ok tt ->
  Dict.get (gcal_list_existing list_pages) EmptyString = None
  /\ calls_for EmptyString (trace (sync comps)) = [Insert EmptyString res].
Proof.
  intros Hsnap Hres Hok.
  assert (Hnone : Dict.get (gcal_list_existing list_pages) EmptyString = None).
  { destruct (Dict.get (gcal_list_existing list_pages) EmptyString) as [ev|] eqn:E;
      [| reflexivity].
    destruct (listing_entry _ _ _ E) as (_ & Ht & _). discriminate Ht. }
  split; [exact Hnone |].
  rewrite (sync_calls_for comps src EmptyString Hsnap Hok), Hres, Hnone. reflexivity.
Qed.

Lemma empty_identity_always_inserted_witness :
  exists res,
    calls_for EmptyString
      (trace (@sync Sample.winter_zones Sample.default_settings Sample.length_digest
                Fixture.nameless_world [Fixture.nameless]))
    = [Insert EmptyString res]
    /\ r_fp res = "231"%string.
Proof.
  eexists. split.
  - refine (proj2 (@empty_identity_always_inserted Sample.winter_zones
                     Sample.default_settings Sample.length_digest Fixture.nameless_world
                     [Fixture.nameless] _ _ _ _ _));
      vm_compute; reflexivity.
  - reflexivity.
Defined.

(** X16.  When a change is detected and the feed then fails to parse, or one
    of its records fails to canonicalise, the run raises with the write of
    the new state as its only effect: no store call is made.  A next run that
    receives the same content with that state ends at once with no effect. *)
Theorem failed_run_after_save `{Zones} `{Settings} `{Hashlib} `{World}
    (state : sync_state) (r : response) (e : exn) :
  status_code r <> 304 ->
  is_error_status (status_code r) = false ->
  hash state <> Some (md5 (content r)) ->
  (from_ical (content r) = Raise e
   \/ exists comps,
        from_ical (content r) = Ok comps
        /\ snapshot (cutoff_of (fromutc TZ clock)) [] comps = Raise e) ->
  main state r = ([SaveState (new_state_of r)], Raise e)
  /\ main (new_state_of r) r = ([], Ok tt).
Proof.
  intros H304 Herr Hh Hfail.
  assert (Hno : opt_is (hash state) (md5 (content r)) = false).
  { destruct (opt_is (hash state) (md5 (content r))) eqn:E; [| reflexivity].
    apply opt_is_true in E. contradiction. }
  split.
  - unfold main. destruct (Z.eqb_spec (status_code r) 304); [contradiction |].
    rewrite Herr, Hno.
    destruct Hfail as [Hparse | (comps & Hparse & Hsnap)]; rewrite Hparse.
    + reflexivity.
    + cbn [lift pbind]. unfold sync. rewrite Hsnap. reflexivity.
  - unfold main. destruct (Z.eqb_spec (status_code r) 304); [contradiction |].
    rewrite Herr. unfold new_state_of. cbn [hash opt_is].
    now rewrite String.eqb_refl.
Qed.

Lemma failed_run_after_save_witness :
  @main Sample.winter_zones Sample.default_settings Sample.length_digest
    Fixture.broken_world Sample.state_v1 Sample.feed_200
  = ([SaveState (mkState (Some "v2"%string) None (Some "15"%string))],
     Raise UnknownTimeZoneError).
Proof.
  refine (proj1 (@failed_run_after_save Sample.winter_zones Sample.default_settings
                   Sample.length_digest Fixture.broken_world Sample.state_v1
                   Sample.feed_200 UnknownTimeZoneError _ _ _ _)).
  - discriminate.
  - reflexivity.
  - discriminate.
  - right. exists [Sample.standup; Fixture.unknown_zone].
    split; [reflexivity | vm_compute; reflexivity].
Defined.

(** X17.  A reconciliation stops at the first store call that raises: when
    it raises, the error is the store error, the failing call is the last
    entry of the trace and every call before it went through; when it
    completes, every call went through.  If the failure is in the upsert loop
    no delete is attempted. *)
Theorem store_failure_stops_run `{World}
    (src : dict resource) (existing : dict store_event) :
  fail_fast (reconcile src existing)
  /\ (forall e,
        outcome (upsert existing src) = Raise e ->
        outcome (reconcile src existing) = Raise e
        /\ trace (reconcile src existing) = trace (upsert existing src)
        /\ Forall (fun x => is_delete x = false) (trace (reconcile src existing))).
Proof.
  split.
  - unfold reconcile. apply fail_fast_bind;
      [apply upsert_fail_fast | intros _; apply delete_fail_fast].
  - intros e He.
    assert (Hrec : reconcile src existing = upsert existing src).
    { unfold reconcile. destruct (upsert existing src) as [t [a|e']];
        cbn in He; [discriminate | reflexivity]. }
    rewrite Hrec. repeat split; [exact He | apply upsert_no_delete].
Qed.

Lemma store_failure_stops_run_witness :
  exists patched inserted,
    @reconcile Fixture.failing_world Sample.kept_snapshot Sample.listing
    = ([Patch "standup-1" "g-1" patched; Insert "next-1" inserted], Raise StoreError)
    /\ Forall (fun x => is_delete x = false)
         (trace (@reconcile Fixture.failing_world Sample.kept_snapshot Sample.listing)).
Proof.
  eexists. eexists. split; [vm_compute; reflexivity |].
  destruct (@store_failure_stops_run Fixture.failing_world Sample.kept_snapshot
              Sample.listing) as (_ & Hup).
  apply (Hup StoreError). vm_compute. reflexivity.
Defined.

(** X18.  Every entry of the kept snapshot is the canonical resource of a
    record of the feed that has a start, stored under the identity that the
    resource carries in its annotation, with the source tag [outlook_ics]. *)
Theorem snapshot_entries `{Zones} `{Settings} `{Hashlib}
    (cutoff : datetime) (comps : list vevent) (src : dict resource)
    (uid : string) (res : resource) :
  snapshot cutoff [] comps = Ok src ->
  Dict.get src uid = Some res ->
  r_outlook_uid res = uid
  /\ r_src res = "outlook_ics"%string
  /\ exists comp,
       In comp comps /\ DTSTART comp <> None
       /\ to_gcal_resource comp = Ok (uid, res).
Proof.
  intros Hsnap Hget.
  apply (entries_of_snapshot cutoff comps [] src
           (fun uid res =>
              r_outlook_uid res = uid
              /\ r_src res = "outlook_ics"%string
              /\ exists comp,
                   In comp comps /\ DTSTART comp <> None
                   /\ to_gcal_resource comp = Ok (uid, res)));
    try assumption.
  - intros u r Hu. discriminate Hu.
  - intros comp u r Hin Hs Hr.
    pose proof (to_gcal_resource_inv comp u r Hr) as Hinv.
    destruct Hinv as (p & tz & a1 & s & a2 & e & g & ex & rd & _ & _ & _ & _ & _ & _
                      & _ & _ & _ & _ & _ & _ & _ & Hsrc & Hid & _).
    repeat split; try assumption. now exists comp.
Qed.

Lemma snapshot_entries_witness :
  exists res,
    Dict.get Sample.kept_snapshot "next-1" = Some res
    /\ r_outlook_uid res = "next-1"%string
    /\ exists comp,
         In comp Sample.feed_events
         /\ @to_gcal_resource Sample.winter_zones Sample.default_settings
              Sample.length_digest comp = Ok ("next-1"%string, res).
Proof.
  eexists. split; [reflexivity |].
  destruct (@snapshot_entries Sample.winter_zones Sample.default_settings
              Sample.length_digest
              (@cutoff_of Sample.default_settings
                 (@fromutc Sample.winter_zones (@TZ Sample.default_settings)
                    (to_us (Sample.at_ 2025 1 15 12 0))))
              Sample.feed_events Sample.kept_snapshot "next-1" _ eq_refl eq_refl)
    as (Hid & _ & comp & Hin & _ & Hr).
  split; [exact Hid |]. exists comp. split; assumption.
Defined.

(* ------------------------------------------------------------------ *)
(** ** Order and case of the keys of a rule *)

Lemma ltb_lt (a b : string) : String.ltb a b = true <-> String_as_OT.lt a b.
Proof.
  unfold String.ltb. rewrite <- String_as_OT.cmp_lt. unfold String_as_OT.cmp.
  destruct (String.compare a b); split; congruence.
Qed.

Lemma ltb_asym (a b : string) : String.ltb a b = true -> String.ltb b a = false.
Proof.
  unfold String.ltb. rewrite (String.compare_antisym a b).
  destruct (String.compare b a); cbn; congruence.
Qed.

Lemma ltb_total (a b : string) :
  a <> b -> String.ltb a b = false -> String.ltb b a = true.
Proof.
  unfold String.ltb. intros Hne. rewrite (String.compare_antisym a b).
  destruct (String.compare b a) eqn:E; cbn; try congruence.
  apply String.compare_eq_iff in E. congruence.
Qed.

Lemma ltb_trans (a b c : string) :
  String.ltb a b = true -> String.ltb b c = true -> String.ltb a c = true.
Proof. rewrite !ltb_lt. apply String_as_OT.lt_trans. Qed.

(** Two insertions with different sort keys commute. *)
Lemma insert_by_comm {A} (f : A -> string) (x y : A) (l : list A) :
  f x <> f y ->
  insert_by f x (insert_by f y l) = insert_by f y (insert_by f x l).
Proof.
  intros Hne. induction l as [|z l IH]; cbn [insert_by].
  - destruct (String.ltb (f x) (f y)) eqn:Exy.
    + now rewrite (ltb_asym _ _ Exy).
    + rewrite (ltb_total _ _ Hne Exy). reflexivity.
  - destruct (String.ltb (f y) (f z)) eqn:Eyz, (String.ltb (f x) (f z)) eqn:Exz;
      cbn [insert_by]; rewrite ?Eyz, ?Exz.
    + destruct (String.ltb (f x) (f y)) eqn:Exy.
      * now rewrite (ltb_asym _ _ Exy).
      * rewrite (ltb_total _ _ Hne Exy). reflexivity.
    + destruct (String.ltb (f x) (f y)) eqn:Exy; [| reflexivity].
      rewrite (ltb_trans _ _ _ Exy Eyz) in Exz. discriminate.
    + destruct (String.ltb (f y) (f x)) eqn:Eyx; [| reflexivity].
      rewrite (ltb_trans _ _ _ Eyx Exz) in Eyz. discriminate.
    + now rewrite IH.
Qed.

Lemma fold_insert_perm {A} (f : A -> string) (l l' : list A) :
  Permutation l l' -> NoDup (map f l) ->
  forall acc,
    fold_left (fun acc x => insert_by f x acc) l acc
    = fold_left (fun acc x => insert_by f x acc) l' acc.
Proof.
  induction 1 as [| x l l' Hp IH | x y l | l l' l'' Hp1 IH1 Hp2 IH2];
    intros Hnd acc; cbn [fold_left].
  - reflexivity.
  - apply IH. cbn [map] in Hnd. now inversion Hnd.
  - f_equal. apply insert_by_comm.
    cbn [map] in Hnd. inversion Hnd as [|? ? Hnotin _]; subst.
    intros E. apply Hnotin. left. now symmetry.
  - rewrite IH1 by exact Hnd. apply IH2.
    eapply Permutation_NoDup; [| exact Hnd]. now apply Permutation_map.
Qed.

Lemma nodup_map {A B} (f : A -> B) (l : list A) : NoDup (map f l) -> NoDup l.
Proof.
  induction l as [|a l IH]; cbn [map]; intros Hnd; [constructor |].
  inversion Hnd as [|? ? Hnotin Hnd']; subst.
  constructor; [| now apply IH].
  intros Hin. apply Hnotin. now apply in_map.
Qed.

Lemma get_perm {V} (d d' : dict V) (k : string) :
  Permutation d d' -> NoDup (Dict.keys d) -> Dict.get d k = Dict.get d' k.
Proof.
  intros Hp Hnd.
  assert (Hnd' : NoDup (Dict.keys d'))
    by (eapply Permutation_NoDup; [apply Permutation_map; exact Hp | exact Hnd]).
  destruct (Dict.get d k) as [v|] eqn:E.
  - symmetry. apply in_get; [exact Hnd' |].
    eapply Permutation_in; [exact Hp | now apply get_in].
  - destruct (Dict.get d' k) as [v'|] eqn:E'; [| reflexivity].
    apply get_in in E'. apply (Permutation_in _ (Permutation_sym Hp)) in E'.
    apply (in_get _ _ _ Hnd) in E'. congruence.
Qed.

Lemma upper_char_idem (c : ascii) : upper_char (upper_char c) = upper_char c.
Proof.
  destruct c as [b0 b1 b2 b3 b4 b5 b6 b7];
    destruct b0, b1, b2, b3, b4, b5, b6, b7; reflexivity.
Qed.

Lemma upper_idem (s : string) : upper (upper s) = upper s.
Proof.
  induction s as [|c s IH]; cbn [upper]; [reflexivity |].
  now rewrite upper_char_idem, IH.
Qed.

Section RuleOrder.
Context `{Zones}.

Lemma fmt_parts_ext (rule rule' : rrule_dict) (ks : list string) :
  (forall k, Dict.get rule k = Dict.get rule' k) ->
  fmt_parts rule ks = fmt_parts rule' ks.
Proof.
  intros Hget. induction ks as [|k ks IH]; [reflexivity |].
  cbn [fmt_parts]. unfold fmt_part. now rewrite Hget, IH.
Qed.

End RuleOrder.

(** X19.  The text of a rule does not depend on the order of its keys: two
    rules with the same entries in any order, no two keys alike once
    upper-cased, encode to the same result. *)
Theorem build_rrule_string_order `{Zones} (rule rule' : rrule_dict) :
  Permutation rule rule' ->
  unique (map upper (Dict.keys rule)) = true ->
  build_rrule_string rule = build_rrule_string rule'.
Proof.
  intros Hp Hu. apply unique_nodup in Hu.
  unfold build_rrule_string, sorted_by.
  rewrite (fold_insert_perm upper (Dict.keys rule) (Dict.keys rule'))
    by (try exact Hu; unfold Dict.keys; now apply Permutation_map).
  rewrite (fmt_parts_ext rule rule'); [reflexivity |].
  intros k. apply get_perm; [exact Hp |]. eapply nodup_map. exact Hu.
Qed.

Lemma build_rrule_string_order_witness :
  @build_rrule_string Sample.winter_zones Fixture.rule_b
  = Ok "BYDAY=MO,WE;FREQ=WEEKLY;INTERVAL=2"%string.
Proof.
  rewrite <- (@build_rrule_string_order Sample.winter_zones Fixture.rule_a Fixture.rule_b).
  - vm_compute. reflexivity.
  - apply Permutation_sym.
    apply (Permutation_cons_append
             [ ("FREQ", [RStr "WEEKLY"]); ("BYDAY", [RStr "MO"; RStr "WE"]) ]%string
             ("INTERVAL"%string, [RInt 2])).
  - reflexivity.
Defined.

Section RuleCase.
Context `{Zones}.

Lemma insert_by_upper_map (x : string) (l : list string) :
  insert_by upper (upper x) (map upper l) = map upper (insert_by upper x l).
Proof.
  induction l as [|y l IH]; cbn [map insert_by]; [reflexivity |].
  rewrite !upper_idem. destruct (String.ltb (upper x) (upper y)); cbn [map];
    [reflexivity | now rewrite IH].
Qed.

Lemma sorted_by_upper_map (ks : list string) :
  sorted_by upper (map upper ks) = map upper (sorted_by upper ks).
Proof.
  unfold sorted_by.
  assert (Hgen : forall acc,
            fold_left (fun acc x => insert_by upper x acc) (map upper ks) (map upper acc)
            = map upper (fold_left (fun acc x => insert_by upper x acc) ks acc)).
  { induction ks as [|k ks IH]; intros acc; cbn [map fold_left]; [reflexivity |].
    rewrite insert_by_upper_map. apply IH. }
  exact (Hgen []).
Qed.

Lemma get_upper_keys (rule : rrule_dict) (k : string) :
  NoDup (map upper (Dict.keys rule)) ->
  In k (Dict.keys rule) ->
  Dict.get (map (fun kv => (upper (fst kv), snd kv)) rule) (upper k) = Dict.get rule k.
Proof.
  induction rule as [|[k0 v0] rule IH]; intros Hnd Hin; [destruct Hin |].
  cbn [Dict.keys map fst snd Dict.get] in *.
  inversion Hnd as [|? ? Hnotin Hnd']; subst.
  destruct (String.eqb_spec k0 k) as [-> | Hne].
  - now rewrite String.eqb_refl.
  - destruct Hin as [E | Hin]; [congruence |].
    destruct (String.eqb_spec (upper k0) (upper k)) as [E | _].
    + exfalso. apply Hnotin. rewrite E. now apply in_map.
    + now apply IH.
Qed.

Lemma fmt_parts_upper (rule : rrule_dict) (ks : list string) :
  NoDup (map upper (Dict.keys rule)) ->
  (forall k, In k ks -> In k (Dict.keys rule)) ->
  fmt_parts (map (fun kv => (upper (fst kv), snd kv)) rule) (map upper ks)
  = fmt_parts rule ks.
Proof.
  intros Hnd. induction ks as [|k ks IH]; intros Hin; [reflexivity |].
  cbn [map fmt_parts].
  rewrite IH by (intros k' Hk'; apply Hin; now right).
  unfold fmt_part.
  rewrite upper_idem, get_upper_keys by (try exact Hnd; apply Hin; now left).
  reflexivity.
Qed.

End RuleCase.

(** X20.  The text of a rule does not depend on the case of its keys: a rule
    and the rule with every key upper-cased encode to the same result, no two
    keys being alike once upper-cased. *)
Theorem build_rrule_string_case `{Zones} (rule : rrule_dict) :
  unique (map upper (Dict.keys rule)) = true ->
  build_rrule_string (map (fun kv => (upper (fst kv), snd kv)) rule)
  = build_rrule_string rule.
Proof.
  intros Hu. apply unique_nodup in Hu. unfold build_rrule_string.
  assert (Hkeys : Dict.keys (map (fun kv => (upper (fst kv), snd kv)) rule)
                  = map upper (Dict.keys rule)).
  { unfold Dict.keys. rewrite !map_map. reflexivity. }
  rewrite Hkeys, sorted_by_upper_map, fmt_parts_upper; [reflexivity | exact Hu |].
  intros k Hk. now apply sorted_by_in in Hk.
Qed.

Lemma build_rrule_string_case_witness :
  @build_rrule_string Sample.winter_zones
    [ ("FREQ", [RStr "daily"]); ("COUNT", [RInt 10]) ]%string
  = Ok "COUNT=10;FREQ=DAILY"%string.
Proof.
  transitivity (@build_rrule_string Sample.winter_zones
                  (map (fun kv => (upper (fst kv), snd kv)) Fixture.rule_count));
    [reflexivity |].
  rewrite (@build_rrule_string_case Sample.winter_zones Fixture.rule_count eq_refl).
  vm_compute. reflexivity.
Defined.

Section RuleErrors.
Context `{Zones}.







End RuleErrors.



(* ------------------------------------------------------------------ *)
(** ** All-day forms, and the order of a run *)

(** X22.  The start of a resource takes the date form exactly when the start
    value is a bare date; the end takes the form of the explicit end value
    when there is one and the form of the start otherwise.  So the two forms
    agree exactly when there is no explicit end or the explicit end is of the
    kind of the start. *)
Theorem all_day_forms `{Zones} `{Settings} `{Hashlib}
    (ev : vevent) (p : prop) (uid : string) (res : resource) :
  DTSTART ev = Some p ->
  to_gcal_resource ev = Ok (uid, res) ->
  is_date_form (r_start res) = is_date_value (p_dt p)
  /\ is_date_form (r_end res)
     = match DTEND ev with
       | Some q => is_date_value (p_dt q)
       | None => is_date_value (p_dt p)
       end
  /\ (is_date_form (r_start res) = is_date_form (r_end res)
      <-> match DTEND ev with
          | Some q => is_date_value (p_dt q) = is_date_value (p_dt p)
          | None => True
          end).
Proof.
  intros Hstart Hr. apply to_gcal_resource_inv in Hr.
  destruct Hr as (p' & tz & a1 & s & a2 & e & g & ex & rd & Hp & _ & _ & Hn & He
                  & _ & _ & _ & _ & _ & _ & Hrs & Hre & _).
  rewrite Hstart in Hp. injection Hp as <-.
  assert (Hform_start : is_date_form (r_start res) = is_date_value (p_dt p)).
  { rewrite Hrs, render_when_form. apply (normalize_dt_flag _ _ _ _ _ Hn). }
  assert (Hform_end : is_date_form (r_end res)
               = match DTEND ev with
                 | Some q => is_date_value (p_dt q)
                 | None => is_date_value (p_dt p)
                 end).
  { rewrite Hre, render_when_form. unfold event_end in He.
    destruct (DTEND ev) as [q|].
    - apply (normalize_dt_flag _ _ _ _ _ He).
    - destruct (DURATION ev); injection He as <- _;
        exact (normalize_dt_flag _ _ _ _ _ Hn). }
  split; [exact Hform_start |]. split; [exact Hform_end |].
  rewrite Hform_start, Hform_end. destruct (DTEND ev) as [q|]; split; intros E; auto.
Qed.

Lemma all_day_forms_witness :
  exists uid res,
    @to_gcal_resource Sample.winter_zones Sample.default_settings Sample.length_digest
      Sample.holiday = Ok (uid, res)
    /\ is_date_form (r_start res) = true
    /\ is_date_form (r_end res) = true.
Proof.
  eexists. eexists. split; [vm_compute; reflexivity |].
  destruct (@all_day_forms Sample.winter_zones Sample.default_settings
              Sample.length_digest Sample.holiday _ _ _ eq_refl eq_refl)
    as (Hs & He & _).
  split; [exact Hs | exact He].
Defined.

Section ListingFacts.
Context `{World}.

(** The calls of the listing ask for the pages in order and stop at the
    first call that raises. *)
Lemma list_calls_shape (more page : nat) :
  exists k,
    (1 <= k <= S more)%nat
    /\ trace (list_calls page more) = map ListEvents (seq page k)
    /\ (forall i, (i < k - 1)%nat -> store_fails (ListEvents (page + i)) = false)
    /\ (store_fails (ListEvents (page + (k - 1))) = true ->
        outcome (list_calls page more) = Raise StoreError)
    /\ (store_fails (ListEvents (page + (k - 1))) = false ->
        k = S more /\ outcome (list_calls page more) = Ok tt).
Proof.
  revert page. induction more as [|m IH]; intros page.
  - exists 1%nat. cbn [list_calls call trace outcome fst snd seq map Nat.sub].
    rewrite Nat.add_0_r.
    split; [lia |]. split; [reflexivity |]. split; [intros i Hi; lia |].
    split; intros ->; [reflexivity | now split].
  - cbn [list_calls]. unfold call.
    destruct (store_fails (ListEvents page)) eqn:Ef.
    + exists 1%nat. cbn [pbind trace outcome fst snd seq map Nat.sub].
      rewrite Nat.add_0_r.
      split; [lia |]. split; [reflexivity |]. split; [intros i Hi; lia |].
      split; [reflexivity | congruence].
    + destruct (IH (S page)) as (k & Hk & Ht & Hpre & Hfail & Hok).
      exists (S k). cbn [pbind].
      destruct (list_calls (S page) m) as [t r] eqn:El.
      cbn [trace outcome fst snd app seq map] in *.
      replace (S k - 1)%nat with (S (k - 1)) by lia.
      replace (page + S (k - 1))%nat with (S page + (k - 1))%nat by lia.
      split; [lia |]. split; [now rewrite Ht |]. split.
      * intros i Hi. destruct i as [|i]; [now rewrite Nat.add_0_r |].
        replace (page + S i)%nat with (S page + i)%nat by lia.
        apply Hpre. lia.
      * split; [exact Hfail |].
        intros Hlast. destruct (Hok Hlast) as [-> ->]. now split.
Qed.

End ListingFacts.

(** X23.  Once every record of the feed has been filtered and canonicalised,
    the run lists the store page by page, one call for each page in order,
    before any mutation.  If every listing call goes through, all the pages
    are asked for and the calls of the reconciliation follow; if one raises,
    the run stops at that call, with the store error and no mutation. *)
Theorem listing_comes_first `{Zones} `{Settings} `{Hashlib} `{World}
    (comps : list vevent) (src : dict resource) :
  snapshot (cutoff_of (fromutc TZ clock)) [] comps = Ok src ->
  exists k rest,
    trace (sync comps) = map ListEvents (seq 0 k) ++ rest
    /\ (1 <= k <= Nat.max 1 (List.length list_pages))%nat
    /\ Forall (fun e => is_mutation e = true) rest
    /\ (forall i, (i < k - 1)%nat -> store_fails (ListEvents i) = false)
    /\ (store_fails (ListEvents (k - 1)) = true ->
        rest = [] /\ outcome (sync comps) = Raise StoreError)
    /\ (store_fails (ListEvents (k - 1)) = false ->
        k = Nat.max 1 (List.length list_pages)
        /\ rest = trace (reconcile src (gcal_list_existing list_pages))
        /\ outcome (sync comps)
           = outcome (reconcile src (gcal_list_existing list_pages))).
Proof.
  intros Hsnap. unfold sync. rewrite Hsnap. cbn [lift pbind app].
  unfold list_existing.
  assert (Hmax : S (pred (List.length list_pages)) = Nat.max 1 (List.length list_pages))
    by (destruct (List.length list_pages); reflexivity).
  destruct (list_calls_shape (pred (List.length list_pages)) 0)
    as (k & Hk & Ht & Hpre & Hfail & Hok).
  rewrite Hmax in Hk, Hok. cbn [Nat.add] in Hpre, Hfail, Hok.
  destruct (list_calls 0 (pred (List.length list_pages))) as [t r] eqn:El.
  cbn [trace outcome fst snd] in Ht, Hfail, Hok. subst t.
  destruct (store_fails (ListEvents (k - 1))) eqn:Ef.
  - rewrite (Hfail eq_refl). exists k, []. cbn [pbind trace outcome fst snd].
    rewrite app_nil_r.
    repeat split; try assumption; try lia; try constructor; try congruence.
  - destruct (Hok eq_refl) as [Ek ->]. cbn [pbind pure app].
    rewrite app_nil_r.
    destruct (reconcile src (gcal_list_existing list_pages)) as [t' r'] eqn:Er.
    exists k, t'. cbn [trace outcome fst snd].
    split; [reflexivity |]. split; [exact Hk |]. split.
    + apply Forall_forall. intros e He.
      apply (reconcile_mutations src (gcal_list_existing list_pages)).
      now rewrite Er.
    + split; [exact Hpre |]. split; [congruence |]. intros _. now repeat split.
Qed.

(** A store of two pages whose second listing call raises: the run asks for
    both pages and stops. *)
Lemma listing_comes_first_witness :
  trace (@sync Sample.winter_zones Sample.default_settings Sample.length_digest
           Fixture.second_page_fails Sample.feed_events)
  = [ListEvents 0; ListEvents 1]
  /\ outcome (@sync Sample.winter_zones Sample.default_settings Sample.length_digest
                Fixture.second_page_fails Sample.feed_events)
     = Raise StoreError.
Proof.
  destruct (@listing_comes_first Sample.winter_zones Sample.default_settings
              Sample.length_digest Fixture.second_page_fails Sample.feed_events
              Sample.kept_snapshot)
    as (k & rest & Ht & Hk & _ & Hpre & Hfail & Hok).
  - vm_compute. reflexivity.
  - assert (Ek : k = 2%nat).
    { destruct k as [|[|[|k]]]; [lia | | reflexivity | cbn in Hk; lia].
      destruct (Hok eq_refl) as [E _]. discriminate E. }
    subst k. destruct (Hfail eq_refl) as [-> Hout].
    split; [exact Ht | exact Hout].
Defined.
